(** * Browser Audio Switcher: a shallow embedding of [browser_audio_switcher.py]

    The development embeds the program up to its GTK window: the two dump
    parsers ([list_audio_streams], [list_microphone_streams]), the two
    attribution routines ([adjust_stream_volumes],
    [adjust_microphone_streams]), the window directory, [Browser.launch],
    [Browser.focus], [Switcher.__init__] and [Switcher.activate].

    Conventions of the embedding.
    - A [string] is a Python [str] whose code points are below 256, one
      character for each code point; the text functions ([lower], [strip],
      [split], [splitlines], [int], the regular expressions) are those of
      Python on such text.  Text with other code points is outside the
      embedding.
    - A parsed stream is the Python dict with the keys ['id'], ['app_name'],
      ['binary'], ['media_name'], ['pid']; an absent key is [None].
    - Every call that leaves the process ([pactl], [wmctrl], [xprop],
      [xdotool]) is recorded as an [event] in a trace, and its answer is read
      from an environment [env] of oracles.  Calls to [logger] are not
      recorded.
    - A Python exception that escapes a function is the outcome [Raise]. *)

From Stdlib Require Import String Ascii List ZArith Bool Lia Permutation Arith.
Import ListNotations.
Local Open Scope string_scope.
Local Open Scope Z_scope.
Local Open Scope list_scope.

Set Implicit Arguments.

(* ------------------------------------------------------------------ *)
(** ** Python text primitives *)

(** [c.lower()] on one character: the letters A to Z, and the capital
    letters from 192 to 222 but for the multiplication sign. *)
Definition lower_ascii (c : ascii) : ascii :=
  let n := nat_of_ascii c in
  if ((Nat.leb 65 n && Nat.leb n 90)
      || (Nat.leb 192 n && Nat.leb n 222 && negb (Nat.eqb n 215)))%bool
  then ascii_of_nat (n + 32) else c.

(** [s.lower()] *)
Fixpoint lower (s : string) : string :=
  match s with
  | EmptyString => EmptyString
  | String c r => String (lower_ascii c) (lower r)
  end.

(** [hay.startswith(p)] *)
Fixpoint startswith (p hay : string) : bool :=
  match p, hay with
  | EmptyString, _ => true
  | String a p', String b h' => (Ascii.eqb a b && startswith p' h')%bool
  | String _ _, EmptyString => false
  end.

(** [needle in hay] *)
Fixpoint contains (needle hay : string) : bool :=
  (startswith needle hay ||
   match hay with
   | EmptyString => false
   | String _ h' => contains needle h'
   end)%bool.

(** [d.get(key, default)] on an optional key. *)
Definition get (o : option string) (default : string) : string :=
  match o with Some v => v | None => default end.

(** Truth value of [None], [''] and a non-empty [str]. *)
Definition truthy (o : option string) : bool :=
  match o with
  | None => false
  | Some EmptyString => false
  | Some _ => true
  end.

(** Truth value of a list: it is not empty. *)
Definition nonempty (A : Type) (l : list A) : bool :=
  match l with [] => false | _ :: _ => true end.

(** [a == b] where each side is [None] or a [str]. *)
Definition py_eq (a b : option string) : bool :=
  match a, b with
  | None, None => true
  | Some x, Some y => String.eqb x y
  | _, _ => false
  end.

(** [x in l] for a list of [str]. *)
Definition mem (x : string) (l : list string) : bool :=
  existsb (String.eqb x) l.

(** [l[i]] with Python's negative indices; [None] stands for IndexError. *)
Definition py_getitem (A : Type) (l : list A) (i : Z) : option A :=
  let n := Z.of_nat (List.length l) in
  if (0 <=? i) && (i <? n) then nth_error l (Z.to_nat i)
  else if (- n <=? i) && (i <? 0) then nth_error l (Z.to_nat (n + i))
  else None.

(** [l[i] = v] for an index in range (the program only stores at
    [self.idx - 1] of a three-element list). *)
Fixpoint set_nth (A : Type) (l : list A) (n : nat) (v : A) : list A :=
  match l, n with
  | [], _ => []
  | _ :: r, O => v :: r
  | x :: r, S k => x :: set_nth r k v
  end.

(* ------------------------------------------------------------------ *)
(** ** Streams, events, outcomes *)

(** One element of the list returned by the parsers. *)
Record stream : Type := mkStream {
  s_id : option string;
  s_app_name : option string;
  s_binary : option string;
  s_media_name : option string;
  s_pid : option string
}.

(** The empty dict [{}]. *)
Definition empty_stream : stream := mkStream None None None None None.

(** Calls that leave the process, in program order. *)
Inductive event : Type :=
| ListWindows                          (* wmctrl -lp, from list_all_windows *)
| FocusById (wid : string)             (* wmctrl -i -a wid *)
| FocusByTitle (title : string)        (* wmctrl -a title *)
| FindByPid (pid : string)             (* wmctrl -lp, from find_window_by_pid *)
| FindByClass (hint : string)          (* xprop, from find_window_by_class *)
| Xdotool (wid : string)               (* xdotool windowactivate wid *)
| DumpPlayback                         (* pactl list sink-inputs *)
| DumpCapture                          (* pactl list source-outputs *)
| GetWindowPid (wid : string)          (* xprop -id wid _NET_WM_PID *)
| SetVol (idx : string) (p : Z)        (* pactl set-sink-input-volume *)
| SetMute (idx : string) (m : bool).   (* pactl set-source-output-mute *)

Inductive exn : Type :=
| UnboundLocalError (name : string)
| IndexError
| KeyError
| ValueError
| UnicodeDecodeError      (* [run]: the output of a command is not text *)
| OSError.                (* [run]: the command cannot be started *)

Inductive outcome (A : Type) : Type :=
| Ok (a : A)
| Raise (e : exn).
Arguments Raise {A} e.

(** What the program can ask of the desktop; fixed while "nothing changes
    outside". *)
Record env : Type := mkEnv {
  playback_dump : string;                     (* run(["pactl","list","sink-inputs"]);
                                                 empty when [run] raises *)
  capture_dump : string;                      (* run(["pactl","list","source-outputs"]);
                                                 empty when [run] raises *)
  window_pid : string -> option string;       (* get_window_pid *)
  focus_ok : string -> bool;                  (* focus_window_by_id on a non-empty id *)
  title_ok : string -> bool;                  (* wmctrl -a title returned 0 *)
  window_by_pid : string -> outcome (option string);
                                              (* find_window_by_pid, which lets
                                                 the exceptions of [run] but
                                                 CalledProcessError through *)
  window_by_class : string -> option string;  (* find_window_by_class *)
  xdotool_ok : string -> bool;                (* xdotool windowactivate could be
                                                 started *)
  vol_ok : string -> Z -> bool;               (* set_vol did not fail *)
  mute_ok : string -> bool -> bool            (* set_mute did not fail *)
}.

(** A computation that performs calls and then returns or raises. *)
Definition W (A : Type) : Type := (list event * outcome A)%type.

Definition ret (A : Type) (a : A) : W A := ([], Ok a).

Definition bind (A B : Type) (m : W A) (f : A -> W B) : W B :=
  match m with
  | (t, Ok a) => let '(t', r) := f a in (t ++ t', r)
  | (t, Raise e) => (t, Raise e)
  end.

Definition emit (e : event) : W unit := ([e], Ok tt).

Definition raise (A : Type) (e : exn) : W A := ([], Raise e).
Arguments raise {A} e.

(** The answer of a call that returns or raises. *)
Definition answer (A : Type) (o : outcome A) : W A := ([], o).

Declare Scope w_scope.
Delimit Scope w_scope with w.
Notation "x <- m ;; k" := (bind m (fun x => k))
  (at level 61, m at next level, right associativity) : w_scope.
Notation "m ;;; k" := (bind m (fun _ => k))
  (at level 61, right associativity) : w_scope.
Local Open Scope w_scope.

(** [for x in l: st = body(st, x)] *)
Fixpoint for_each (A St : Type) (body : St -> A -> W St) (l : list A) (st : St) : W St :=
  match l with
  | [] => ret st
  | x :: r => st' <- body st x ;; for_each body r st'
  end.

Definition trace_of (A : Type) (m : W A) : list event := fst m.
Definition result_of (A : Type) (m : W A) : outcome A := snd m.

(** Reading a local variable that may not have been assigned. *)
Definition read_local (A : Type) (name : string) (v : option A) : W A :=
  match v with
  | Some a => ret a
  | None => raise (UnboundLocalError name)
  end.

Section Program.

Variable E : env.

(** [set_vol(idx, p)]: the call is made; its boolean answer is what the
    [try] reports. *)
Definition set_vol (idx : string) (p : Z) : W bool :=
  emit (SetVol idx p) ;;; ret (vol_ok E idx p).

(** [set_mute(idx, m)] *)
Definition set_mute (idx : string) (m : bool) : W bool :=
  emit (SetMute idx m) ;;; ret (mute_ok E idx m).

(** [get_window_pid(window_id)] *)
Definition get_window_pid (window_id : string) : W (option string) :=
  emit (GetWindowPid window_id) ;;; ret (window_pid E window_id).


(* ------------------------------------------------------------------ *)
(** ** [adjust_stream_volumes] *)

Definition ACTIVE_VOL : Z := 100.
Definition INACTIVE_VOL : Z := 30.

(** The dict [browser_names] of [adjust_stream_volumes]. *)
Definition browser_names (idx : Z) : list string :=
  if idx =? 1 then ["vivaldi"; "vivaldimail"]
  else if idx =? 2 then ["chrome"; "google chrome"; "chromium"]
  else if idx =? 3 then ["brave"; "brave-browser"]
  else [].

(** [any(n in app_name or n in binary for n in names)] *)
Definition any_name (names : list string) (app_name binary : string) : bool :=
  existsb (fun n => contains n app_name || contains n binary) names.

(** The locals of the first pass that outlive one iteration. *)
Record pass1 : Type := mkPass1 {
  vivaldi_streams : list string;
  chrome_streams : list string;
  brave_streams : list string;
  browser_stream_ids : list string;
  success1 : bool
}.

Definition pass1_init (success : bool) : pass1 := mkPass1 [] [] [] [] success.

Definition add_vivaldi (i : string) (st : pass1) : pass1 :=
  mkPass1 (vivaldi_streams st ++ [i]) (chrome_streams st) (brave_streams st)
          (browser_stream_ids st) (success1 st).
Definition add_chrome (i : string) (st : pass1) : pass1 :=
  mkPass1 (vivaldi_streams st) (chrome_streams st ++ [i]) (brave_streams st)
          (browser_stream_ids st) (success1 st).
Definition add_brave (i : string) (st : pass1) : pass1 :=
  mkPass1 (vivaldi_streams st) (chrome_streams st) (brave_streams st ++ [i])
          (browser_stream_ids st) (success1 st).
Definition add_assigned (i : string) (st : pass1) : pass1 :=
  mkPass1 (vivaldi_streams st) (chrome_streams st) (brave_streams st)
          (browser_stream_ids st ++ [i]) true.

(** The [if/elif] chain of lines 276-320: the browser index given to the
    stream ([stream_browser_idx]) and the updated per-browser lists. *)
Definition attribute (active_idx : Z) (active_pid : option string)
    (st : pass1) (i app_name binary stream_pid : string) : option Z * pass1 :=
  if any_name (browser_names 1) app_name binary then (Some 1, add_vivaldi i st)
  else if any_name (browser_names 2) app_name binary then (Some 2, add_chrome i st)
  else if any_name (browser_names 3) app_name binary then (Some 3, add_brave i st)
  else if (active_idx =? 2) && (contains "chromium" app_name || contains "chromium" binary)
    then (Some 2, add_chrome i st)
  else if contains "chromium" app_name || contains "chromium" binary then
    if py_eq (Some stream_pid) active_pid then
      (Some active_idx,
       if active_idx =? 1 then add_vivaldi i st
       else if active_idx =? 2 then add_chrome i st
       else if active_idx =? 3 then add_brave i st
       else st)
    else if (active_idx =? 1) && negb (nonempty (vivaldi_streams st))
      then (Some 1, add_vivaldi i st)
    else (None, st)
  else (None, st).

(** Body of the first loop (lines 263-328). *)
Definition first_pass_body (active_idx : Z) (active_pid : option string)
    (st : pass1) (s : stream) : W pass1 :=
  match s_id s with
  | None => ret st
  | Some i =>
    let binary := lower (get (s_binary s) "") in
    let app_name := lower (get (s_app_name s) "") in
    let stream_pid := get (s_pid s) "" in
    let '(stream_browser_idx, st1) :=
      attribute active_idx active_pid st i app_name binary stream_pid in
    match stream_browser_idx with
    | Some b =>
      let volume := if b =? active_idx then ACTIVE_VOL else INACTIVE_VOL in
      set_vol i volume ;;;
      ret (add_assigned i st1)
    | None => ret st1
    end
  end.

Definition first_pass (active_idx : Z) (active_pid : option string)
    (streams : list stream) (success : bool) : W pass1 :=
  for_each (first_pass_body active_idx active_pid) streams (pass1_init success).

(** Lines 336-344: with browser 1 active and no Vivaldi stream found, every
    stream the first loop left alone is raised. *)
Definition vivaldi_sweep_body (assigned : list string) (success : bool)
    (s : stream) : W bool :=
  match s_id s with
  | Some i =>
    if negb (mem i assigned) then set_vol i ACTIVE_VOL ;;; ret true
    else ret success
  | None => ret success
  end.

Definition vivaldi_sweep (active_idx : Z) (st : pass1) (streams : list stream)
    : W bool :=
  if (active_idx =? 1) && negb (nonempty (vivaldi_streams st)) && nonempty streams
  then for_each (vivaldi_sweep_body (browser_stream_ids st)) streams (success1 st)
  else ret (success1 st).

(** Lines 253-344: the block guarded by the window registry.  It returns
    [success] and, when it ran, the value bound to [active_pid]. *)
Definition first_attempt (browser_windows : list (option string))
    (active_idx : Z) (streams : list stream) (success : bool)
    : W (bool * option (option string) * option pass1) :=
  if active_idx <=? Z.of_nat (List.length browser_windows) then
    match py_getitem browser_windows (active_idx - 1) with
    | None => raise IndexError
    | Some w =>
      if truthy w then
        active_pid <- get_window_pid (get w "") ;;
        st <- first_pass active_idx active_pid streams success ;;
        success' <- vivaldi_sweep active_idx st streams ;;
        ret (success', Some active_pid, Some st)
      else ret (success, None, None)
    end
  else ret (success, None, None).

(** Body of the loop of lines 351-389. *)
Definition aggressive_body (active_idx : Z) (success : bool) (s : stream) : W bool :=
  match s_id s with
  | None => ret success
  | Some i =>
    let app_name := lower (get (s_app_name s) "") in
    let binary := lower (get (s_binary s) "") in
    if active_idx =? 1 then
      (if contains "vivaldi" app_name || contains "vivaldi" binary
       then set_vol i ACTIVE_VOL else set_vol i INACTIVE_VOL) ;;;
      ret true
    else if active_idx =? 2 then
      (if contains "chrome" app_name || contains "chrome" binary
       then set_vol i ACTIVE_VOL else set_vol i INACTIVE_VOL) ;;;
      ret true
    else if active_idx =? 3 then
      (if contains "brave" app_name || contains "brave" binary
       then set_vol i ACTIVE_VOL else set_vol i INACTIVE_VOL) ;;;
      ret true
    else ret success
  end.

(** Lines 347-389. *)
Definition aggressive (active_idx : Z) (streams : list stream) (success : bool)
    : W bool :=
  if negb success && nonempty streams
  then for_each (aggressive_body active_idx) streams success
  else ret success.

(** Lines 397-405: the streams that name Vivaldi. *)
Definition definite_vivaldi_body (vivaldi_found : bool) (s : stream) : W bool :=
  match s_id s with
  | Some i =>
    let app_name := lower (get (s_app_name s) "") in
    let binary := lower (get (s_binary s) "") in
    if contains "vivaldi" app_name || contains "vivaldi" binary
    then set_vol i ACTIVE_VOL ;;; ret true
    else ret vivaldi_found
  | None => ret vivaldi_found
  end.

(** Lines 409-413: the streams of the active window's process. *)
Definition pid_vivaldi_body (active_pid : option string) (vivaldi_found : bool)
    (s : stream) : W bool :=
  match s_id s with
  | Some i =>
    if py_eq (s_pid s) active_pid
    then set_vol i ACTIVE_VOL ;;; ret true
    else ret vivaldi_found
  | None => ret vivaldi_found
  end.

(** Lines 418-428: the first Chromium (or unbranded Chrome) stream. *)
Definition first_chromium_body (chromium_found : bool) (s : stream) : W bool :=
  match s_id s with
  | Some i =>
    let app_name := lower (get (s_app_name s) "") in
    if contains "chromium" app_name && negb chromium_found
    then set_vol i ACTIVE_VOL ;;; ret true
    else if contains "chrome" app_name && negb (contains "google" app_name)
            && negb chromium_found
    then set_vol i ACTIVE_VOL ;;; ret true
    else ret chromium_found
  | None => ret chromium_found
  end.

(** Lines 392-428.  [active_pid] is the local of that name: [None] when the
    guarded block of line 253 did not run and so never assigned it. *)
Definition last_resort (active_idx : Z) (active_pid : option (option string))
    (streams : list stream) : W unit :=
  if (active_idx =? 1) && nonempty streams then
    vivaldi_found <- for_each definite_vivaldi_body streams false ;;
    vivaldi_found <-
      (if negb vivaldi_found then
         pid <- read_local "active_pid" active_pid ;;
         if truthy pid
         then for_each (pid_vivaldi_body pid) streams vivaldi_found
         else ret vivaldi_found
       else ret vivaldi_found) ;;
    if negb vivaldi_found
    then for_each first_chromium_body streams false ;;; ret tt
    else ret tt
  else ret tt.

(** Lines 435-445: Chromium streams that are not Google Chrome go down,
    unless they belong to the active window's process. *)
Definition chromium_down_body (active_pid : option (option string)) (_ : unit)
    (s : stream) : W unit :=
  match s_id s with
  | Some i =>
    let app_name := lower (get (s_app_name s) "") in
    if contains "chromium" app_name && negb (contains "google chrome" app_name) then
      pid <- read_local "active_pid" active_pid ;;
      if negb (truthy pid && py_eq (s_pid s) pid)
      then set_vol i INACTIVE_VOL ;;; ret tt
      else ret tt
    else ret tt
  | None => ret tt
  end.

(** Lines 448-453: Google Chrome streams go up. *)
Definition chrome_up_body (_ : unit) (s : stream) : W unit :=
  match s_id s with
  | Some i =>
    let app_name := lower (get (s_app_name s) "") in
    if contains "google chrome" app_name
    then set_vol i ACTIVE_VOL ;;; ret tt
    else ret tt
  | None => ret tt
  end.

(** Lines 431-453. *)
Definition browser2_special (active_idx : Z) (active_pid : option (option string))
    (streams : list stream) : W unit :=
  if (active_idx =? 2) && nonempty streams then
    for_each (chromium_down_body active_pid) streams tt ;;;
    for_each chrome_up_body streams tt
  else ret tt.

(** [adjust_stream_volumes(active_idx, streams)], reading the global
    [browser_windows]. *)
Definition adjust_stream_volumes (browser_windows : list (option string))
    (active_idx : Z) (streams : list stream) : W bool :=
  r <- first_attempt browser_windows active_idx streams false ;;
  let '(success, active_pid, _) := r in
  success <- aggressive active_idx streams success ;;
  last_resort active_idx active_pid streams ;;;
  browser2_special active_idx active_pid streams ;;;
  ret success.

(* ------------------------------------------------------------------ *)
(** ** [adjust_microphone_streams] *)

(** [int(s)] on a [str]: blanks, an optional sign, decimal digits with
    single underscores between them, blanks.  The blanks are the white
    space of C and, of the characters from 128 on, those that are white
    space for [str]; a literal of more than 4300 digits is refused (the
    default of [sys.int_max_str_digits] since CPython 3.11). *)
Definition digit_value (c : ascii) : option Z :=
  let n := nat_of_ascii c in
  if (Nat.leb 48 n && Nat.leb n 57)%bool then Some (Z.of_nat (n - 48)) else None.

Definition int_space (c : ascii) : bool :=
  let n := nat_of_ascii c in
  ((Nat.leb 9 n && Nat.leb n 13) || Nat.eqb n 32 || Nat.eqb n 133 || Nat.eqb n 160)%bool.

Fixpoint int_blank (s : string) : bool :=
  match s with
  | EmptyString => true
  | String c r => int_space c && int_blank r
  end.

Fixpoint skip_int_space (s : string) : string :=
  match s with
  | String c r => if int_space c then skip_int_space r else s
  | EmptyString => EmptyString
  end.

(** The sign, if there is one, and what follows it. *)
Definition int_sign (s : string) : bool * string :=
  match s with
  | String c r =>
    if Ascii.eqb c "-" then (true, r)
    else if Ascii.eqb c "+" then (false, r)
    else (false, s)
  | EmptyString => (false, s)
  end.

(** The digits and what may follow them: [acc] is the value and [n] the
    number of the digits read, [prev] tells whether the character before
    was a digit. *)
Fixpoint int_digits (acc : Z) (n : Z) (prev : bool) (s : string) : option (Z * Z) :=
  match s with
  | EmptyString => if prev then Some (acc, n) else None
  | String c r =>
    match digit_value c with
    | Some d => int_digits (10 * acc + d) (n + 1) true r
    | None =>
      if Ascii.eqb c "_" then (if prev then int_digits acc n false r else None)
      else if prev && int_blank s then Some (acc, n) else None
    end
  end.

Definition int_max_str_digits : Z := 4300.

Definition py_int (s : string) : W Z :=
  let '(negative, body) := int_sign (skip_int_space s) in
  match int_digits 0 0 false body with
  | Some (v, n) =>
    if int_max_str_digits <? n then raise ValueError
    else ret (if negative then - v else v)
  | None => raise ValueError
  end.

(** The dict [browser_names] of [adjust_microphone_streams], in insertion
    order, after the rewrite made when browser 1 is active. *)
Definition mic_browser_names (active_idx : Z) : list (Z * list string) :=
  if active_idx =? 1 then
    [ (1, ["vivaldi"; "vivaldimail"] ++ ["chromium"]);
      (2, filter (fun name => negb (String.eqb name "chromium"))
                 ["chrome"; "google chrome"; "chromium"]);
      (3, ["brave"; "brave-browser"]) ]
  else
    [ (1, ["vivaldi"; "vivaldimail"]);
      (2, ["chrome"; "google chrome"; "chromium"]);
      (3, ["brave"; "brave-browser"]) ].

(** The inner loop with [break]: the first entry one of whose names occurs. *)
Fixpoint first_match (names : list (Z * list string)) (app_name binary : string)
    : option Z :=
  match names with
  | [] => None
  | (idx, name_list) :: r =>
    if any_name name_list app_name binary then Some idx
    else first_match r app_name binary
  end.

(** The locals of the microphone loop that outlive one iteration;
    [mic1], [mic2], [mic3] are [browser_mic_streams[1..3]]. *)
Record micst : Type := mkMic {
  mic1 : list string;
  mic2 : list string;
  mic3 : list string;
  chromium_streams : list string;
  vivaldi_chromium_streams : list string;
  mic_success : bool
}.

Definition mic_init : micst := mkMic [] [] [] [] [] false.

(** [browser_mic_streams[idx].append(sid)]; a key outside the dict is
    KeyError. *)
Definition mic_append (idx : Z) (sid : string) (st : micst) : W micst :=
  if idx =? 1 then
    ret (mkMic (mic1 st ++ [sid]) (mic2 st) (mic3 st) (chromium_streams st)
               (vivaldi_chromium_streams st) (mic_success st))
  else if idx =? 2 then
    ret (mkMic (mic1 st) (mic2 st ++ [sid]) (mic3 st) (chromium_streams st)
               (vivaldi_chromium_streams st) (mic_success st))
  else if idx =? 3 then
    ret (mkMic (mic1 st) (mic2 st) (mic3 st ++ [sid]) (chromium_streams st)
               (vivaldi_chromium_streams st) (mic_success st))
  else raise KeyError.

Definition add_chromium (sid : string) (st : micst) : micst :=
  mkMic (mic1 st) (mic2 st) (mic3 st) (chromium_streams st ++ [sid])
        (vivaldi_chromium_streams st) (mic_success st).

Definition add_vivaldi_chromium (sid : string) (st : micst) : micst :=
  mkMic (mic1 st) (mic2 st) (mic3 st) (chromium_streams st)
        (vivaldi_chromium_streams st ++ [sid]) (mic_success st).

Definition set_mic_success (st : micst) : micst :=
  mkMic (mic1 st) (mic2 st) (mic3 st) (chromium_streams st)
        (vivaldi_chromium_streams st) true.

(** Lines 577-582. *)
Definition vivaldi_by_distance (active_idx : Z) (vivaldi_pid chrome_pid : option string)
    (sid app_name pid : string) (st : micst) : W micst :=
  if (active_idx =? 2) && contains "chromium" app_name && truthy vivaldi_pid
     && truthy (Some pid) then
    if negb (truthy chrome_pid) then ret (add_vivaldi_chromium sid st)
    else
      p <- py_int pid ;;
      v <- py_int (get vivaldi_pid "") ;;
      p' <- py_int pid ;;
      c <- py_int (get chrome_pid "") ;;
      if Z.abs (p - v) <? Z.abs (p' - c) then ret (add_vivaldi_chromium sid st)
      else ret st
  else ret st.

(** Body of the loop of lines 567-623. *)
Definition mic_body (active_idx : Z) (active_pid vivaldi_pid chrome_pid : option string)
    (st : micst) (s : stream) : W micst :=
  if negb (truthy (s_id s)) then ret st
  else
    let sid := get (s_id s) "" in
    let app_name := lower (get (s_app_name s) "") in
    let binary := lower (get (s_binary s) "") in
    let pid := get (s_pid s) "" in
    st <- vivaldi_by_distance active_idx vivaldi_pid chrome_pid sid app_name pid st ;;
    let matched_idx := first_match (mic_browser_names active_idx) app_name binary in
    st <- match matched_idx with
          | Some idx => mic_append idx sid st
          | None => ret st
          end ;;
    let st := match matched_idx with
              | None => if contains "chromium" app_name then add_chromium sid st else st
              | Some _ => st
              end in
    r <- (if (active_idx =? 2) && contains "chromium input" (lower app_name)
          then st' <- mic_append 1 sid st ;; ret (Some 1, st')
          else ret (matched_idx, st)) ;;
    let '(matched_idx, st) := r in
    r <- (match matched_idx with
          | None =>
            if truthy active_pid && py_eq (Some pid) active_pid
            then st' <- mic_append active_idx sid st ;; ret (Some active_idx, st')
            else ret (matched_idx, st)
          | Some _ => ret (matched_idx, st)
          end) ;;
    let '(matched_idx, st) := r in
    match matched_idx with
    | Some m =>
      if m =? active_idx then set_mute sid false ;;; ret (set_mic_success st)
      else if (m =? 1) || (m =? 2) || (m =? 3)
      then set_mute sid true ;;; ret (set_mic_success st)
      else ret st
    | None => ret st
    end.

(** Lines 627-634: the loop leaves at its first iteration. *)
Definition mic_fallback (active_idx : Z) (st : micst) : W bool :=
  if (active_idx =? 1) && negb (nonempty (mic1 st)) && nonempty (chromium_streams st)
  then
    match chromium_streams st with
    | sid :: _ => set_mute sid false ;;; ret true
    | [] => ret (mic_success st)
    end
  else ret (mic_success st).

(** The window pid of registry slot [k] when that slot holds a window id. *)
Definition slot_pid (browser_windows : list (option string)) (k : nat)
    : W (option string) :=
  match nth_error browser_windows k with
  | Some w => if truthy w then get_window_pid (get w "") else ret None
  | None => ret None
  end.

(** Lines 539-558: [active_pid], [vivaldi_pid], [chrome_pid]. *)
Definition mic_pids (browser_windows : list (option string)) (active_idx : Z)
    : W (option string * option string * option string) :=
  active_pid <-
    (if active_idx <=? Z.of_nat (List.length browser_windows) then
       match py_getitem browser_windows (active_idx - 1) with
       | None => raise IndexError
       | Some w => if truthy w then get_window_pid (get w "") else ret None
       end
     else ret None) ;;
  if active_idx =? 2 then
    vivaldi_pid <- slot_pid browser_windows 0 ;;
    chrome_pid <- slot_pid browser_windows 1 ;;
    ret (active_pid, vivaldi_pid, chrome_pid)
  else ret (active_pid, None, None).

(** The main loop, from the pids on. *)
Definition mic_loop (browser_windows : list (option string)) (active_idx : Z)
    (streams : list stream) : W micst :=
  pids <- mic_pids browser_windows active_idx ;;
  let '(active_pid, vivaldi_pid, chrome_pid) := pids in
  for_each (mic_body active_idx active_pid vivaldi_pid chrome_pid) streams mic_init.

(** [adjust_microphone_streams(active_idx, streams)] *)
Definition adjust_microphone_streams (browser_windows : list (option string))
    (active_idx : Z) (streams : list stream) : W bool :=
  if negb (nonempty streams) then ret false
  else
    st <- mic_loop browser_windows active_idx streams ;;
    mic_fallback active_idx st.

End Program.

(* ------------------------------------------------------------------ *)
(** ** The dump parsers *)

(** White space for [str.strip], [str.split] and the class [\s]. *)
Definition is_space (c : ascii) : bool :=
  let n := nat_of_ascii c in
  ((Nat.leb 9 n && Nat.leb n 13) || (Nat.leb 28 n && Nat.leb n 32)
   || Nat.eqb n 133 || Nat.eqb n 160)%bool.

Definition is_digit (c : ascii) : bool :=
  let n := nat_of_ascii c in (Nat.leb 48 n && Nat.leb n 57)%bool.

(** The characters at which [splitlines] cuts, apart from the pair CR LF. *)
Definition is_linebreak (c : ascii) : bool :=
  let n := nat_of_ascii c in
  ((Nat.leb 10 n && Nat.leb n 13) || (Nat.leb 28 n && Nat.leb n 30)
   || Nat.eqb n 133)%bool.

Definition CR : ascii := ascii_of_nat 13.
Definition LF : ascii := ascii_of_nat 10.
Definition quote : ascii := ascii_of_nat 34.

(** [txt.splitlines()]; [cur] is the line being read. *)
Fixpoint splitlines_from (cur : string) (s : string) : list string :=
  match s with
  | EmptyString => match cur with EmptyString => [] | _ => [cur] end
  | String c r =>
    if Ascii.eqb c CR then
      match r with
      | String d r' =>
        if Ascii.eqb d LF then cur :: splitlines_from "" r'
        else cur :: splitlines_from "" r
      | EmptyString => [cur]
      end
    else if is_linebreak c then cur :: splitlines_from "" r
    else splitlines_from (cur ++ String c "") r
  end.

Definition splitlines (txt : string) : list string := splitlines_from "" txt.

Fixpoint lstrip (s : string) : string :=
  match s with
  | String c r => if is_space c then lstrip r else s
  | EmptyString => EmptyString
  end.

(** Drops trailing blanks: a character stays when something that is not
    blank follows it or it is not blank itself. *)
Fixpoint rstrip (s : string) : string :=
  match s with
  | EmptyString => EmptyString
  | String c r =>
    match rstrip r with
    | EmptyString => if is_space c then EmptyString else String c EmptyString
    | r' => String c r'
    end
  end.

(** [s.strip()] *)
Definition strip (s : string) : string := rstrip (lstrip s).

(** [s.split(sep)] for a one-character separator. *)
Fixpoint split_on (sep : ascii) (cur : string) (s : string) : list string :=
  match s with
  | EmptyString => [cur]
  | String c r =>
    if Ascii.eqb c sep then cur :: split_on sep "" r
    else split_on sep (cur ++ String c "") r
  end.

(** [line.split('#')[1].strip()] for a line that holds a hash sign. *)
Definition header_id (line : string) : string :=
  strip (nth 1 (split_on "#" "" line) "").

(** Removes the literal [p] from the front of [s]. *)
Fixpoint strip_prefix (p s : string) : option string :=
  match p, s with
  | EmptyString, _ => Some s
  | String a p', String b s' => if Ascii.eqb a b then strip_prefix p' s' else None
  | String _ _, EmptyString => None
  end.

(** The longest prefix of [s] whose characters satisfy [f], and the rest. *)
Fixpoint span (f : ascii -> bool) (s : string) : string * string :=
  match s with
  | String c r =>
    if f c then let '(a, b) := span f r in (String c a, b) else (EmptyString, s)
  | EmptyString => (EmptyString, EmptyString)
  end.

(** [\s+]: one blank or more, as many as there are. *)
Definition spaces1 (s : string) : option string :=
  match span is_space s with
  | (EmptyString, _) => None
  | (_, r) => Some r
  end.

Definition expect (c : ascii) (s : string) : option string :=
  match s with
  | String d r => if Ascii.eqb c d then Some r else None
  | EmptyString => None
  end.

(** The key, blanks, the equals sign, blanks and the opening quote matched
    at the front of [s]; what follows the quote. *)
Definition key_equals_quote (key s : string) : option string :=
  match strip_prefix key s with
  | None => None
  | Some r1 =>
    match spaces1 r1 with
    | None => None
    | Some r2 =>
      match expect "=" r2 with
      | None => None
      | Some r3 =>
        match spaces1 r3 with
        | None => None
        | Some r4 => expect quote r4
        end
      end
    end
  end.

(** A class repeated one or more times and then the closing quote, where
    the quote is not in the class: the group is the whole run. *)
Definition run_then_quote (f : ascii -> bool) (s : string) : option string :=
  match span f s with
  | (EmptyString, _) => None
  | (g, r) => match expect quote r with Some _ => Some g | None => None end
  end.

(** The group of non-slashes and the closing quote at the front of [s]:
    the quote belongs to the class, so the engine gives back characters
    until one is a quote; the group ends at the last quote of the run of
    non-slashes, and is not empty. *)
Fixpoint upto_last_quote (run : string) : option string :=
  match run with
  | EmptyString => None
  | String c r =>
    match upto_last_quote r with
    | Some g => Some (String c g)
    | None => if Ascii.eqb c quote then Some EmptyString else None
    end
  end.

Definition not_slash (c : ascii) : bool := negb (Ascii.eqb c "/").
Definition not_quote (c : ascii) : bool := negb (Ascii.eqb c quote).

Definition basename_then_quote (s : string) : option string :=
  match upto_last_quote (fst (span not_slash s)) with
  | Some EmptyString => None
  | o => o
  end.

(** The lazy any-characters, the slash, the group and the closing quote at
    the front of [s]: the lazy part stops at the first slash after which the
    rest matches; the dot is any character but LF. *)
Fixpoint lazy_slash_basename (s : string) : option string :=
  match s with
  | EmptyString => None
  | String c r =>
    match (if Ascii.eqb c "/" then basename_then_quote r else None) with
    | Some g => Some g
    | None => if Ascii.eqb c LF then None else lazy_slash_basename r
    end
  end.

(** [pattern.search(line)]: the match at the leftmost position that has
    one; [at_front] is the pattern anchored at the front. *)
Fixpoint search (at_front : string -> option string) (line : string) : option string :=
  match at_front line with
  | Some g => Some g
  | None =>
    match line with
    | EmptyString => None
    | String _ r => search at_front r
    end
  end.

(** The group captured by one anchored pattern. *)
Definition anchored (key : string) (value : string -> option string) (s : string)
    : option string :=
  match key_equals_quote key s with
  | Some r => value r
  | None => None
  end.

(** [PAT_APP_PROCESS.search(line)], group 1. *)
Definition PAT_APP_PROCESS : string -> option string :=
  search (anchored "application.process.binary" lazy_slash_basename).
(** [PAT_APP_NAME.search(line)], group 1. *)
Definition PAT_APP_NAME : string -> option string :=
  search (anchored "application.name" (run_then_quote not_quote)).
(** [PAT_MEDIA_NAME.search(line)], group 1. *)
Definition PAT_MEDIA_NAME : string -> option string :=
  search (anchored "media.name" (run_then_quote not_quote)).
(** [PAT_APP_PID.search(line)], group 1. *)
Definition PAT_APP_PID : string -> option string :=
  search (anchored "application.process.id" (run_then_quote is_digit)).

Definition set_id (v : string) (d : stream) : stream :=
  mkStream (Some v) (s_app_name d) (s_binary d) (s_media_name d) (s_pid d).
Definition set_app_name (v : string) (d : stream) : stream :=
  mkStream (s_id d) (Some v) (s_binary d) (s_media_name d) (s_pid d).
Definition set_binary (v : string) (d : stream) : stream :=
  mkStream (s_id d) (s_app_name d) (Some v) (s_media_name d) (s_pid d).
Definition set_media_name (v : string) (d : stream) : stream :=
  mkStream (s_id d) (s_app_name d) (s_binary d) (Some v) (s_pid d).
Definition set_pid (v : string) (d : stream) : stream :=
  mkStream (s_id d) (s_app_name d) (s_binary d) (s_media_name d) (Some v).

(** [d[key] = m.group(1)] when the pattern matched. *)
Definition store (set : string -> stream -> stream) (m : option string)
    (d : stream) : stream :=
  match m with Some v => set v d | None => d end.

(** The [elif] branches below the header test; [media] tells whether the
    parser has the [media.name] branch (the playback one does). *)
Definition property_line (media : bool) (line : string) (current : stream) : stream :=
  if contains "application.name" line && contains "=" line
  then store set_app_name (PAT_APP_NAME line) current
  else if contains "application.process.binary" line
  then store set_binary (PAT_APP_PROCESS line) current
  else if media && contains "media.name" line
  then store set_media_name (PAT_MEDIA_NAME line) current
  else if contains "application.process.id" line
  then store set_pid (PAT_APP_PID line) current
  else current.

(** [if current and 'id' in current: streams.append(current)] *)
Definition flush (streams : list stream) (current : stream) : list stream :=
  match s_id current with
  | Some _ => streams ++ [current]
  | None => streams
  end.

(** One iteration of the loop over lines; the state is
    [(streams, current)]. *)
Definition parse_line (header : string) (media : bool)
    (st : list stream * stream) (raw : string) : list stream * stream :=
  let '(streams, current) := st in
  let line := strip raw in
  if startswith header line
  then (flush streams current, set_id (header_id line) empty_stream)
  else (streams, property_line media line current).

(** The loop and the final append. *)
Definition parse_dump (header : string) (media : bool) (txt : string) : list stream :=
  let '(streams, current) :=
    fold_left (parse_line header media) (splitlines txt) ([], empty_stream) in
  flush streams current.

Section Inventory.

Variable E : env.

(** [list_audio_streams()] *)
Definition list_audio_streams : W (list stream) :=
  emit DumpPlayback ;;;
  ret (parse_dump "Sink Input #" true (playback_dump E)).

(** [list_microphone_streams()] *)
Definition list_microphone_streams : W (list stream) :=
  emit DumpCapture ;;;
  let txt := capture_dump E in
  match txt with
  | EmptyString => ret []
  | _ => ret (parse_dump "Source Output #" false txt)
  end.

End Inventory.

(* ------------------------------------------------------------------ *)
(** ** The registry, [Browser.focus] and [Switcher.activate] *)

(** The fields of a [Browser] object that [focus] reads or writes. *)
Record Browser : Type := mkBrowser {
  idx : Z;
  title : string;
  exe_name : string;
  pid : option string;
  window_id : option string
}.

(** The two globals: the list [browsers] and the list [browser_windows]. *)
Record registry : Type := mkRegistry {
  browsers : list Browser;
  browser_windows : list (option string)
}.

Definition with_window (b : Browser) (w : string) : Browser :=
  mkBrowser (idx b) (title b) (exe_name b) (pid b) (Some w).

(** [l[i] = v] with Python's negative indices; [None] stands for
    IndexError. *)
Definition py_setitem (A : Type) (l : list A) (i : Z) (v : A) : option (list A) :=
  let n := Z.of_nat (List.length l) in
  if (0 <=? i) && (i <? n) then Some (set_nth l (Z.to_nat i) v)
  else if (- n <=? i) && (i <? 0) then Some (set_nth l (Z.to_nat (n + i)) v)
  else None.

(** A method that also mutates objects: the state [St] is threaded, and
    what was written before an exception stays written. *)
Definition ST (St A : Type) : Type := St -> St * W A.

Definition retS (St A : Type) (a : A) : ST St A := fun s => (s, ret a).
Arguments retS {St A} a.

Definition bindS (St A B : Type) (m : ST St A) (f : A -> ST St B) : ST St B :=
  fun s =>
    match m s with
    | (s1, (t, Ok a)) => let '(s2, (t', r)) := f a s1 in (s2, (t ++ t', r))
    | (s1, (t, Raise e)) => (s1, (t, Raise e))
    end.

Definition lift (St A : Type) (m : W A) : ST St A := fun s => (s, m).
Arguments lift {St A} m.

Definition getS (St : Type) : ST St St := fun s => (s, ret s).
Arguments getS {St}.

Definition putS (St : Type) (s' : St) : ST St unit := fun _ => (s', ret tt).

Declare Scope st_scope.
Delimit Scope st_scope with st.
Notation "x <- m ;; k" := (bindS m (fun x => k))
  (at level 61, m at next level, right associativity) : st_scope.
Notation "m ;;; k" := (bindS m (fun _ => k))
  (at level 61, right associativity) : st_scope.

(** The state a method of a [Browser] works on: the object and the global
    list of window ids. *)
Definition fstate : Type := (Browser * list (option string))%type.

(** [browsers[k].method()]: the method runs on the object in slot [k] and
    on [browser_windows]. *)
Definition on_browser (A : Type) (k : Z) (m : ST fstate A) : ST registry A :=
  fun reg =>
    match py_getitem (browsers reg) k with
    | None => (reg, raise IndexError)
    | Some b =>
      let '((b', bw'), r) := m (b, browser_windows reg) in
      match py_setitem (browsers reg) k b' with
      | Some bs' => (mkRegistry bs' bw', r)
      | None => (reg, r)
      end
    end.

Section Switcher.

Variable E : env.

(** [focus_window_by_id(window_id)] *)
Definition focus_window_by_id (w : option string) : W bool :=
  if negb (truthy w) then ret false
  else emit (FocusById (get w "")) ;;; ret (focus_ok E (get w "")).

(** [find_window_by_pid(pid)]: an exception of [run] leaves it. *)
Definition find_window_by_pid (p : string) : W (option string) :=
  emit (FindByPid p) ;;; answer (window_by_pid E p).

(** [find_window_by_class(class_hint)] *)
Definition find_window_by_class (hint : string) : W (option string) :=
  emit (FindByClass hint) ;;; ret (window_by_class E hint).

(** [subprocess.call(['wmctrl', '-a', self.title]) == 0] *)
Definition focus_by_title (t : string) : W bool :=
  emit (FocusByTitle t) ;;; ret (title_ok E t).

Local Open Scope st_scope.

(** The two assignments of lines 767-768 (and 777-778):
    [self.window_id = window_id; browser_windows[self.idx-1] = window_id]. *)
Definition record_window (w : string) : ST fstate unit :=
  st <- getS ;;
  let '(b, bw) := st in
  putS (with_window b w, bw) ;;;
  match py_setitem bw (idx b - 1) (Some w) with
  | Some bw' => putS (with_window b w, bw')
  | None => lift (raise IndexError)
  end.

(** Lines 766-771 (and 776-781): a window id that was found is recorded and
    focused; the answer tells whether the method returns [True] here. *)
Definition found_window (found : option string) : ST fstate bool :=
  if truthy found
  then record_window (get found "") ;;; lift (focus_window_by_id found)
  else retS false.

(** Strategy 3 (lines 764-771): the window of the process. *)
Definition strategy_pid : ST fstate bool :=
  st <- getS ;;
  let b := fst st in
  if truthy (pid b)
  then w <- lift (find_window_by_pid (get (pid b) "")) ;; found_window w
  else retS false.

(** Strategy 4 (lines 774-781): for Brave, the window of that class. *)
Definition strategy_brave : ST fstate bool :=
  st <- getS ;;
  let b := fst st in
  if mem (lower (exe_name b)) ["brave"; "brave-browser"]
  then w <- lift (find_window_by_class "Brave") ;; found_window w
  else retS false.

(** Strategy 5 and the final [return False] (lines 784-793): the call of
    [xdotool] is recorded; when it raises, the handler passes and the method
    returns [False]. *)
Definition strategy_xdotool : ST fstate bool :=
  st <- getS ;;
  let b := fst st in
  if truthy (window_id b)
  then lift (emit (Xdotool (get (window_id b) ""))) ;;;
       (if xdotool_ok E (get (window_id b) "") then retS true else retS false)
  else retS false.

(** [Browser.focus(self)] *)
Definition focus : ST fstate bool :=
  lift (emit ListWindows) ;;;
  st <- getS ;;
  let b := fst st in
  done <- lift (focus_window_by_id (window_id b)) ;;
  if done then retS true else
  done <- lift (focus_by_title (title b)) ;;
  if done then retS true else
  done <- strategy_pid ;;
  if done then retS true else
  done <- strategy_brave ;;
  if done then retS true else
  strategy_xdotool.

Local Close Scope st_scope.

(** The part of [activate] after the focus (lines 829-845). *)
Definition switch_audio (bw : list (option string)) (num : Z) : W bool :=
  streams <- list_audio_streams E ;;
  (if nonempty streams then
     adjust_stream_volumes E bw num streams ;;;
     mic_streams <- list_microphone_streams E ;;
     if nonempty mic_streams
     then adjust_microphone_streams E bw num mic_streams ;;; ret tt
     else ret tt
   else ret tt) ;;;
  if nonempty streams then ret true else ret false.

Local Open Scope st_scope.

(** [Switcher.activate(self, num)] on the globals. *)
Definition activate (num : Z) : ST registry bool :=
  if negb ((1 <=? num) && (num <=? 3)) then retS false
  else
    on_browser (num - 1) focus ;;;
    reg <- getS ;;
    lift (switch_audio (browser_windows reg) num).

Local Close Scope st_scope.

End Switcher.

(* ------------------------------------------------------------------ *)
(** ** Vocabulary of the statements *)

(** The aliases of the three managed browsers. *)
Definition all_aliases : list string :=
  browser_names 1 ++ browser_names 2 ++ browser_names 3.

(** The stream names no managed browser, in its application name or its
    binary. *)
Definition anonymous (s : stream) : bool :=
  negb (any_name all_aliases (lower (get (s_app_name s) "")) (lower (get (s_binary s) ""))).

(** The stream is anonymous and does not carry the pid of the active
    window. *)
Definition unrecognised (active_pid : option string) (s : stream) : bool :=
  anonymous s && negb (truthy active_pid && py_eq (s_pid s) active_pid).

(** No volume is set on the stream id [i] in the trace [t]. *)
Definition untouched (i : string) (t : list event) : Prop :=
  forall p, ~ In (SetVol i p) t.

(** The event sets the volume of the stream id [i]. *)
Definition sets_volume_of (i : string) (e : event) : bool :=
  match e with
  | SetVol j _ => String.eqb j i
  | _ => false
  end.

(** How many times the trace sets the volume of [i]. *)
Definition volume_sets (i : string) (t : list event) : nat :=
  List.length (filter (sets_volume_of i) t).

(** How many streams of the inventory carry the id [i]. *)
Definition carriers (i : string) (streams : list stream) : nat :=
  List.length (filter (fun s => py_eq (s_id s) (Some i)) streams).

(** The stream id [i] is set to the active level and to the inactive level
    in one trace. *)
Definition conflicting (i : string) (t : list event) : Prop :=
  In (SetVol i ACTIVE_VOL) t /\ In (SetVol i INACTIVE_VOL) t.

(** The attribution as it is applied: the volume and mute calls of a trace. *)
Definition applied (t : list event) : list event :=
  filter (fun e => match e with
                   | SetVol _ _ | SetMute _ _ => true
                   | _ => false
                   end) t.

(** The pid [get_window_pid] answers for the window of the active browser,
    when the registry holds one. *)
Definition active_window_pid (E : env) (bw : list (option string)) (active_idx : Z)
    : option string :=
  match py_getitem bw (active_idx - 1) with
  | Some (Some w) => if truthy (Some w) then window_pid E w else None
  | _ => None
  end.

(** Every unrecognised stream of the inventory is left without a volume
    call by one run of the playback routine. *)
Definition unrecognised_left_alone (E : env) (bw : list (option string))
    (active_idx : Z) (streams : list stream) : Prop :=
  forall s i, In s streams -> s_id s = Some i ->
    unrecognised (active_window_pid E bw active_idx) s = true ->
    untouched i (trace_of (adjust_stream_volumes E bw active_idx streams)).

(** The per-browser lists as one run of the playback routine builds them;
    [None] when the block guarded by the registry does not run. *)
Definition attribution (E : env) (bw : list (option string)) (active_idx : Z)
    (streams : list stream) : option pass1 :=
  match result_of (first_attempt E bw active_idx streams false) with
  | Ok (_, _, o) => o
  | Raise _ => None
  end.

(** The stream ids the first loop gives to browser [b]. *)
Definition given_to (E : env) (bw : list (option string)) (active_idx : Z)
    (streams : list stream) (b : Z) : list string :=
  match attribution E bw active_idx streams with
  | Some st =>
    if b =? 1 then vivaldi_streams st
    else if b =? 2 then chrome_streams st
    else if b =? 3 then brave_streams st
    else []
  | None => []
  end.

(** No stream id given to a browser other than the active one is also
    raised to the active level in the same run. *)
Definition single_assignment (E : env) (bw : list (option string)) (active_idx : Z)
    (streams : list stream) : Prop :=
  forall i b, b <> active_idx ->
    In i (given_to E bw active_idx streams b) ->
    ~ In (SetVol i ACTIVE_VOL) (trace_of (adjust_stream_volumes E bw active_idx streams)).

(** How many times [i] occurs in a list of stream ids. *)
Definition occurrences (i : string) (l : list string) : nat :=
  count_occ string_dec l i.

(** The application name is the generic engine name. *)
Definition generic (s : stream) : Prop :=
  lower (get (s_app_name s) "") = "chromium".

(** What an anonymous stream answers to every test of a name the routine
    makes. *)
Record no_names (a b : string) : Prop := mkNoNames {
  nn_1 : any_name (browser_names 1) a b = false;
  nn_2 : any_name (browser_names 2) a b = false;
  nn_3 : any_name (browser_names 3) a b = false;
  nn_vivaldi_a : contains "vivaldi" a = false;
  nn_vivaldi_b : contains "vivaldi" b = false;
  nn_chrome_a : contains "chrome" a = false;
  nn_chrome_b : contains "chrome" b = false;
  nn_chromium_a : contains "chromium" a = false;
  nn_chromium_b : contains "chromium" b = false;
  nn_brave_a : contains "brave" a = false;
  nn_brave_b : contains "brave" b = false;
  nn_google_chrome_a : contains "google chrome" a = false
}.

(** An event that is not a volume call on [i]. *)
Definition spares (i : string) (e : event) : Prop := forall p, e <> SetVol i p.

(** The computation returns: no exception escapes it. *)
Definition returns (A : Type) (m : W A) : Prop := exists t a, m = (t, Ok a).

(** The stream names Vivaldi, in its application name or its binary. *)
Definition names_vivaldi (s : stream) : bool :=
  any_name (browser_names 1) (lower (get (s_app_name s) "")) (lower (get (s_binary s) "")).

(** How many times [i] occurs in the three per-browser lists together. *)
Definition attributed (i : string) (st : pass1) : nat :=
  (occurrences i (vivaldi_streams st) + occurrences i (chrome_streams st)
   + occurrences i (brave_streams st))%nat.

(** One if the stream carries the id [i], zero otherwise. *)
Definition carries (i : string) (s : stream) : nat :=
  if py_eq (s_id s) (Some i) then 1%nat else 0%nat.

(** The state after the two assignments of [record_window], when the slot
    exists. *)
Definition recorded (st : fstate) (w : string) : fstate :=
  (with_window (fst st) w,
   set_nth (snd st) (Z.to_nat (idx (fst st) - 1)) (Some w)).

(** The browser's slot exists in the global list. *)
Definition in_range (st : fstate) : Prop :=
  0 <= idx (fst st) - 1 < Z.of_nat (List.length (snd st)).

(** The state a method leaves, its trace and its outcome. *)
Definition state_of (St A : Type) (r : St * W A) : St := fst r.
Definition calls_of (St A : Type) (r : St * W A) : list event := fst (snd r).
Definition outcome_of (St A : Type) (r : St * W A) : outcome A := snd (snd r).

(** The answer of strategy 3 (lines 764-765): the search is made for a
    browser that has a pid. *)
Definition pid_search (E : env) (b : Browser) : outcome (option string) :=
  if truthy (pid b) then window_by_pid E (get (pid b) "") else Ok None.

(** The recorded window or the title takes the focus (strategies 1 and 2). *)
Definition focused_early (E : env) (b : Browser) : bool :=
  (truthy (window_id b) && focus_ok E (get (window_id b) ""))
  || title_ok E (title b).

(** The state [focus] leaves behind, read off the answers of the desktop:
    nothing is written when the recorded window or the title can be
    focused, or when the search by pid raises; otherwise the window found
    for the pid is recorded, and for Brave, unless that window took the
    focus, the window found by class over it. *)
Definition settled (E : env) (st : fstate) : fstate :=
  let b := fst st in
  let by_class := window_by_class E "Brave" in
  let class_found :=
    mem (lower (exe_name b)) ["brave"; "brave-browser"] && truthy by_class in
  if focused_early E b then st
  else
    match pid_search E b with
    | Raise _ => st
    | Ok by_pid =>
      if truthy by_pid && focus_ok E (get by_pid "") then recorded st (get by_pid "")
      else if class_found then recorded st (get by_class "")
      else if truthy by_pid then recorded st (get by_pid "")
      else st
    end.

(** The exception that leaves [focus], if one does: that of the search by
    pid, when neither the recorded window nor the title took the focus. *)
Definition focus_raises (E : env) (st : fstate) : option exn :=
  if focused_early E (fst st) then None
  else match pid_search E (fst st) with
       | Raise e => Some e
       | Ok _ => None
       end.

(** What [activate] does once [focus] is over. *)
Definition after_focus (E : env) (st : fstate) (num : Z) : W bool :=
  match focus_raises E st with
  | Some e => raise e
  | None => switch_audio E (snd (settled E st)) num
  end.

(** How [focus] ends: with the exception of the search by pid when there
    is one, with an answer otherwise. *)
Definition ends_as (E : env) (st : fstate) (r : outcome bool) : Prop :=
  match focus_raises E st with
  | Some e => r = Raise e
  | None => exists a, r = Ok a
  end.



(** The lines of a dump as the loop sees them. *)
Definition stripped_lines (txt : string) : list string := map strip (splitlines txt).

(** The block structure of a dump: the lines before the first header, then
    each header line with the lines up to the next header. *)
Fixpoint blocks (header : string) (lines : list string)
    : list string * list (string * list string) :=
  match lines with
  | [] => ([], [])
  | l :: r =>
    let '(pre, bs) := blocks header r in
    if startswith header l then ([], (l, pre) :: bs) else (l :: pre, bs)
  end.

(** The lines of a block read into the record that its header opens. *)
Definition read_properties (media : bool) (body : list string) (d : stream) : stream :=
  fold_left (fun current line => property_line media line current) body d.

(** The record of one block. *)
Definition record_of_block (media : bool) (blk : string * list string) : stream :=
  read_properties media (snd blk) (set_id (header_id (fst blk)) empty_stream).




(** Where the optional fields of a block's record come from. *)
Definition fields_from_lines (media : bool) : Prop :=
  forall h body,
    let r := record_of_block media (h, body) in
    (forall v, s_app_name r = Some v ->
       exists line, In line body /\ contains "application.name" line = true /\
                    PAT_APP_NAME line = Some v) /\
    (forall v, s_binary r = Some v ->
       exists line, In line body /\ contains "application.process.binary" line = true /\
                    PAT_APP_PROCESS line = Some v) /\
    (forall v, s_pid r = Some v ->
       exists line, In line body /\ contains "application.process.id" line = true /\
                    PAT_APP_PID line = Some v).



(** The event is not a call on a capture stream. *)
Definition not_capture (e : event) : Prop :=
  match e with
  | SetMute _ _ => False
  | _ => True
  end.

(** The registry [Switcher.__init__] builds: three browsers numbered 1, 2, 3
    and three window slots. *)
Definition wf_registry (reg : registry) : Prop :=
  map idx (browsers reg) = [1; 2; 3] /\ List.length (browser_windows reg) = 3%nat.

(* ------------------------------------------------------------------ *)
(** ** Worked inputs *)

Definition quiet_env : env :=
  mkEnv "" "" (fun _ => None) (fun _ => false) (fun _ => false)
        (fun _ => Ok None) (fun _ => None) (fun _ => true)
        (fun _ _ => true) (fun _ _ => true).

Definition named (i app : string) : stream :=
  mkStream (Some i) (Some app) None None None.

(** The registry after the three launches found their windows. *)
Definition launched : registry :=
  mkRegistry
    [ mkBrowser 1 "Browser 1" "vivaldi-stable" (Some "100") (Some "0x1");
      mkBrowser 2 "Browser 2" "google-chrome" (Some "200") (Some "0x2");
      mkBrowser 3 "Browser 3" "brave-browser" (Some "300") (Some "0x3") ]
    [Some "0x1"; Some "0x2"; Some "0x3"].

(** The registry when no browser could be started: [launch] returned at its
    first test and wrote nothing. *)
Definition not_launched : registry :=
  mkRegistry
    [ mkBrowser 1 "Browser 1" "vivaldi-stable" None None;
      mkBrowser 2 "Browser 2" "google-chrome" None None;
      mkBrowser 3 "Browser 3" "brave-browser" None None ]
    [None; None; None].

Definition q : string := String quote "".
Definition TAB : string := String (ascii_of_nat 9) "".
Definition NL : string := String LF "".

Definition sample_dump : string :=
  "Sink Input #12" ++ NL ++
  TAB ++ "Driver: protocol-native.c" ++ NL ++
  TAB ++ "Properties:" ++ NL ++
  TAB ++ TAB ++ "media.name = " ++ q ++ "Playback" ++ q ++ NL ++
  TAB ++ TAB ++ "application.name = " ++ q ++ "Vivaldi" ++ q ++ NL ++
  TAB ++ TAB ++ "application.process.id = " ++ q ++ "4242" ++ q ++ NL ++
  TAB ++ TAB ++ "application.process.binary = " ++ q ++ "/opt/vivaldi/vivaldi-bin" ++ q ++ NL ++
  "Sink Input #13" ++ NL ++
  TAB ++ TAB ++ "application.name = " ++ q ++ "Chromium" ++ q ++ NL.


(** One playback stream of another application. *)
Definition firefox_dump : string :=
  "Sink Input #5" ++ NL ++
  TAB ++ TAB ++ "application.name = " ++ q ++ "Firefox" ++ q ++ NL.

(** A desktop where only another application plays and no window of ours
    can be focused. *)
Definition firefox_env : env :=
  mkEnv firefox_dump "" (fun _ => None) (fun _ => false) (fun _ => false)
        (fun _ => Ok None) (fun _ => None) (fun _ => true)
        (fun _ _ => true) (fun _ _ => true).

(** A desktop where the window recorded for browser 1 is gone, and a new
    window of its process exists. *)
Definition moved_env : env :=
  mkEnv sample_dump "" (fun _ => None) (fun _ => false) (fun _ => false)
        (fun p => if String.eqb p "100" then Ok (Some "0x9") else Ok None)
        (fun _ => None) (fun _ => true) (fun _ _ => true) (fun _ _ => true).

(** The window ids, the pids and the global list are what they were before
    the activation. *)
Definition registry_unchanged (E : env) (num : Z) (reg : registry) : Prop :=
  let reg' := fst (activate E num reg) in
  map window_id (browsers reg') = map window_id (browsers reg) /\
  map pid (browsers reg') = map pid (browsers reg) /\
  browser_windows reg' = browser_windows reg.
(* ------------------------------------------------------------------ *)
(** ** Further vocabulary: what the routines record and return *)

(** The dict has the key ['id']. *)
Definition has_id (s : stream) : bool :=
  match s_id s with Some _ => true | None => false end.

(** A call the playback routine may make on the inventory [streams]: the
    pid query, or a volume call at one of the two levels on the id of one of
    the streams. *)
Definition playback_call (streams : list stream) (e : event) : Prop :=
  (exists w, e = GetWindowPid w) \/
  exists s i p, In s streams /\ s_id s = Some i /\ e = SetVol i p /\
                (p = ACTIVE_VOL \/ p = INACTIVE_VOL).

(** The trace holds a volume call. *)
Definition sets_a_volume (t : list event) : Prop :=
  exists i p, In (SetVol i p) t.

(** The test of lines 402 on a stream with an id: it names Vivaldi. *)
Definition definite_vivaldi (s : stream) : bool :=
  has_id s
  && (contains "vivaldi" (lower (get (s_app_name s) ""))
      || contains "vivaldi" (lower (get (s_binary s) ""))).

(** The test of line 441 on a stream with an id: a Chromium stream that is
    not Google Chrome. *)
Definition chromium_not_chrome (s : stream) : bool :=
  has_id s
  && contains "chromium" (lower (get (s_app_name s) ""))
  && negb (contains "google chrome" (lower (get (s_app_name s) ""))).

(** The slot of the active browser holds no window id. *)
Definition empty_slot (bw : list (option string)) (active_idx : Z) : Prop :=
  exists w, py_getitem bw (active_idx - 1) = Some w /\ truthy w = false.

(** A call the capture routine may make on the inventory [streams]: a pid
    query, or a mute call on the non-empty id of one of the streams. *)
Definition capture_call (streams : list stream) (e : event) : Prop :=
  (exists w, e = GetWindowPid w) \/
  exists s sid m, In s streams /\ s_id s = Some sid /\ sid <> "" /\
                  e = SetMute sid m.

(** The trace holds a mute call. *)
Definition sets_a_mute (t : list event) : Prop :=
  exists sid m, In (SetMute sid m) t.

(** The locals a step of the capture loop leaves alone. *)
Definition same_marks (st st' : micst) : Prop :=
  chromium_streams st' = chromium_streams st /\ mic_success st' = mic_success st.

(** The ids kept for the fallback are non-empty ids of the inventory. *)
Definition candidates_in (streams : list stream) (st : micst) : Prop :=
  forall sid, In sid (chromium_streams st) ->
    exists s, In s streams /\ s_id s = Some sid /\ sid <> "".

(** The string is made of decimal digits only. *)
Fixpoint all_digits (s : string) : bool :=
  match s with
  | EmptyString => true
  | String c r => is_digit c && all_digits r
  end.

(** A non-empty string of decimal digits: what a [(\d+)] group captures. *)
Definition decimal (s : string) : bool :=
  match s with
  | EmptyString => false
  | _ => all_digits s
  end.

(** An optional pid, when present, is decimal. *)
Definition decimal_pid (o : option string) : Prop :=
  forall p, o = Some p -> decimal p = true.

(** Every pid the desktop answers for a window is decimal. *)
Definition decimal_window_pids (E : env) : Prop :=
  forall w, decimal_pid (window_pid E w).

(** Every pid carried by a stream of the inventory is decimal. *)
Definition decimal_stream_pids (streams : list stream) : Prop :=
  forall s, In s streams -> decimal_pid (s_pid s).

(** A string [int] converts as the pid it is read for: decimal, of no more
    digits than [int] accepts. *)
Definition converts (s : string) : Prop :=
  decimal s = true /\ Z.of_nat (String.length s) <= int_max_str_digits.

Definition converting_pid (o : option string) : Prop :=
  forall p, o = Some p -> converts p.

(** Every pid the desktop answers for a window converts. *)
Definition converting_window_pids (E : env) : Prop :=
  forall w, converting_pid (window_pid E w).

(** Every pid carried by a stream of the inventory converts. *)
Definition converting_stream_pids (streams : list stream) : Prop :=
  forall s, In s streams -> converting_pid (s_pid s).

(** An optional pid, when present, has no more digits than [int] accepts. *)
Definition short_pid (o : option string) : Prop :=
  forall p, o = Some p -> Z.of_nat (String.length p) <= int_max_str_digits.

(** Every character of the string satisfies [f]. *)
Fixpoint every (f : ascii -> bool) (s : string) : bool :=
  match s with
  | EmptyString => true
  | String c r => f c && every f r
  end.

(** The shape of the optional fields of a parsed record: the pid is
    decimal, the binary is a non-empty name without a slash, the application
    name is not empty and holds no double quote. *)
Definition well_shaped (r : stream) : Prop :=
  decimal_pid (s_pid r) /\
  (forall b, s_binary r = Some b -> b <> "" /\ every not_slash b = true) /\
  (forall n, s_app_name r = Some n -> n <> "" /\ every not_quote n = true).

(** One digit or more at the front of [s], as many as there are. *)
Definition digits1 (s : string) : option string :=
  match span is_digit s with
  | (EmptyString, _) => None
  | (g, _) => Some g
  end.

(** The search of line 217 in the output of [xprop], group 1: the literal
    text and then the digits. *)
Definition NET_WM_PID (output : string) : option string :=
  search (fun s => match strip_prefix "_NET_WM_PID(CARDINAL) = " s with
                   | Some r => digits1 r
                   | None => None
                   end) output.

(** The capture dump of one Chromium stream of process 4242. *)
Definition chromium_capture_dump : string :=
  "Source Output #7" ++ NL ++
  TAB ++ TAB ++ "application.name = " ++ q ++ "Chromium input" ++ q ++ NL ++
  TAB ++ TAB ++ "application.process.id = " ++ q ++ "4242" ++ q ++ NL.

(** A desktop where the windows of browsers 1 and 2 are those of the
    processes 100 and 200, a Chromium stream records, and every recorded
    window takes the focus. *)
Definition chromium_env : env :=
  mkEnv sample_dump chromium_capture_dump
        (fun w => if String.eqb w "0x1" then Some "100"
                  else if String.eqb w "0x2" then Some "200" else None)
        (fun _ => true) (fun _ => false) (fun _ => Ok None) (fun _ => None)
        (fun _ => true) (fun _ _ => true) (fun _ _ => true).

(** The search by pid answers: [run] raises nothing. *)
Definition pid_search_answers (E : env) : Prop :=
  forall p, exists o, window_by_pid E p = Ok o.

(** A desktop where no window can be focused and [xdotool] is not
    installed. *)
Definition bare_env : env :=
  mkEnv "" "" (fun _ => None) (fun _ => false) (fun _ => false)
        (fun _ => Ok None) (fun _ => None) (fun _ => false)
        (fun _ _ => true) (fun _ _ => true).

(** The desktop [E] where [get_window_pid] reads its answer from what
    [xprop] prints for the window. *)
Definition with_xprop (E : env) (xprop : string -> string) : env :=
  mkEnv (playback_dump E) (capture_dump E)
        (fun w => NET_WM_PID (xprop w))
        (focus_ok E) (title_ok E) (window_by_pid E) (window_by_class E)
        (xdotool_ok E) (vol_ok E) (mute_ok E).


(* ------------------------------------------------------------------ *)
(** ** The registry between calls *)

(** Every browser's [window_id] is what the global list holds in its slot:
    the two are written together (lines 701-702, 767-768, 777-778). *)
Definition synced (reg : registry) : Prop :=
  map window_id (browsers reg) = browser_windows reg.

(* ------------------------------------------------------------------ *)
(** ** The window directory, on the text the commands print *)

Definition not_dot (c : ascii) : bool := negb (Ascii.eqb c ".").
Definition not_blank (c : ascii) : bool := negb (is_space c).

(** [os.path.basename(p)]: what follows the last slash. *)
Fixpoint basename (p : string) : string :=
  match p with
  | EmptyString => EmptyString
  | String c r =>
    if contains "/" r then basename r
    else if Ascii.eqb c "/" then r else p
  end.

(** [get_browser_executable_name(browser_path)] *)
Definition get_browser_executable_name (browser_path : string) : string :=
  let base := basename browser_path in
  if contains "." base then nth 0 (split_on "." "" base) "" else base.

(** A field of a line: not empty and without a blank. *)
Definition token (w : string) : Prop := w <> "" /\ every not_blank w = true.

Module Text.

(** [line.split()]: the maximal runs of characters that are not blank;
    [cur] is the run being read. *)
Fixpoint split_from (cur : string) (s : string) : list string :=
  match s with
  | EmptyString => match cur with EmptyString => [] | _ => [cur] end
  | String c r =>
    if is_space c then
      match cur with
      | EmptyString => split_from "" r
      | _ => cur :: split_from "" r
      end
    else split_from (cur ++ String c "") r
  end.

Definition split (line : string) : list string := split_from "" line.

(** The loop of lines 123-127 over the lines of the listing. *)
Fixpoint pid_lines (lines : list string) (pid : string) : option string :=
  match lines with
  | [] => None
  | line :: rest =>
    match split line with
    | w :: _ :: p :: _ => if String.eqb p pid then Some w else pid_lines rest pid
    | _ => pid_lines rest pid
    end
  end.

(** [find_window_by_pid(pid)], where [output] is what [wmctrl -lp] printed. *)
Definition find_window_by_pid (output pid : string) : option string :=
  pid_lines (splitlines output) pid.

(** The loop of lines 132-137; [line.split()[0]] raises on a line without a
    field. *)
Fixpoint title_lines (lines : list string) (title_part : string)
    (exclude : option string) : outcome (option string) :=
  match lines with
  | [] => Ok None
  | line :: rest =>
    if contains (lower title_part) (lower line) then
      if truthy exclude && contains (get exclude "") line
      then title_lines rest title_part exclude
      else match split line with
           | w :: _ => Ok (Some w)
           | [] => Raise IndexError
           end
    else title_lines rest title_part exclude
  end.

(** [find_window_by_title_part(title_part, exclude)], where [output] is what
    [wmctrl -l] printed. *)
Definition find_window_by_title_part (output title_part : string)
    (exclude : option string) : outcome (option string) :=
  title_lines (splitlines output) title_part exclude.

(** [s.split(', ')] *)
Fixpoint split_comma (cur : string) (s : string) : list string :=
  match s with
  | EmptyString => [cur]
  | String c r =>
    match r with
    | String d r' =>
      if Ascii.eqb c "," && Ascii.eqb d " " then cur :: split_comma "" r'
      else split_comma (cur ++ String c "") r
    | EmptyString => [(cur ++ String c "")%string]
    end
  end.

(** The search of line 147, group 1: the literal text, the blanks after it
    (line breaks too), then the rest of the line. *)
Definition NET_CLIENT_LIST (output : string) : option string :=
  search (fun s => match strip_prefix "_NET_CLIENT_LIST(WINDOW): window id #" s with
                   | Some r => Some (fst (span (fun c => negb (Ascii.eqb c LF)) (lstrip r)))
                   | None => None
                   end) output.

(** [find_window_by_class(class_hint)], where [output] is what
    [xprop -root _NET_CLIENT_LIST] printed and [wm_class wid] what
    [xprop -id wid WM_CLASS] prints. *)
Definition find_window_by_class (output : string) (wm_class : string -> string)
    (class_hint : string) : option string :=
  match output with
  | EmptyString => None
  | _ =>
    match NET_CLIENT_LIST output with
    | None => None
    | Some ids =>
      find (fun wid => contains (lower class_hint) (lower (wm_class wid)))
           (split_comma "" ids)
    end
  end.

End Text.

(** The third field of the line is [pid]. *)
Definition third_field (pid line : string) : Prop :=
  exists w x more, Text.split line = w :: x :: pid :: more.

(** The line holds the title part, whatever the case of the letters. *)
Definition holds_title (title_part line : string) : bool :=
  contains (lower title_part) (lower line).

(* ------------------------------------------------------------------ *)
(** ** [Browser.__init__], [Browser.launch] and [Switcher.__init__] *)

From Stdlib Require Import DecimalString.

Definition BROWSERS : list string :=
  [ "/usr/bin/vivaldi-stable"; "/usr/bin/google-chrome"; "/usr/bin/brave-browser" ].

Definition BROWSER_URLS : list string :=
  [ "https://www.youtube.com/watch?v=I2JRIHQ2Z68";
    "https://www.youtube.com/watch?v=MTJ-_gvNmbA";
    "https://www.youtube.com/watch?v=Nsi3zUriYgc" ].

(** [str(n)] of an [int], as the f-strings of lines 648 and 677 print it. *)
Definition str (n : Z) : string := NilZero.string_of_int (Z.to_int n).

(** [Browser(idx, exe, url)]: the fields [focus] and [launch] work on; the
    path [exe] stays with the object and is passed to [launch] below. *)
Definition Browser_init (idx : Z) (exe : string) : Browser :=
  mkBrowser idx ("Browser " ++ str idx) (get_browser_executable_name exe) None None.

Definition with_pid (b : Browser) (p : string) : Browser :=
  mkBrowser (idx b) (title b) (exe_name b) (Some p) (window_id b).

(** What one call of [launch] meets outside the process.  The searches are
    asked once per attempt; [None] as the answer of a call stands for an
    exception raised by it, which the handler of line 739 catches
    ([find_window_by_class] catches its own). *)
Record desk : Type := mkDesk {
  exe_exists : bool;                 (* os.path.exists(self.exe) *)
  profile_ready : bool;              (* lines 664-666 raise nothing *)
  clock : Z;                         (* int(time.time()) *)
  popen : option Z;                  (* self.proc.pid *)
  pid_window : nat -> string -> option (option string);    (* line 699 *)
  title_window : nat -> string -> option (option string);  (* line 708 *)
  name_window : nat -> string -> option (option string);   (* line 717 *)
  class_window : nat -> string -> option string;           (* line 727 *)
  renamed : nat -> string -> bool    (* wmctrl -i -r wid -N title was run *)
}.

(** The commands [launch] starts that change the desktop. *)
Inductive step : Type :=
| Popen (exe custom_title : string)
| Rename (wid title : string).

(** How a call of [launch] ends: it returns, or an exception of lines
    664-666 leaves it. *)
Inductive ending : Type :=
| Returned (b : bool)
| Escaped.

(** The objects after the call, the commands started, and the ending. *)
Definition launching : Type := (fstate * (list step * ending))%type.

(** Lines 701-705 (and 710-714, 719-723, 729-733): the window id is
    recorded in the object and in the global list, the window is given the
    browser's title, and the method returns [True]. *)
Definition found (D : desk) (n : nat) (st : fstate) (w : string) : launching :=
  let b := with_window (fst st) w in
  match py_setitem (snd st) (idx b - 1) (Some w) with
  | None => ((b, snd st), ([], Returned false))
  | Some bw =>
    if renamed D n w then ((b, bw), ([Rename w (title b)], Returned true))
    else ((b, bw), ([], Returned false))
  end.

(** One strategy: the search raised, or answered a window id that counts as
    true, or the next strategy is tried. *)
Definition look (D : desk) (n : nat) (st : fstate)
    (answer : option (option string)) (next : option launching)
    : option launching :=
  match answer with
  | None => Some (st, ([], Returned false))
  | Some o => if truthy o then Some (found D n st (get o "")) else next
  end.

(** The body of the loop of line 690; [None] when the loop goes on. *)
Definition attempt (D : desk) (custom_title : string) (n : nat) (st : fstate)
    : option launching :=
  let b := fst st in
  look D n st (pid_window D n (get (pid b) ""))
    (look D n st (title_window D n custom_title)
       (look D n st (name_window D n (lower (exe_name b)))
          (if mem (lower (exe_name b)) ["brave"; "brave-browser"]
           then look D n st (Some (class_window D n "Brave")) None
           else None))).

(** The loop of lines 690-733 and the lines 735-738 after it. *)
Fixpoint attempts (D : desk) (custom_title : string) (ns : list nat)
    (st : fstate) : launching :=
  match ns with
  | [] => (st, ([], Returned false))
  | n :: rest =>
    match attempt D custom_title n st with
    | Some r => r
    | None => attempts D custom_title rest st
    end
  end.

(** [Browser.launch(self)], where [exe] is [self.exe]. *)
Definition launch (D : desk) (exe : string) (st : fstate) : launching :=
  if negb (exe_exists D) then (st, ([], Returned false))
  else if negb (profile_ready D) then (st, ([], Escaped))
  else
    let b := fst st in
    let custom_title := ("Browser" ++ str (idx b) ++ "_" ++ str (clock D))%string in
    match popen D with
    | None => (st, ([], Returned false))
    | Some p =>
      let '(st', (t, e)) :=
        attempts D custom_title (seq 0 20) (with_pid b (str p), snd st) in
      (st', (Popen exe custom_title :: t, e))
    end.

(** The loop of lines 803-805 over the objects built at line 800, each with
    its path; [D k] is what the launch of the object in place [k] meets.  The
    answer tells whether the loop came to its end. *)
Fixpoint launch_each (D : nat -> desk) (k : nat) (objs : list (Browser * string))
    (bw : list (option string))
    : (list Browser * list (option string)) * (list step * bool) :=
  match objs with
  | [] => (([], bw), ([], true))
  | (b, exe) :: rest =>
    let '((b', bw'), (t, e)) := launch (D k) exe (b, bw) in
    match e with
    | Escaped => ((b' :: map fst rest, bw'), (t, false))
    | Returned _ =>
      let '((bs, bw''), (t', ok)) := launch_each D (S k) rest bw' in
      ((b' :: bs, bw''), (t ++ t', ok))
    end
  end.

(** [enumerate(l)] *)
Definition enumerate (A : Type) (l : list A) : list (nat * A) :=
  combine (seq 0 (List.length l)) l.

(** [Switcher.__init__(self)] up to the end of the launches (lines 799-805),
    on the global list of line 55. *)
Definition Switcher_init (D : nat -> desk) : registry * (list step * bool) :=
  let objs :=
    map (fun '(i, (exe, url)) => (Browser_init (Z.of_nat i + 1) exe, exe))
        (enumerate (combine BROWSERS BROWSER_URLS)) in
  let '((bs, bw), r) := launch_each D 0 objs [None; None; None] in
  (mkRegistry bs bw, r).

(** The slot of the browser in the global list. *)
Definition slot (st : fstate) : option (option string) :=
  nth_error (snd st) (Z.to_nat (idx (fst st) - 1)).

(** A desktop where no executable is installed. *)
Definition bare_desk : desk :=
  mkDesk false true 0 None (fun _ _ => Some None) (fun _ _ => Some None)
         (fun _ _ => Some None) (fun _ _ => None) (fun _ _ => true).

(** A desktop where the window of the started process shows up at the third
    attempt. *)
Definition ready_desk (p : Z) (w : string) : desk :=
  mkDesk true true 1700000000 (Some p)
         (fun n q => if (Nat.eqb n 2 && String.eqb q (str p))%bool
                     then Some (Some w) else Some None)
         (fun _ _ => Some None) (fun _ _ => Some None) (fun _ _ => None)
         (fun _ _ => true).

(** The registry after [Switcher.__init__] and then the activations
    [calls], each with the desktop it meets; an activation that raises
    leaves what it had written. *)
Definition session (D : nat -> desk) (calls : list (env * Z)) : registry :=
  fold_left (fun reg '(E, num) => state_of (activate E num reg)) calls
            (fst (Switcher_init D)).

(** The ways a call of [launch] ends. *)
Inductive launch_case (D : desk) (exe : string) (st : fstate) : launching -> Prop :=
| no_start :
    exe_exists D = false \/ popen D = None ->
    launch_case D exe st (st, ([], Returned false))
| no_profile :
    exe_exists D = true -> profile_ready D = false ->
    launch_case D exe st (st, ([], Escaped))
| no_window p ct :
    popen D = Some p ->
    launch_case D exe st
      ((with_pid (fst st) (str p), snd st), ([Popen exe ct], Returned false))
| window p ct n w :
    popen D = Some p -> w <> "" ->
    launch_case D exe st
      (recorded (with_pid (fst st) (str p), snd st) w,
       (Popen exe ct :: (if renamed D n w then [Rename w (title (fst st))] else []),
        Returned (renamed D n w))).
(* ------------------------------------------------------------------ *)
(** ** Worked inputs, evaluated *)

Example brand_match :
  adjust_stream_volumes quiet_env [Some "0x1"; None; None] 1 [named "5" "Vivaldi"]
  = ([GetWindowPid "0x1"; SetVol "5" 100; SetVol "5" 100], Ok true).
Proof. vm_compute. reflexivity. Qed.

Example sample_parse :
  parse_dump "Sink Input #" true sample_dump
  = [ mkStream (Some "12") (Some "Vivaldi") (Some "vivaldi-bin") (Some "Playback") (Some "4242");
      mkStream (Some "13") (Some "Chromium") None None None ].
Proof. vm_compute. reflexivity. Qed.

(* ------------------------------------------------------------------ *)
(** ** Traces of composed computations *)

Lemma bind_ok (A B : Type) (m : W A) (f : A -> W B) t a :
  m = (t, Ok a) -> bind m f = (t ++ fst (f a), snd (f a)).
Proof. intros ->. unfold bind. destruct (f a); reflexivity. Qed.

Lemma bind_raise (A B : Type) (m : W A) (f : A -> W B) t e :
  m = (t, Raise e) -> bind m f = (t, Raise e).
Proof. intros ->. reflexivity. Qed.

Lemma trace_bind (A B : Type) (m : W A) (f : A -> W B) e :
  In e (trace_of (bind m f)) ->
  In e (trace_of m) \/ exists a, result_of m = Ok a /\ In e (trace_of (f a)).
Proof.
  destruct m as [t [a | x]]; unfold bind, trace_of, result_of.
  - destruct (f a) as [t' r] eqn:Hf. simpl. intros H.
    apply in_app_or in H. destruct H as [H | H]; [now left | right].
    exists a. rewrite Hf. auto.
  - simpl. auto.
Qed.

Lemma result_bind (A B : Type) (m : W A) (f : A -> W B) b :
  result_of (bind m f) = Ok b ->
  exists a, result_of m = Ok a /\ result_of (f a) = Ok b.
Proof.
  destruct m as [t [a | x]]; unfold bind, result_of.
  - destruct (f a) as [t' r] eqn:Hf. simpl. intros ->. exists a. rewrite Hf. auto.
  - simpl. discriminate.
Qed.

(** A loop keeps an invariant [P] of its state and every event it records
    satisfies [Q], when each iteration does. *)
Lemma for_each_inv (A St : Type) (P : St -> Prop) (Q : event -> Prop)
    (body : St -> A -> W St) (l : list A) :
  (forall st x, In x l -> P st ->
     (forall e, In e (trace_of (body st x)) -> Q e) /\
     (forall st', result_of (body st x) = Ok st' -> P st')) ->
  forall st, P st ->
    (forall e, In e (trace_of (for_each body l st)) -> Q e) /\
    (forall st', result_of (for_each body l st) = Ok st' -> P st').
Proof.
  induction l as [| x r IH]; intros Hbody st Hst.
  - simpl. split; [intros e [] | intros st' H; inversion H; subst; exact Hst].
  - simpl. destruct (Hbody st x (or_introl eq_refl) Hst) as [Hq Hp].
    assert (Hr : forall st1, P st1 ->
              (forall e, In e (trace_of (for_each body r st1)) -> Q e) /\
              (forall st', result_of (for_each body r st1) = Ok st' -> P st')).
    { apply IH. intros st1 y Hy. apply Hbody. now right. }
    split.
    + intros e He. apply trace_bind in He. destruct He as [He | (st1 & H1 & He)].
      * now apply Hq.
      * apply (proj1 (Hr st1 (Hp _ H1))). exact He.
    + intros st' H. apply result_bind in H. destruct H as (st1 & H1 & H2).
      apply (proj2 (Hr st1 (Hp _ H1))). exact H2.
Qed.

(** A loop whose iterations never raise returns. *)
Lemma for_each_returns (A St : Type) (body : St -> A -> W St) (l : list A) :
  (forall st x, In x l -> exists t st', body st x = (t, Ok st')) ->
  forall st, exists t st', for_each body l st = (t, Ok st').
Proof.
  induction l as [| x r IH]; intros Hbody st.
  - simpl. now exists [], st.
  - simpl. destruct (Hbody st x (or_introl eq_refl)) as (t & st1 & H1).
    destruct (IH (fun s y Hy => Hbody s y (or_intror Hy)) st1) as (t' & st' & H2).
    exists (t ++ t'), st'. rewrite (bind_ok _ H1), H2. reflexivity.
Qed.

(* ------------------------------------------------------------------ *)
(** ** Streams that name no browser *)

Lemma any_name_false names a b :
  any_name names a b = false ->
  forall n, In n names -> contains n a = false /\ contains n b = false.
Proof.
  unfold any_name. intros H n Hn.
  destruct (contains n a) eqn:Ha, (contains n b) eqn:Hb; auto;
    exfalso; assert (X : existsb (fun n => contains n a || contains n b) names = true)
      by (apply existsb_exists; exists n; rewrite Ha, Hb; auto);
    congruence.
Qed.

Lemma any_name_app l1 l2 a b :
  any_name (l1 ++ l2) a b = any_name l1 a b || any_name l2 a b.
Proof. unfold any_name. apply existsb_app. Qed.

Lemma anonymous_no_names s :
  anonymous s = true ->
  no_names (lower (get (s_app_name s) "")) (lower (get (s_binary s) "")).
Proof.
  unfold anonymous, all_aliases. intros H. apply negb_true_iff in H.
  rewrite !any_name_app in H.
  apply orb_false_iff in H. destruct H as [H1 H23].
  apply orb_false_iff in H23. destruct H23 as [H2 H3].
  pose proof (any_name_false _ _ _ H1) as F1.
  pose proof (any_name_false _ _ _ H2) as F2.
  pose proof (any_name_false _ _ _ H3) as F3.
  constructor; auto;
    try (apply F1; cbn; tauto); try (apply F2; cbn; tauto); try (apply F3; cbn; tauto).
Qed.

Lemma attribute_anonymous active_idx active_pid st i a b stream_pid :
  no_names a b ->
  attribute active_idx active_pid st i a b stream_pid = (None, st).
Proof.
  intros [H1 H2 H3 _ _ _ _ Hca Hcb _ _ _]. unfold attribute.
  rewrite H1, H2, H3, Hca, Hcb. cbn. rewrite andb_false_r. reflexivity.
Qed.

Lemma spares_other i j v e : j <> i -> In e [SetVol j v] -> spares i e.
Proof. intros Hj [<- | []] p H. inversion H. congruence. Qed.

Lemma untouched_spares i t : (forall e, In e t -> spares i e) -> untouched i t.
Proof. intros H p Hin. exact (H _ Hin p eq_refl). Qed.

Section Unrecognised.

Variable E : env.
Variable i : string.

Lemma first_pass_body_spares active_idx active_pid st s :
  (s_id s = Some i -> anonymous s = true) ->
  forall e, In e (trace_of (first_pass_body E active_idx active_pid st s)) -> spares i e.
Proof.
  intros Hs e. unfold first_pass_body. destruct (s_id s) as [j |]; [| intros []].
  destruct (String.eqb_spec j i) as [-> | Hne].
  - rewrite (attribute_anonymous _ _ _ _ _ (anonymous_no_names _ (Hs eq_refl))).
    intros [].
  - destruct (attribute _ _ _ _ _ _ _) as [[b |] st1]; [| intros []].
    cbn. apply spares_other. exact Hne.
Qed.

Lemma first_pass_spares active_idx active_pid streams success :
  (forall s, In s streams -> s_id s = Some i -> anonymous s = true) ->
  forall e, In e (trace_of (first_pass E active_idx active_pid streams success)) ->
            spares i e.
Proof.
  intros Hs. unfold first_pass.
  apply (for_each_inv (fun _ => True) (spares i)); [| exact I].
  intros st s Hin _. split; [| auto].
  apply first_pass_body_spares. exact (Hs s Hin).
Qed.

Lemma definite_vivaldi_spares streams found :
  (forall s, In s streams -> s_id s = Some i -> anonymous s = true) ->
  forall e, In e (trace_of (for_each (definite_vivaldi_body E) streams found)) ->
            spares i e.
Proof.
  intros Hs. apply (for_each_inv (fun _ => True) (spares i)); [| exact I].
  intros st s Hin _. split; [| auto]. intros e.
  unfold definite_vivaldi_body. destruct (s_id s) as [j |] eqn:Hj; [| intros []].
  destruct (String.eqb_spec j i) as [-> | Hne].
  - destruct (anonymous_no_names _ (Hs s Hin Hj)) as [_ _ _ Ha Hb _ _ _ _ _ _ _].
    rewrite Ha, Hb. intros [].
  - destruct (_ || _); [| intros []]. cbn. apply spares_other. exact Hne.
Qed.

Lemma pid_vivaldi_spares active_pid streams found :
  truthy active_pid = true ->
  (forall s, In s streams -> s_id s = Some i -> unrecognised active_pid s = true) ->
  forall e, In e (trace_of (for_each (pid_vivaldi_body E active_pid) streams found)) ->
            spares i e.
Proof.
  intros Ht Hs. apply (for_each_inv (fun _ => True) (spares i)); [| exact I].
  intros st s Hin _. split; [| auto]. intros e.
  unfold pid_vivaldi_body. destruct (s_id s) as [j |] eqn:Hj; [| intros []].
  destruct (String.eqb_spec j i) as [-> | Hne].
  - pose proof (Hs s Hin Hj) as Hu. unfold unrecognised in Hu.
    apply andb_true_iff in Hu. destruct Hu as [_ Hu].
    rewrite Ht in Hu. cbn in Hu. apply negb_true_iff in Hu. rewrite Hu. intros [].
  - destruct (py_eq _ _); [| intros []]. cbn. apply spares_other. exact Hne.
Qed.

Lemma first_chromium_spares streams found :
  (forall s, In s streams -> s_id s = Some i -> anonymous s = true) ->
  forall e, In e (trace_of (for_each (first_chromium_body E) streams found)) ->
            spares i e.
Proof.
  intros Hs. apply (for_each_inv (fun _ => True) (spares i)); [| exact I].
  intros st s Hin _. split; [| auto]. intros e.
  unfold first_chromium_body. destruct (s_id s) as [j |] eqn:Hj; [| intros []].
  destruct (String.eqb_spec j i) as [-> | Hne].
  - destruct (anonymous_no_names _ (Hs s Hin Hj)) as [_ _ _ _ _ Hc _ Hm _ _ _ _].
    rewrite Hc, Hm. cbn. intros [].
  - destruct (_ && negb st); [cbn; apply spares_other; exact Hne |].
    destruct (_ && negb st); [cbn; apply spares_other; exact Hne | intros []].
Qed.

Lemma chromium_down_spares active_pid streams :
  (forall s, In s streams -> s_id s = Some i -> anonymous s = true) ->
  forall e, In e (trace_of (for_each (chromium_down_body E active_pid) streams tt)) ->
            spares i e.
Proof.
  intros Hs. apply (for_each_inv (fun _ => True) (spares i)); [| exact I].
  intros st s Hin _. split; [| auto]. intros e.
  unfold chromium_down_body. destruct (s_id s) as [j |] eqn:Hj; [| intros []].
  destruct (String.eqb_spec j i) as [-> | Hne].
  - destruct (anonymous_no_names _ (Hs s Hin Hj)) as [_ _ _ _ _ _ _ Hm _ _ _ _].
    rewrite Hm. cbn. intros [].
  - destruct (_ && _); [| intros []].
    destruct active_pid as [pid |]; [| intros []]. cbn.
    destruct (negb _); [cbn; apply spares_other; exact Hne | intros []].
Qed.

Lemma chrome_up_spares streams :
  (forall s, In s streams -> s_id s = Some i -> anonymous s = true) ->
  forall e, In e (trace_of (for_each (chrome_up_body E) streams tt)) -> spares i e.
Proof.
  intros Hs. apply (for_each_inv (fun _ => True) (spares i)); [| exact I].
  intros st s Hin _. split; [| auto]. intros e.
  unfold chrome_up_body. destruct (s_id s) as [j |] eqn:Hj; [| intros []].
  destruct (String.eqb_spec j i) as [-> | Hne].
  - destruct (anonymous_no_names _ (Hs s Hin Hj)) as [_ _ _ _ _ _ _ _ _ _ _ Hg].
    rewrite Hg. intros [].
  - destruct (contains _ _); [cbn; apply spares_other; exact Hne | intros []].
Qed.

Lemma unrecognised_anonymous active_pid s :
  unrecognised active_pid s = true -> anonymous s = true.
Proof. unfold unrecognised. intros H. apply andb_true_iff in H. tauto. Qed.

Lemma last_resort_spares active_idx pid streams :
  (forall s, In s streams -> s_id s = Some i -> unrecognised pid s = true) ->
  forall e, In e (trace_of (last_resort E active_idx (Some pid) streams)) -> spares i e.
Proof.
  intros Hs e. unfold last_resort.
  assert (Ha : forall s, In s streams -> s_id s = Some i -> anonymous s = true)
    by (intros s H1 H2; exact (unrecognised_anonymous _ _ (Hs s H1 H2))).
  destruct (_ && _); [| intros []].
  intros H. apply trace_bind in H. destruct H as [H | (vf & _ & H)].
  { eapply definite_vivaldi_spares; eauto. }
  apply trace_bind in H. destruct H as [H | (vf' & _ & H)].
  - destruct (negb vf); [| destruct H]. cbn in H.
    destruct (truthy pid) eqn:Ht.
    + destruct (for_each (pid_vivaldi_body E pid) streams vf) as [t r] eqn:Hl.
      cbn in H. eapply pid_vivaldi_spares; [exact Ht | exact Hs |].
      rewrite Hl. exact H.
    + destruct H.
  - destruct (negb vf'); [| destruct H].
    apply trace_bind in H. destruct H as [H | (x & _ & [])].
    eapply first_chromium_spares; eauto.
Qed.

Lemma browser2_special_spares active_idx active_pid streams :
  (forall s, In s streams -> s_id s = Some i -> anonymous s = true) ->
  forall e, In e (trace_of (browser2_special E active_idx active_pid streams)) ->
            spares i e.
Proof.
  intros Ha e. unfold browser2_special. destruct (_ && _); [| intros []].
  intros H. apply trace_bind in H. destruct H as [H | (x & _ & H)].
  - eapply chromium_down_spares; eauto.
  - eapply chrome_up_spares; eauto.
Qed.

End Unrecognised.

(** The registry test of line 253 when the slot of the active browser holds
    a window id. *)
Lemma registered_slot (bw : list (option string)) active_idx w :
  1 <= active_idx ->
  py_getitem bw (active_idx - 1) = Some w ->
  (active_idx <=? Z.of_nat (List.length bw)) = true.
Proof.
  intros H1. unfold py_getitem.
  destruct (0 <=? active_idx - 1) eqn:H0; [| lia].
  destruct (active_idx - 1 <? Z.of_nat (List.length bw)) eqn:H2; cbn.
  - intros _. lia.
  - destruct (_ && _) eqn:H3; [| discriminate]. lia.
Qed.

Lemma first_pass_returns E active_idx active_pid streams success :
  exists t st, first_pass E active_idx active_pid streams success = (t, Ok st).
Proof.
  unfold first_pass. apply for_each_returns. intros st s _.
  unfold first_pass_body. destruct (s_id s) as [j |]; [| now eexists _, _].
  destruct (attribute _ _ _ _ _ _ _) as [[b |] st1]; now eexists _, _.
Qed.

(** C1, as amended.  When the slot of the active browser holds a window id,
    the first loop attributed a stream and, with browser 1 active, found a
    Vivaldi stream, then a stream id all of whose carriers name no managed
    browser and do not carry the pid of the active window receives no
    volume call in the whole routine. *)
Theorem unrecognised_stream_untouched E bw active_idx streams w t1 st i :
  1 <= active_idx <= 3 ->
  py_getitem bw (active_idx - 1) = Some w ->
  truthy w = true ->
  first_pass E active_idx (window_pid E (get w "")) streams false = (t1, Ok st) ->
  success1 st = true ->
  (active_idx = 1 -> vivaldi_streams st <> []) ->
  (forall s, In s streams -> s_id s = Some i ->
             unrecognised (window_pid E (get w "")) s = true) ->
  untouched i (trace_of (adjust_stream_volumes E bw active_idx streams)).
Proof.
  intros Hrange Hslot Hw Hfp Hsucc Hviv Hs.
  assert (Ha : forall s, In s streams -> s_id s = Some i -> anonymous s = true)
    by (intros s H1 H2; exact (unrecognised_anonymous _ _ (Hs s H1 H2))).
  apply untouched_spares. intros e.
  unfold adjust_stream_volumes, first_attempt.
  rewrite (registered_slot bw (proj1 Hrange) Hslot), Hslot, Hw.
  assert (Hsweep : vivaldi_sweep E active_idx st streams = ([], Ok true)).
  { unfold vivaldi_sweep. rewrite Hsucc.
    destruct (active_idx =? 1) eqn:H1; [| reflexivity].
    apply Z.eqb_eq in H1. destruct (vivaldi_streams st); [now elim (Hviv H1) | reflexivity]. }
  unfold get_window_pid. cbn [bind emit ret app fst snd].
  rewrite Hfp. cbn [bind]. rewrite Hsweep. cbn [bind ret app fst snd].
  unfold aggressive. cbn [negb andb bind ret app].
  destruct (last_resort E active_idx _ streams) as [t2 [[] | x]] eqn:Hlr.
  - destruct (browser2_special E active_idx _ streams) as [t3 r3] eqn:Hb2.
    assert (H3 : forall e, In e t3 -> spares i e).
    { intros e' He'. eapply browser2_special_spares; [exact Ha |].
      rewrite Hb2. exact He'. }
    assert (H2 : forall e, In e t2 -> spares i e).
    { intros e' He'. eapply last_resort_spares; [exact Hs |].
      rewrite Hlr. exact He'. }
    assert (H1 : forall e, In e t1 -> spares i e).
    { intros e' He'. eapply first_pass_spares; [exact Ha |].
      rewrite Hfp. exact He'. }
    destruct r3 as [[] | x]; cbn; rewrite ?app_nil_r;
      intros [<- | H]; try (intros p; discriminate);
      repeat (apply in_app_or in H; destruct H as [H | H]); auto.
  - assert (H2 : forall e, In e t2 -> spares i e).
    { intros e' He'. eapply last_resort_spares; [exact Hs |].
      rewrite Hlr. exact He'. }
    assert (H1 : forall e, In e t1 -> spares i e).
    { intros e' He'. eapply first_pass_spares; [exact Ha |].
      rewrite Hfp. exact He'. }
    cbn; rewrite ?app_nil_r;
      intros [<- | H]; try (intros p; discriminate);
      repeat (apply in_app_or in H; destruct H as [H | H]); auto.
Qed.

Lemma unrecognised_stream_untouched_witness :
  untouched "7"
    (trace_of (adjust_stream_volumes quiet_env [None; None; Some "0x3"] 3
                 [named "5" "Brave"; named "7" "Firefox"])).
Proof.
  apply (@unrecognised_stream_untouched quiet_env [None; None; Some "0x3"] 3
           [named "5" "Brave"; named "7" "Firefox"] (Some "0x3")
           [SetVol "5" 100] (mkPass1 [] [] ["5"] ["5"] true) "7").
  - lia.
  - reflexivity.
  - reflexivity.
  - reflexivity.
  - reflexivity.
  - intros H. discriminate H.
  - intros s [<- | [<- | []]] H.
    + discriminate H.
    + reflexivity.
Defined.

(** C1 as the specification states it fails: with browser 3 active and no
    stream attributed by the first loop, the fallback of lines 347-389 sets
    an unrecognised stream to the inactive level. *)
Lemma unrecognised_stream_touched :
  ~ unrecognised_left_alone quiet_env [None; None; Some "0x3"] 3 [named "5" "Firefox"].
Proof.
  intros H.
  apply (H (named "5" "Firefox") "5" (or_introl eq_refl) eq_refl eq_refl INACTIVE_VOL).
  vm_compute. auto.
Qed.

(* ------------------------------------------------------------------ *)
(** ** The unassigned [active_pid] *)

(** C2, at the failing input: no window id was ever found for browser 1 and
    one stream plays that does not name Vivaldi.  The block that assigns
    [active_pid] is skipped, the fallback sets the stream to 30%, and the
    test of line 408 reads the unassigned local. *)
Theorem adjust_stream_volumes_unbound :
  adjust_stream_volumes quiet_env [None; None; None] 1 [named "5" "Firefox"]
  = ([SetVol "5" 30], Raise (UnboundLocalError "active_pid")).
Proof. vm_compute. reflexivity. Qed.

(** The same read fails at line 443 when browser 2 is active. *)
Example adjust_stream_volumes_unbound_2 :
  adjust_stream_volumes quiet_env [None; None; None] 2 [named "5" "Chromium"]
  = ([SetVol "5" 30], Raise (UnboundLocalError "active_pid")).
Proof. vm_compute. reflexivity. Qed.

Lemma returns_ret (A : Type) (a : A) : returns (ret a).
Proof. now exists [], a. Qed.

Lemma returns_bind (A B : Type) (m : W A) (f : A -> W B) :
  returns m -> (forall a, returns (f a)) -> returns (bind m f).
Proof.
  intros (t & a & ->) Hf. destruct (Hf a) as (t' & b & H).
  exists (t ++ t'), b. unfold bind. rewrite H. reflexivity.
Qed.

Lemma returns_bind_ok (A B : Type) (m : W A) (f : A -> W B) t a :
  m = (t, Ok a) -> returns (f a) -> returns (bind m f).
Proof.
  intros -> (t' & b & H). exists (t ++ t'), b. unfold bind. rewrite H. reflexivity.
Qed.

Lemma returns_set_vol E i v : returns (set_vol E i v).
Proof. now eexists _, _. Qed.

Lemma returns_for_each (A St : Type) (body : St -> A -> W St) (l : list A) st :
  (forall st x, returns (body st x)) -> returns (for_each body l st).
Proof. intros H. apply for_each_returns. intros st' x _. apply H. Qed.

Ltac returns_step :=
  first [ apply returns_ret | apply returns_set_vol
        | apply returns_bind; [| intros ?]
        | apply returns_for_each; intros ? ? ].

Ltac split_tests :=
  repeat match goal with
         | |- context [if ?c then _ else _] => destruct c
         end.

Lemma vivaldi_sweep_returns E active_idx st streams :
  returns (vivaldi_sweep E active_idx st streams).
Proof.
  unfold vivaldi_sweep. destruct (_ && _); [| apply returns_ret].
  apply returns_for_each. intros b s. unfold vivaldi_sweep_body.
  destruct (s_id s); [| apply returns_ret].
  destruct (negb _); repeat returns_step.
Qed.

(** The block guarded by the registry, when the slot of the active browser
    holds a window id: the pid is asked, the first loop and the sweep run,
    and [active_pid] is assigned. *)
Lemma first_attempt_registered E bw active_idx streams w :
  1 <= active_idx ->
  py_getitem bw (active_idx - 1) = Some w ->
  truthy w = true ->
  exists t1 st t2 b,
    first_pass E active_idx (window_pid E (get w "")) streams false = (t1, Ok st) /\
    vivaldi_sweep E active_idx st streams = (t2, Ok b) /\
    first_attempt E bw active_idx streams false
    = (GetWindowPid (get w "") :: t1 ++ t2,
       Ok (b, Some (window_pid E (get w "")), Some st)).
Proof.
  intros H1 Hslot Hw.
  destruct (first_pass_returns E active_idx (window_pid E (get w "")) streams false)
    as (t1 & st & Hfp).
  destruct (vivaldi_sweep_returns E active_idx st streams) as (t2 & b & Hsw).
  exists t1, st, t2, b. split; [exact Hfp | split; [exact Hsw |]].
  unfold first_attempt.
  rewrite (registered_slot bw H1 Hslot), Hslot, Hw.
  unfold get_window_pid. cbn [bind emit ret app fst snd].
  rewrite Hfp. cbn [bind]. rewrite Hsw. cbn [bind ret]. rewrite app_nil_r.
  reflexivity.
Qed.

Lemma aggressive_returns E active_idx streams success :
  returns (aggressive E active_idx streams success).
Proof.
  unfold aggressive. destruct (_ && _); [| apply returns_ret].
  apply returns_for_each. intros b s. unfold aggressive_body.
  destruct (s_id s); [| apply returns_ret].
  split_tests; repeat returns_step.
Qed.

Lemma last_resort_returns E active_idx pid streams :
  returns (last_resort E active_idx (Some pid) streams).
Proof.
  unfold last_resort. destruct (_ && _); [| apply returns_ret].
  apply returns_bind.
  { apply returns_for_each. intros b s. unfold definite_vivaldi_body.
    destruct (s_id s); split_tests; repeat returns_step. }
  intros vf. apply returns_bind.
  { destruct (negb vf); [| apply returns_ret]. cbn [read_local].
    apply returns_bind; [apply returns_ret | intros p].
    destruct (truthy p); [| apply returns_ret].
    apply returns_for_each. intros b s. unfold pid_vivaldi_body.
    destruct (s_id s); split_tests; repeat returns_step. }
  intros vf'. destruct (negb vf'); [| apply returns_ret].
  apply returns_bind; [| intros ?; apply returns_ret].
  apply returns_for_each. intros b s. unfold first_chromium_body.
  destruct (s_id s); split_tests; repeat returns_step.
Qed.

Lemma browser2_special_returns E active_idx pid streams :
  returns (browser2_special E active_idx (Some pid) streams).
Proof.
  unfold browser2_special. destruct (_ && _); [| apply returns_ret].
  apply returns_bind; [| intros ?].
  - apply returns_for_each. intros b s. unfold chromium_down_body.
    destruct (s_id s); [| apply returns_ret].
    destruct (_ && _); [| apply returns_ret]. cbn [read_local].
    apply returns_bind; [apply returns_ret | intros p].
    split_tests; repeat returns_step.
  - apply returns_for_each. intros b s. unfold chrome_up_body.
    destruct (s_id s); split_tests; repeat returns_step.
Qed.

(** The playback routine returns whenever the slot of the active browser
    holds a window id: the failure above needs an empty slot. *)
Lemma adjust_stream_volumes_returns E bw active_idx streams w :
  1 <= active_idx ->
  py_getitem bw (active_idx - 1) = Some w ->
  truthy w = true ->
  returns (adjust_stream_volumes E bw active_idx streams).
Proof.
  intros H1 Hslot Hw. unfold adjust_stream_volumes.
  destruct (first_attempt_registered E bw streams H1 Hslot Hw)
    as (t1 & st & t2 & b & _ & _ & Hfa).
  apply (returns_bind_ok _ Hfa).
  apply returns_bind; [apply aggressive_returns | intros success].
  apply returns_bind; [apply last_resort_returns | intros ?].
  apply returns_bind; [apply browser2_special_returns | intros ?].
  apply returns_ret.
Qed.

(* ------------------------------------------------------------------ *)
(** ** Two generic streams with browser 2 active *)

Lemma generic_is_chrome_name b : any_name (browser_names 2) "chromium" b = true.
Proof.
  unfold any_name, browser_names. cbn.
  destruct (contains "chrome" b), (contains "google chrome" b); reflexivity.
Qed.

Lemma first_pass_body_generic E active_pid st s i :
  s_id s = Some i -> generic s -> names_vivaldi s = false ->
  first_pass_body E 2 active_pid st s
  = ([SetVol i ACTIVE_VOL], Ok (add_assigned i (add_chrome i st))).
Proof.
  unfold generic, names_vivaldi, first_pass_body, attribute.
  intros -> Hg Hv. rewrite Hg in *. rewrite Hv, generic_is_chrome_name.
  reflexivity.
Qed.

Lemma chromium_down_generic E active_pid s i :
  s_id s = Some i -> generic s -> s_pid s = None ->
  chromium_down_body E (Some active_pid) tt s = ([SetVol i INACTIVE_VOL], Ok tt).
Proof.
  unfold generic, chromium_down_body. intros -> -> ->. cbn.
  destruct active_pid as [[| c r] |]; reflexivity.
Qed.

Lemma chrome_up_generic E s i :
  s_id s = Some i -> generic s -> chrome_up_body E tt s = ([], Ok tt).
Proof. unfold generic, chrome_up_body. intros -> ->. reflexivity. Qed.

(** C3, as amended.  Two streams named by the generic engine name, neither
    naming Vivaldi nor carrying a pid, with browser 2 active and its window
    id in the registry: the first loop gives both to browser 2 and raises
    both to 100%, and the special handling of browser 2 then sets both to
    30%. *)
Theorem generic_pair_both_to_chrome E bw w s1 s2 i1 i2 :
  py_getitem bw 1 = Some w -> truthy w = true ->
  s_id s1 = Some i1 -> s_id s2 = Some i2 ->
  generic s1 -> generic s2 ->
  names_vivaldi s1 = false -> names_vivaldi s2 = false ->
  s_pid s1 = None -> s_pid s2 = None ->
  given_to E bw 2 [s1; s2] 2 = [i1; i2] /\
  adjust_stream_volumes E bw 2 [s1; s2]
  = ([GetWindowPid (get w ""); SetVol i1 100; SetVol i2 100;
      SetVol i1 30; SetVol i2 30], Ok true).
Proof.
  intros Hslot Hw Hi1 Hi2 Hg1 Hg2 Hv1 Hv2 Hp1 Hp2.
  assert (Hfa : first_attempt E bw 2 [s1; s2] false
                = ([GetWindowPid (get w ""); SetVol i1 100; SetVol i2 100],
                   Ok (true, Some (window_pid E (get w "")),
                       Some (mkPass1 [] [i1; i2] [] [i1; i2] true)))).
  { unfold first_attempt.
    rewrite (@registered_slot bw 2 w ltac:(lia) Hslot).
    change (2 - 1) with 1. rewrite Hslot, Hw.
    unfold get_window_pid, first_pass, vivaldi_sweep. cbn [bind emit ret app fst snd for_each].
    rewrite (first_pass_body_generic E _ _ Hi1 Hg1 Hv1). cbn [bind].
    rewrite (first_pass_body_generic E _ _ Hi2 Hg2 Hv2). reflexivity. }
  split.
  - unfold given_to, attribution. rewrite Hfa. reflexivity.
  - unfold adjust_stream_volumes. rewrite Hfa. cbn [bind].
    unfold aggressive, last_resort, browser2_special.
    cbn [negb andb Z.eqb Pos.eqb nonempty bind ret app fst snd for_each].
    rewrite (chromium_down_generic E _ Hi1 Hg1 Hp1). cbn [bind].
    rewrite (chromium_down_generic E _ Hi2 Hg2 Hp2). cbn [bind ret app fst snd].
    rewrite (chrome_up_generic E Hi1 Hg1). cbn [bind].
    rewrite (chrome_up_generic E Hi2 Hg2).
    reflexivity.
Qed.

Lemma generic_pair_both_to_chrome_witness :
  given_to quiet_env [None; Some "0x2"; None] 2
    [named "5" "Chromium"; named "6" "Chromium"] 2 = ["5"; "6"] /\
  adjust_stream_volumes quiet_env [None; Some "0x2"; None] 2
    [named "5" "Chromium"; named "6" "Chromium"]
  = ([GetWindowPid "0x2"; SetVol "5" 100; SetVol "6" 100;
      SetVol "5" 30; SetVol "6" 30], Ok true).
Proof.
  apply (@generic_pair_both_to_chrome quiet_env [None; Some "0x2"; None] (Some "0x2")
           (named "5" "Chromium") (named "6" "Chromium") "5" "6");
    reflexivity.
Defined.

(** C3 as the specification states it fails: both generic streams are given
    to browser 2, not at most one of them. *)
Lemma generic_pair_double_assignment :
  ~ (List.length (given_to quiet_env [None; Some "0x2"; None] 2
                    [named "5" "Chromium"; named "6" "Chromium"] 2) <= 1)%nat.
Proof. vm_compute. intros H. inversion H as [| ? H']. inversion H'. Qed.

(* ------------------------------------------------------------------ *)
(** ** One attribution per stream *)

Lemma volume_sets_app i t t' :
  volume_sets i (t ++ t') = (volume_sets i t + volume_sets i t')%nat.
Proof. unfold volume_sets. rewrite filter_app, length_app. reflexivity. Qed.

Lemma carriers_cons i s l : carriers i (s :: l) = (carries i s + carriers i l)%nat.
Proof. unfold carriers, carries. cbn. destruct (py_eq _ _); reflexivity. Qed.

Lemma volume_sets_one i j v :
  volume_sets i [SetVol j v] = carries i (mkStream (Some j) None None None None).
Proof. unfold volume_sets, carries. cbn. destruct (String.eqb j i); reflexivity. Qed.

Lemma carries_id i s j : s_id s = Some j ->
  carries i s = carries i (mkStream (Some j) None None None None).
Proof. unfold carries. intros ->. reflexivity. Qed.

(** A loop each of whose iterations sets the volume of its own stream at
    most once sets the volume of an id at most as often as streams carry
    it. *)
Lemma loop_at_most_once (St : Type) (body : St -> stream -> W St) i :
  (forall st s, (volume_sets i (trace_of (body st s)) <= carries i s)%nat) ->
  forall l st, (volume_sets i (trace_of (for_each body l st)) <= carriers i l)%nat.
Proof.
  intros Hbody. induction l as [| s l IH]; intros st.
  - cbn. lia.
  - rewrite carriers_cons. cbn [for_each]. specialize (Hbody st s).
    destruct (body st s) as [t [st1 | x]]; unfold bind.
    + specialize (IH st1). destruct (for_each body l st1) as [t' r].
      unfold trace_of in *. cbn [fst] in *. rewrite volume_sets_app. lia.
    + unfold trace_of in *. cbn [fst] in *. lia.
Qed.

Lemma first_pass_body_once E active_idx active_pid i st s :
  (volume_sets i (trace_of (first_pass_body E active_idx active_pid st s))
   <= carries i s)%nat.
Proof.
  unfold first_pass_body. destruct (s_id s) as [j |] eqn:Hj; [| cbn; lia].
  destruct (attribute _ _ _ _ _ _ _) as [[b |] st1]; [| cbn; lia].
  cbn [set_vol bind emit ret app fst snd trace_of].
  rewrite volume_sets_one, (carries_id i s Hj). lia.
Qed.

Lemma aggressive_body_once E active_idx i success s :
  (volume_sets i (trace_of (aggressive_body E active_idx success s))
   <= carries i s)%nat.
Proof.
  unfold aggressive_body. destruct (s_id s) as [j |] eqn:Hj; [| cbn; lia].
  rewrite (carries_id i s Hj), <- (volume_sets_one i j 0).
  split_tests; cbn; unfold volume_sets; cbn; destruct (String.eqb j i); cbn; lia.
Qed.

(** The first loop records a call only when it sets [success]. *)
Lemma first_pass_body_success E active_idx active_pid st s t st' :
  first_pass_body E active_idx active_pid st s = (t, Ok st') ->
  (success1 st = true -> success1 st' = true) /\
  (success1 st' = false -> t = []).
Proof.
  unfold first_pass_body. destruct (s_id s) as [j |].
  - destruct (attribute _ _ _ _ _ _ _) as [[b |] st1] eqn:Ha.
    + cbn. intros H. inversion H; subst. cbn. split; [auto | discriminate].
    + cbn. intros H. inversion H; subst. split; [| auto].
      revert Ha. unfold attribute. split_tests; intros Ha; inversion Ha; subst; auto.
  - cbn. intros H. inversion H; subst. auto.
Qed.

Lemma first_pass_loop_success E active_idx active_pid streams :
  forall st t st',
    for_each (first_pass_body E active_idx active_pid) streams st = (t, Ok st') ->
    (success1 st = true -> success1 st' = true) /\
    (success1 st' = false -> t = []).
Proof.
  induction streams as [| s l IH]; intros st t st'.
  - cbn. intros H. inversion H; subst. auto.
  - cbn [for_each].
    destruct (first_pass_body E active_idx active_pid st s) as [t0 [st1 | x]] eqn:Hb;
      unfold bind; [| discriminate].
    destruct (for_each _ l st1) as [t1 r] eqn:Hl. intros H. inversion H; subst.
    destruct (first_pass_body_success _ _ _ _ _ Hb) as [Hm Hq].
    destruct (IH _ _ _ Hl) as [Hm' Hq']. split; [auto |].
    intros Hf. rewrite (Hq' Hf), app_nil_r. apply Hq.
    destruct (success1 st1) eqn:H1; [| reflexivity].
    rewrite (Hm' eq_refl) in Hf. discriminate.
Qed.

Lemma occurrences_snoc i j l :
  occurrences i (l ++ [j])
  = (occurrences i l + carries i (mkStream (Some j) None None None None))%nat.
Proof.
  unfold occurrences, carries. rewrite count_occ_app. cbn.
  destruct (string_dec j i) as [-> | Hne].
  - rewrite String.eqb_refl. reflexivity.
  - apply String.eqb_neq in Hne. rewrite Hne. reflexivity.
Qed.

(** The [if/elif] chain puts the stream id in at most one of the lists. *)
Lemma attribute_exclusive active_idx active_pid st j a b stream_pid i o st1 :
  attribute active_idx active_pid st j a b stream_pid = (o, st1) ->
  (attributed i st1
   <= attributed i st + carries i (mkStream (Some j) None None None None))%nat.
Proof.
  unfold attribute, attributed.
  split_tests; intros H; inversion H; subst;
    unfold add_vivaldi, add_chrome, add_brave;
    cbn [vivaldi_streams chrome_streams brave_streams];
    rewrite ?occurrences_snoc; lia.
Qed.

Lemma first_pass_body_exclusive E active_idx active_pid st s t st' i :
  first_pass_body E active_idx active_pid st s = (t, Ok st') ->
  (attributed i st' <= attributed i st + carries i s)%nat.
Proof.
  unfold first_pass_body. destruct (s_id s) as [j |] eqn:Hj.
  - rewrite (carries_id i s Hj).
    destruct (attribute _ _ _ _ _ _ _) as [[b |] st1] eqn:Ha;
      cbn; intros H; inversion H; subst;
      apply (attribute_exclusive _ _ _ _ _ _ _ i) in Ha; exact Ha.
  - cbn. intros H. inversion H; subst. lia.
Qed.

Lemma first_pass_loop_exclusive E active_idx active_pid i streams :
  forall st t st',
    for_each (first_pass_body E active_idx active_pid) streams st = (t, Ok st') ->
    (attributed i st' <= attributed i st + carriers i streams)%nat.
Proof.
  induction streams as [| s l IH]; intros st t st'.
  - cbn. intros H. inversion H; subst. lia.
  - rewrite carriers_cons. cbn [for_each].
    destruct (first_pass_body E active_idx active_pid st s) as [t0 [st1 | x]] eqn:Hb;
      unfold bind; [| discriminate].
    destruct (for_each _ l st1) as [t1 r] eqn:Hl. intros H. inversion H; subst.
    pose proof (first_pass_body_exclusive _ _ _ _ _ i Hb).
    pose proof (IH _ _ _ Hl). lia.
Qed.

Lemma attribution_cases E bw active_idx streams :
  attribution E bw active_idx streams = None \/
  exists w t st,
    py_getitem bw (active_idx - 1) = Some w /\ truthy w = true /\
    (active_idx <=? Z.of_nat (List.length bw)) = true /\
    first_pass E active_idx (window_pid E (get w "")) streams false = (t, Ok st) /\
    attribution E bw active_idx streams = Some st.
Proof.
  unfold attribution, first_attempt.
  destruct (active_idx <=? _) eqn:Hlen; [| now left].
  destruct (py_getitem bw (active_idx - 1)) as [w |] eqn:Hslot; [| now left].
  destruct (truthy w) eqn:Hw; [| now left].
  destruct (first_pass_returns E active_idx (window_pid E (get w "")) streams false)
    as (t1 & st & Hfp).
  destruct (vivaldi_sweep_returns E active_idx st streams) as (t2 & b & Hsw).
  right. exists w, t1, st. repeat split; auto.
  unfold get_window_pid. cbn [bind emit ret app fst snd].
  rewrite Hfp. cbn [bind]. rewrite Hsw. reflexivity.
Qed.

Lemma aggressive_once E active_idx i streams success :
  (volume_sets i (trace_of (aggressive E active_idx streams success))
   <= carriers i streams)%nat.
Proof.
  unfold aggressive. destruct (_ && _); [| cbn; lia].
  apply loop_at_most_once. intros st s. apply aggressive_body_once.
Qed.

(** With browser 3 active the two last stages do nothing. *)
Lemma brave_tail E active_pid streams (success : bool) :
  (last_resort E 3 active_pid streams ;;;
   browser2_special E 3 active_pid streams ;;;
   ret success)%w = ([], Ok success).
Proof. reflexivity. Qed.

Lemma adjust_brave_trace E bw streams t0 success active_pid o :
  first_attempt E bw 3 streams false = (t0, Ok (success, active_pid, o)) ->
  trace_of (adjust_stream_volumes E bw 3 streams)
  = t0 ++ trace_of (aggressive E 3 streams success).
Proof.
  intros H. unfold adjust_stream_volumes. rewrite H. cbn [bind].
  destruct (aggressive E 3 streams success) as [t2 [b | x]]; cbn [bind].
  - rewrite brave_tail. unfold trace_of. cbn. rewrite app_nil_r. reflexivity.
  - reflexivity.
Qed.

(** C4, as amended.  The first loop gives each stream to at most one
    browser: an id occurs in the three per-browser lists together at most as
    often as streams carry it.  With browser 3 active the whole routine sets
    the volume of an id at most as often as streams carry it.  (With browser
    1 or 2 active the later stages set streams again.) *)
Theorem one_browser_per_stream E bw active_idx streams i :
  (occurrences i (given_to E bw active_idx streams 1)
   + occurrences i (given_to E bw active_idx streams 2)
   + occurrences i (given_to E bw active_idx streams 3)
   <= carriers i streams)%nat /\
  (volume_sets i (trace_of (adjust_stream_volumes E bw 3 streams))
   <= carriers i streams)%nat.
Proof.
  split.
  - unfold given_to.
    destruct (attribution_cases E bw active_idx streams)
      as [-> | (w & t & st & _ & _ & _ & Hfp & ->)]; [cbn; lia |].
    cbn [Z.eqb Pos.eqb].
    pose proof (first_pass_loop_exclusive _ _ _ i _ _ Hfp) as H.
    unfold attributed in H. cbn in H. unfold attributed. lia.
  - assert (Hquiet : forall t0 ap o,
              first_attempt E bw 3 streams false = (t0, Ok (false, ap, o)) ->
              volume_sets i t0 = 0%nat ->
              (volume_sets i (trace_of (adjust_stream_volumes E bw 3 streams))
               <= carriers i streams)%nat).
    { intros t0 ap o H H0. rewrite (adjust_brave_trace _ _ _ H), volume_sets_app, H0.
      apply aggressive_once. }
    unfold first_attempt in Hquiet.
    destruct (3 <=? Z.of_nat (List.length bw)) eqn:Hlen;
      [| apply (Hquiet [] None None); reflexivity].
    destruct (py_getitem bw (3 - 1)) as [w |] eqn:Hslot.
    + destruct (truthy w) eqn:Hw; [| apply (Hquiet [] None None); reflexivity].
      destruct (first_pass_returns E 3 (window_pid E (get w "")) streams false)
        as (t1 & st & Hfp).
      assert (Hfa : first_attempt E bw 3 streams false
                    = (GetWindowPid (get w "") :: t1,
                       Ok (success1 st, Some (window_pid E (get w "")), Some st))).
      { unfold first_attempt. rewrite Hlen, Hslot, Hw.
        unfold get_window_pid, vivaldi_sweep.
        cbn [bind emit ret app fst snd Z.eqb Pos.eqb andb].
        rewrite Hfp. cbn. rewrite !app_nil_r. reflexivity. }
      rewrite (adjust_brave_trace _ _ _ Hfa).
      pose proof (first_pass_body_once E 3 (window_pid E (get w "")) i) as Hb.
      pose proof (loop_at_most_once _ i Hb streams (pass1_init false)) as H1.
      fold (first_pass E 3 (window_pid E (get w "")) streams false) in H1.
      rewrite Hfp in H1. unfold trace_of in H1. cbn [fst] in H1.
      destruct (first_pass_loop_success _ _ _ _ _ Hfp) as [_ Hq].
      change (GetWindowPid (get w "") :: t1) with ([GetWindowPid (get w "")] ++ t1).
      rewrite !volume_sets_app.
      change (volume_sets i [GetWindowPid (get w "")]) with 0%nat.
      destruct (success1 st) eqn:Hs.
      * unfold aggressive. cbn. lia.
      * rewrite (Hq eq_refl). pose proof (aggressive_once E 3 i streams false).
        cbn. lia.
    + unfold adjust_stream_volumes, first_attempt. rewrite Hlen, Hslot. cbn. lia.
Qed.

(** C4 as the specification states it fails: with browser 1 active a generic
    stream is given to browser 2 by the first loop and set to 30%, and the
    last resort for Vivaldi then raises the same stream to 100%. *)
Lemma reassigned_stream :
  ~ single_assignment quiet_env [Some "0x1"; None; None] 1 [named "5" "Chromium"].
Proof.
  intros H. apply (H "5" 2); [lia | vm_compute; auto | vm_compute; auto].
Qed.

Example reassigned_stream_trace :
  adjust_stream_volumes quiet_env [Some "0x1"; None; None] 1 [named "5" "Chromium"]
  = ([GetWindowPid "0x1"; SetVol "5" 30; SetVol "5" 100], Ok true).
Proof. vm_compute. reflexivity. Qed.

(* ------------------------------------------------------------------ *)
(** ** [Switcher.activate]: the index test *)

Lemma index_test_fails num :
  ~ (1 <= num <= 3) -> (1 <=? num) && (num <=? 3) = false.
Proof.
  intros H. apply andb_false_iff.
  destruct (Z_le_dec 1 num) as [H1 | H1].
  - right. apply Z.leb_gt. lia.
  - left. apply Z.leb_gt. lia.
Qed.

(** C9.  For every [num] outside 1..3, [activate] returns [False] at once:
    the registry is untouched and no call leaves the process (no focus
    request, no dump, no volume or mute call). *)
Theorem activate_invalid E num reg :
  ~ (1 <= num <= 3) ->
  activate E num reg = (reg, ([], Ok false)).
Proof.
  intros H. unfold activate.
  rewrite (index_test_fails H). cbn [negb].
  unfold retS, ret. reflexivity.
Qed.

Lemma activate_invalid_witness :
  activate moved_env 4 launched = (launched, ([], Ok false)).
Proof. apply activate_invalid. lia. Defined.

(** C5, at the failing input: browser 1 could not be started, another
    application plays one stream, and browser 1 is activated.  The playback
    inventory is not empty, yet [activate] does not return [True]: the
    exception of [adjust_stream_volumes] escapes it. *)
Theorem activate_unbound :
  activate firefox_env 1 not_launched
  = (not_launched,
     ([ListWindows; FocusByTitle "Browser 1"; DumpPlayback; SetVol "5" 30],
      Raise (UnboundLocalError "active_pid"))).
Proof. vm_compute. reflexivity. Qed.

(* ------------------------------------------------------------------ *)
(** ** [Browser.focus]: what it leaves in the registry *)

Lemma length_set_nth (A : Type) (l : list A) k v :
  List.length (set_nth l k v) = List.length l.
Proof. revert k. induction l as [| x r IH]; intros [| k]; cbn; auto. Qed.

Lemma set_nth_twice (A : Type) (l : list A) k v v' :
  set_nth (set_nth l k v) k v' = set_nth l k v'.
Proof.
  revert k. induction l as [| x r IH]; intros [| k]; cbn; auto.
  now rewrite IH.
Qed.

Lemma py_setitem_in_range (A : Type) (l : list A) i v :
  0 <= i < Z.of_nat (List.length l) ->
  py_setitem l i v = Some (set_nth l (Z.to_nat i) v).
Proof.
  intros [H0 H1]. unfold py_setitem.
  apply Z.leb_le in H0. apply Z.ltb_lt in H1. rewrite H0, H1. reflexivity.
Qed.

Lemma run_bindS (St A B : Type) (m : ST St A) (f : A -> ST St B) st s1 t a :
  m st = (s1, (t, Ok a)) ->
  bindS m f st
  = (state_of (f a s1), (t ++ calls_of (f a s1), outcome_of (f a s1))).
Proof.
  intros H. unfold bindS. rewrite H. destruct (f a s1) as [s2 [t' r]]. reflexivity.
Qed.

Lemma in_range_recorded st w : in_range st -> in_range (recorded st w).
Proof. unfold in_range, recorded. cbn. rewrite length_set_nth. auto. Qed.

Lemma recorded_twice st w w' : recorded (recorded st w) w' = recorded st w'.
Proof. unfold recorded. cbn. rewrite set_nth_twice. reflexivity. Qed.

Lemma focus_window_by_id_run E w :
  focus_window_by_id E w
  = ((if truthy w then [FocusById (get w "")] else []),
     Ok (truthy w && focus_ok E (get w ""))).
Proof. unfold focus_window_by_id. destruct (truthy w); reflexivity. Qed.

Lemma record_window_run st w :
  in_range st -> record_window w st = (recorded st w, ([], Ok tt)).
Proof.
  intros Hr. destruct st as [b bw]. unfold in_range in Hr. cbn in Hr.
  unfold record_window, bindS, getS, putS, recorded. cbn.
  rewrite (py_setitem_in_range _ _ Hr). reflexivity.
Qed.

Lemma found_window_run E found st :
  in_range st ->
  found_window E found st
  = if truthy found
    then (recorded st (get found ""),
          ([FocusById (get found "")], Ok (focus_ok E (get found ""))))
    else (st, ([], Ok false)).
Proof.
  intros Hr. unfold found_window. destruct (truthy found) eqn:Hf; [| reflexivity].
  erewrite run_bindS by (apply record_window_run; exact Hr).
  unfold lift, state_of, calls_of, outcome_of. cbn [fst snd app].
  rewrite focus_window_by_id_run, Hf. reflexivity.
Qed.

Lemma strategy_pid_run E st :
  in_range st ->
  strategy_pid E st
  = let p := pid (fst st) in
    if truthy p then
      match window_by_pid E (get p "") with
      | Raise e => (st, ([FindByPid (get p "")], Raise e))
      | Ok found =>
        if truthy found
        then (recorded st (get found ""),
              ([FindByPid (get p ""); FocusById (get found "")],
               Ok (focus_ok E (get found ""))))
        else (st, ([FindByPid (get p "")], Ok false))
      end
    else (st, ([], Ok false)).
Proof.
  intros Hr. unfold strategy_pid, bindS, getS, lift, find_window_by_pid, answer. cbn.
  destruct (truthy (pid (fst st))); [| reflexivity].
  cbn. destruct (window_by_pid E _) as [found | e]; [| reflexivity].
  rewrite (found_window_run E _ Hr).
  destruct (truthy found); reflexivity.
Qed.

Lemma strategy_brave_run E st :
  in_range st ->
  strategy_brave E st
  = let found := window_by_class E "Brave" in
    if mem (lower (exe_name (fst st))) ["brave"; "brave-browser"] then
      if truthy found
      then (recorded st (get found ""),
            ([FindByClass "Brave"; FocusById (get found "")],
             Ok (focus_ok E (get found ""))))
      else (st, ([FindByClass "Brave"], Ok false))
    else (st, ([], Ok false)).
Proof.
  intros Hr. unfold strategy_brave, bindS, getS, lift, find_window_by_class.
  cbn [ret bind emit fst snd app].
  destruct (mem _ _); [| reflexivity].
  cbn. rewrite (found_window_run E _ Hr).
  destruct (truthy (window_by_class E _)); reflexivity.
Qed.

Lemma strategy_xdotool_run E st :
  strategy_xdotool E st
  = (st, ((if truthy (window_id (fst st))
           then [Xdotool (get (window_id (fst st)) "")] else []),
          Ok (truthy (window_id (fst st))
              && xdotool_ok E (get (window_id (fst st)) "")))).
Proof.
  unfold strategy_xdotool, bindS, getS, lift, retS. cbn.
  destruct (truthy (window_id (fst st))); [| reflexivity].
  cbn. destruct (xdotool_ok E _); reflexivity.
Qed.

Lemma applied_app t t' : applied (t ++ t') = applied t ++ applied t'.
Proof. unfold applied. apply filter_app. Qed.

Ltac done_quiet :=
  cbn; eexists _, _; split; [reflexivity |]; split;
  [ repeat match goal with
           | |- context [if ?c then _ else _] => destruct c
           | |- context [match ?x with _ => _ end] => destruct x
           end; reflexivity
  | eauto ].

(** [focus] records no volume or mute call and leaves the state [settled];
    it returns unless the search by pid raises. *)
Lemma focus_run E st :
  in_range st ->
  exists t r, focus E st = (settled E st, (t, r)) /\ applied t = [] /\
              ends_as E st r.
Proof.
  intros Hr. unfold ends_as, focus, settled, focus_raises, focused_early, pid_search.
  unfold bindS at 1. unfold lift at 1. cbn [emit ret].
  unfold bindS at 1. unfold getS at 1. cbn [ret].
  unfold bindS at 1. unfold lift at 1. rewrite focus_window_by_id_run.
  destruct (truthy (window_id (fst st)) && focus_ok E _) eqn:HA; [done_quiet |].
  cbn [orb].
  unfold bindS at 1. unfold lift at 1. unfold focus_by_title. cbn [bind emit ret].
  destruct (title_ok E (title (fst st))) eqn:HT; [done_quiet |].
  unfold bindS at 1. rewrite (strategy_pid_run E Hr). cbv zeta.
  destruct (truthy (pid (fst st))) eqn:Hp; cbn [andb].
  - destruct (window_by_pid E _) as [by_pid | e] eqn:Hw; [| done_quiet].
    destruct (truthy by_pid) eqn:Hf1; cbn [andb].
    + destruct (focus_ok E (get by_pid "")) eqn:Hok1; [done_quiet |].
      unfold bindS at 1.
      rewrite (strategy_brave_run E (in_range_recorded _ Hr)). cbv zeta.
      cbn [recorded fst snd exe_name with_window].
      destruct (mem _ _) eqn:Hb; cbn [andb].
      * destruct (truthy (window_by_class E _)) eqn:Hf2.
        -- fold (recorded st (get by_pid "")).
           rewrite recorded_twice.
           destruct (focus_ok E (get (window_by_class E _) "")) eqn:Hok2;
             [done_quiet | rewrite strategy_xdotool_run; done_quiet].
        -- rewrite strategy_xdotool_run; done_quiet.
      * rewrite strategy_xdotool_run; done_quiet.
    + unfold bindS at 1. rewrite (strategy_brave_run E Hr). cbv zeta.
      destruct (mem _ _) eqn:Hb; cbn [andb].
      * destruct (truthy (window_by_class E _)) eqn:Hf2.
        -- destruct (focus_ok E (get (window_by_class E _) "")) eqn:Hok2;
             [done_quiet | rewrite strategy_xdotool_run; done_quiet].
        -- rewrite strategy_xdotool_run; done_quiet.
      * rewrite strategy_xdotool_run; done_quiet.
  - unfold bindS at 1. rewrite (strategy_brave_run E Hr). cbv zeta.
    destruct (mem _ _) eqn:Hb; cbn [andb].
    + destruct (truthy (window_by_class E _)) eqn:Hf2.
      * destruct (focus_ok E (get (window_by_class E _) "")) eqn:Hok2;
          [done_quiet | rewrite strategy_xdotool_run; done_quiet].
      * rewrite strategy_xdotool_run; done_quiet.
    + rewrite strategy_xdotool_run; done_quiet.
Qed.

Lemma truthy_get o : truthy o = true -> truthy (Some (get o "")) = true.
Proof. destruct o as [[| c r] |]; cbn; auto. Qed.

Ltac split_settled :=
  repeat match goal with
         | |- context [if ?c then _ else _] => destruct c
         | |- context [match ?x with Ok _ => _ | Raise _ => _ end] => destruct x
         end.

Lemma in_range_settled E st : in_range st -> in_range (settled E st).
Proof.
  intros Hr. unfold settled. cbv zeta.
  split_settled; auto using in_range_recorded.
Qed.

Lemma settled_cases E st :
  settled E st = st \/ exists w, settled E st = recorded st w.
Proof.
  unfold settled. cbv zeta. split_settled; eauto.
Qed.

Lemma settled_focused E st :
  (truthy (window_id (fst st)) && focus_ok E (get (window_id (fst st)) ""))
  || title_ok E (title (fst st)) = true ->
  settled E st = st.
Proof. unfold settled, focused_early. cbv zeta. intros ->. reflexivity. Qed.

(** When the search by pid raises, [focus] has written nothing. *)
Lemma settled_raised E st e : focus_raises E st = Some e -> settled E st = st.
Proof.
  unfold focus_raises, settled. cbv zeta.
  destruct (focused_early E (fst st)); [reflexivity |].
  destruct (pid_search E (fst st)); [discriminate | reflexivity].
Qed.

(** A second [focus] finds the state already settled. *)
Lemma settled_idempotent E st : settled E (settled E st) = settled E st.
Proof.
  destruct st as [b bw].
  assert (Hrec : forall w,
            settled E (recorded (b, bw) w)
            = let by_class := window_by_class E "Brave" in
              let class_found :=
                mem (lower (exe_name b)) ["brave"; "brave-browser"] && truthy by_class in
              if (truthy (Some w) && focus_ok E w) || title_ok E (title b)
              then recorded (b, bw) w
              else match pid_search E b with
                   | Raise _ => recorded (b, bw) w
                   | Ok by_pid =>
                     if truthy by_pid && focus_ok E (get by_pid "")
                     then recorded (b, bw) (get by_pid "")
                     else if class_found then recorded (b, bw) (get by_class "")
                     else if truthy by_pid then recorded (b, bw) (get by_pid "")
                     else recorded (b, bw) w
                   end).
  { intros w. unfold settled, focused_early, pid_search.
    cbn [recorded fst snd with_window pid title exe_name window_id get].
    cbv zeta.
    destruct (_ || _); [reflexivity |].
    destruct (if truthy (pid b) then _ else _); [| reflexivity].
    rewrite !recorded_twice. reflexivity. }
  remember (settled E (b, bw)) as s eqn:Hs.
  unfold settled, focused_early in Hs. cbn [fst] in Hs. cbv zeta in Hs.
  destruct (truthy (window_id b) && focus_ok E (get (window_id b) "")) eqn:HA.
  { cbn [orb] in Hs. subst s. unfold settled, focused_early. cbn [fst].
    rewrite HA. reflexivity. }
  destruct (title_ok E (title b)) eqn:HT.
  { cbn [orb] in Hs. subst s. unfold settled, focused_early. cbn [fst].
    rewrite HA, HT. reflexivity. }
  cbn [orb] in Hs.
  destruct (pid_search E b) as [by_pid | e] eqn:HP.
  2: { cbv beta iota in Hs. subst s. unfold settled, focused_early. cbn [fst].
       rewrite HA, HT, HP. reflexivity. }
  cbv beta iota in Hs.
  destruct (truthy by_pid) eqn:Hf1; cbn [andb] in Hs.
  - pose proof (truthy_get _ Hf1) as Hw1.
    destruct (focus_ok E (get by_pid "")) eqn:Hok1.
    + subst s. rewrite Hrec. cbv zeta. rewrite ?Hw1, ?Hok1. reflexivity.
    + destruct (mem (lower (exe_name b)) ["brave"; "brave-browser"]
                && truthy (window_by_class E "Brave")) eqn:HB.
      * subst s. rewrite Hrec. cbv zeta. rewrite ?HP, ?Hf1, ?Hok1, ?HB. cbn [andb orb].
        destruct (truthy (Some _) && focus_ok E (get (window_by_class E "Brave") ""));
          reflexivity.
      * subst s. rewrite Hrec. cbv zeta. rewrite ?HP, ?Hf1, ?Hok1, ?HB, ?Hw1. reflexivity.
  - destruct (mem (lower (exe_name b)) ["brave"; "brave-browser"]
              && truthy (window_by_class E "Brave")) eqn:HB.
    + subst s. rewrite Hrec. cbv zeta. rewrite ?HP, ?Hf1, ?HB. cbn [andb orb].
      destruct (truthy (Some _) && focus_ok E (get (window_by_class E "Brave") ""));
        reflexivity.
    + subst s. unfold settled, focused_early. cbn [fst].
      rewrite HA, HT, HP, Hf1, HB. reflexivity.
Qed.

(** A registry as [Switcher.__init__] builds it, taken apart. *)
Lemma wf_registry_inv reg :
  wf_registry reg ->
  exists b1 b2 b3 w1 w2 w3,
    reg = mkRegistry [b1; b2; b3] [w1; w2; w3] /\
    idx b1 = 1 /\ idx b2 = 2 /\ idx b3 = 3.
Proof.
  destruct reg as [bs bw]. unfold wf_registry. cbn. intros [Hm Hl].
  destruct bs as [| b1 [| b2 [| b3 [| b4 bs]]]]; try discriminate Hm.
  destruct bw as [| w1 [| w2 [| w3 [| w4 bw]]]]; try discriminate Hl.
  inversion Hm. now exists b1, b2, b3, w1, w2, w3.
Qed.

Lemma valid_index num : 1 <= num <= 3 -> num = 1 \/ num = 2 \/ num = 3.
Proof. lia. Qed.

(** [activate] on a valid index: the focus settles the registry, then,
    unless the focus raised, the audio is switched against the settled
    window list. *)
Lemma activate_run E num reg :
  wf_registry reg -> 1 <= num <= 3 ->
  exists b t,
    py_getitem (browsers reg) (num - 1) = Some b /\
    in_range (b, browser_windows reg) /\
    applied t = [] /\
    activate E num reg
    = (mkRegistry (set_nth (browsers reg) (Z.to_nat (num - 1))
                           (fst (settled E (b, browser_windows reg))))
                  (snd (settled E (b, browser_windows reg))),
       (t ++ trace_of (after_focus E (b, browser_windows reg) num),
        result_of (after_focus E (b, browser_windows reg) num))).
Proof.
  intros Hwf Hnum.
  destruct (wf_registry_inv Hwf) as (b1 & b2 & b3 & w1 & w2 & w3 & -> & H1 & H2 & H3).
  assert (Hb : exists b, py_getitem [b1; b2; b3] (num - 1) = Some b /\ idx b = num).
  { destruct (valid_index Hnum) as [-> | [-> | ->]];
      [exists b1 | exists b2 | exists b3]; (split; [reflexivity | assumption]). }
  destruct Hb as (b & Hget & Hidx).
  assert (Hr : in_range (b, [w1; w2; w3])).
  { unfold in_range. cbn. lia. }
  destruct (focus_run E Hr) as (t & r & Hf & Hq & He).
  exists b, t. cbn [browsers browser_windows].
  split; [exact Hget | split; [exact Hr | split; [exact Hq |]]].
  unfold activate.
  assert (Hv : (1 <=? num) && (num <=? 3) = true).
  { apply andb_true_iff. split; apply Z.leb_le; lia. }
  rewrite Hv. cbn [negb].
  unfold bindS at 1. unfold on_browser. cbn [browsers browser_windows].
  rewrite Hget, Hf.
  unfold ends_as in He. unfold after_focus.
  destruct (settled E (b, [w1; w2; w3])) as [b' bw'] eqn:Hs.
  assert (Hset : py_setitem [b1; b2; b3] (num - 1) b'
                 = Some (set_nth [b1; b2; b3] (Z.to_nat (num - 1)) b')).
  { apply py_setitem_in_range. cbn. lia. }
  rewrite Hset.
  destruct (focus_raises E (b, [w1; w2; w3])) as [e |].
  - subst r. cbn. rewrite app_nil_r. reflexivity.
  - destruct He as (a & ->).
    unfold bindS, getS, lift. cbn [ret fst snd browser_windows].
    destruct (switch_audio E bw' num) as [t' r']. cbn. rewrite ?app_nil_r. reflexivity.
Qed.

(** The search by pid raises for the settled state exactly when it did
    for the state before. *)
Lemma focus_raises_settled E st :
  focus_raises E (settled E st) = focus_raises E st.
Proof.
  destruct (focus_raises E st) as [e |] eqn:Hraise.
  - rewrite (settled_raised _ _ Hraise). exact Hraise.
  - destruct (focused_early E (fst st)) eqn:Hearly.
    + unfold settled. cbv zeta. rewrite Hearly. exact Hraise.
    + destruct (settled_cases E st) as [-> | (w & ->)]; [exact Hraise |].
      unfold focus_raises in *. rewrite Hearly in Hraise.
      destruct (focused_early E (fst (recorded st w))); [reflexivity |].
      exact Hraise.
Qed.

Lemma after_focus_settled E st num :
  after_focus E (settled E st) num = after_focus E st num.
Proof.
  unfold after_focus. now rewrite focus_raises_settled, settled_idempotent.
Qed.

Lemma py_getitem_in_range (A : Type) (l : list A) i :
  0 <= i < Z.of_nat (List.length l) ->
  py_getitem l i = nth_error l (Z.to_nat i).
Proof.
  intros [H0 H1]. unfold py_getitem.
  apply Z.leb_le in H0. apply Z.ltb_lt in H1. rewrite H0, H1. reflexivity.
Qed.

Lemma py_getitem_some (A : Type) (l : list A) i x :
  0 <= i -> py_getitem l i = Some x -> nth_error l (Z.to_nat i) = Some x.
Proof.
  intros H0. unfold py_getitem.
  destruct (0 <=? i) eqn:Hle; [| lia].
  destruct (i <? Z.of_nat (List.length l)); cbn; [auto |].
  destruct (_ && _) eqn:Hc; [| discriminate]. lia.
Qed.

Lemma nth_error_set_nth_same (A : Type) (l : list A) k v x :
  nth_error l k = Some x -> nth_error (set_nth l k v) k = Some v.
Proof.
  revert k. induction l as [| y r IH]; intros [| k]; cbn; try discriminate; auto.
Qed.

Lemma nth_error_set_nth_other (A : Type) (l : list A) k k' v :
  k <> k' -> nth_error (set_nth l k v) k' = nth_error l k'.
Proof.
  revert k k'. induction l as [| y r IH]; intros [| k] [| k'] H; cbn; auto.
  - congruence.
Qed.

Lemma map_set_nth (A B : Type) (f : A -> B) (l : list A) k v :
  map f (set_nth l k v) = set_nth (map f l) k (f v).
Proof.
  revert k. induction l as [| y r IH]; intros [| k]; cbn; auto.
  now rewrite IH.
Qed.

Lemma set_nth_same (A : Type) (l : list A) k v :
  nth_error l k = Some v -> set_nth l k v = l.
Proof.
  revert k. induction l as [| y r IH]; intros [| k]; cbn; try discriminate; auto.
  - intros H. inversion H. reflexivity.
  - intros H. now rewrite IH.
Qed.

Lemma map_set_nth_same (A B : Type) (f : A -> B) (l : list A) k v x :
  nth_error l k = Some x -> f v = f x -> map f (set_nth l k v) = map f l.
Proof.
  intros Hx Hf. rewrite map_set_nth, Hf. apply set_nth_same.
  now apply map_nth_error.
Qed.

(** [focus] writes the window id and nothing else of the browser; the
    global list keeps its length. *)
Lemma settled_shape E st :
  idx (fst (settled E st)) = idx (fst st) /\
  pid (fst (settled E st)) = pid (fst st) /\
  List.length (snd (settled E st)) = List.length (snd st).
Proof.
  destruct (settled_cases E st) as [-> | (w & ->)]; [auto |].
  unfold recorded. cbn. rewrite length_set_nth. auto.
Qed.

(** C6.  Two activations of the same index in a row, the desktop answering
    the same way both times: the second leaves the registry as the first
    left it, applies the same volume and mute calls in the same order, and
    ends the same way. *)
Theorem activate_idempotent E num reg :
  wf_registry reg ->
  let first := activate E num reg in
  let second := activate E num (state_of first) in
  state_of second = state_of first /\
  applied (calls_of second) = applied (calls_of first) /\
  outcome_of second = outcome_of first.
Proof.
  intros Hwf. cbv zeta.
  assert (Hcase : 1 <= num <= 3 \/ ~ (1 <= num <= 3)) by lia.
  destruct Hcase as [Hnum | Hbad].
  2: { assert (Hout : forall r, activate E num r = (r, ([], Ok false))).
       { intros r. unfold activate. rewrite (index_test_fails Hbad). reflexivity. }
       rewrite !Hout. unfold state_of. cbn [fst]. rewrite ?Hout. auto. }
  destruct (activate_run E Hwf Hnum) as (b & t & Hget & Hr & Hq & Hrun).
  assert (Hnth : nth_error (browsers reg) (Z.to_nat (num - 1)) = Some b)
    by (apply py_getitem_some; [lia | exact Hget]).
  destruct (settled_shape E (b, browser_windows reg)) as (Hidx & _ & Hlen).
  pose proof (settled_idempotent E (b, browser_windows reg)) as Hidem.
  pose proof (after_focus_settled E (b, browser_windows reg) num) as Hafter.
  destruct (settled E (b, browser_windows reg)) as [b' bw'] eqn:Hs.
  cbn [fst snd] in *.
  set (reg1 := mkRegistry (set_nth (browsers reg) (Z.to_nat (num - 1)) b') bw') in *.
  assert (Hwf1 : wf_registry reg1).
  { destruct Hwf as [Hm Hl]. split; cbn [reg1 browsers browser_windows].
    - erewrite map_set_nth_same; [exact Hm | exact Hnth | exact Hidx].
    - rewrite Hlen. exact Hl. }
  destruct (activate_run E Hwf1 Hnum) as (b2 & t2 & Hget2 & _ & Hq2 & Hrun2).
  assert (Hb2 : b2 = b').
  { apply py_getitem_some in Hget2; [| lia]. cbn [reg1 browsers] in Hget2.
    erewrite nth_error_set_nth_same in Hget2 by exact Hnth. congruence. }
  subst b2. cbn [reg1 browsers browser_windows] in Hrun2.
  rewrite Hidem, Hafter in Hrun2. cbn [fst snd] in Hrun2.
  rewrite set_nth_twice in Hrun2.
  rewrite Hrun. unfold state_of, calls_of, outcome_of. cbn [fst snd].
  fold reg1. rewrite Hrun2. cbn [fst snd].
  rewrite !applied_app, Hq, Hq2. auto.
Qed.

Lemma activate_idempotent_witness :
  let first := activate moved_env 1 launched in
  let second := activate moved_env 1 (state_of first) in
  state_of second = state_of first /\
  applied (calls_of second) = applied (calls_of first) /\
  outcome_of second = outcome_of first.
Proof. apply activate_idempotent. split; reflexivity. Defined.

(** C7, as amended.  An activation never writes a pid, and writes neither
    the window id nor the window slot of a browser other than the one it
    activates.  It leaves the whole registry as it was when the recorded
    window or the title takes the focus; otherwise [focus] may record a
    window id again (lines 767-768 and 777-778). *)
Theorem registry_after_activate E num reg b :
  wf_registry reg -> 1 <= num <= 3 ->
  py_getitem (browsers reg) (num - 1) = Some b ->
  let reg' := state_of (activate E num reg) in
  map pid (browsers reg') = map pid (browsers reg) /\
  (forall k, k <> Z.to_nat (num - 1) ->
     nth_error (browsers reg') k = nth_error (browsers reg) k /\
     nth_error (browser_windows reg') k = nth_error (browser_windows reg) k) /\
  ((truthy (window_id b) && focus_ok E (get (window_id b) ""))
   || title_ok E (title b) = true -> reg' = reg).
Proof.
  intros Hwf Hnum Hget. cbv zeta.
  destruct (activate_run E Hwf Hnum) as (b0 & t & Hget0 & Hr & _ & Hrun).
  assert (b0 = b) by congruence. subst b0.
  assert (Hnth : nth_error (browsers reg) (Z.to_nat (num - 1)) = Some b)
    by (apply py_getitem_some; [lia | exact Hget]).
  rewrite Hrun. unfold state_of. cbn [fst browsers browser_windows].
  assert (Hidx : idx b = num).
  { destruct (wf_registry_inv Hwf) as (b1 & b2 & b3 & w1 & w2 & w3 & -> & I1 & I2 & I3).
    cbn [browsers] in Hnth.
    destruct (valid_index Hnum) as [-> | [-> | ->]]; vm_compute in Hnth; congruence. }
  split; [| split].
  - destruct (settled_shape E (b, browser_windows reg)) as (_ & Hpid & _).
    erewrite map_set_nth_same; [reflexivity | exact Hnth | exact Hpid].
  - intros k Hk. split.
    + apply nth_error_set_nth_other. auto.
    + destruct (settled_cases E (b, browser_windows reg)) as [-> | (w & ->)];
        [reflexivity |].
      unfold recorded. cbn [fst snd]. rewrite Hidx.
      apply nth_error_set_nth_other. auto.
  - intros Hfocused.
    rewrite (settled_focused E (b, browser_windows reg) Hfocused). cbn [fst snd].
    rewrite (set_nth_same _ _ Hnth). destruct reg; reflexivity.
Qed.

Lemma registry_after_activate_witness :
  let reg' := state_of (activate moved_env 1 launched) in
  map pid (browsers reg') = map pid (browsers launched) /\
  (forall k, k <> Z.to_nat (1 - 1) ->
     nth_error (browsers reg') k = nth_error (browsers launched) k /\
     nth_error (browser_windows reg') k = nth_error (browser_windows launched) k) /\
  ((truthy (Some "0x1") && focus_ok moved_env (get (Some "0x1") ""))
   || title_ok moved_env "Browser 1" = true -> reg' = launched).
Proof.
  apply (@registry_after_activate moved_env 1 launched
           (mkBrowser 1 "Browser 1" "vivaldi-stable" (Some "100") (Some "0x1"))).
  - split; reflexivity.
  - lia.
  - reflexivity.
Defined.

(** C7 as the specification states it fails: the window recorded at launch
    for browser 1 cannot be focused any more, [focus] finds another window
    of the same process and records it, in the object and in the global
    list. *)
Lemma window_id_rewritten : ~ registry_unchanged moved_env 1 launched.
Proof.
  unfold registry_unchanged. vm_compute. intros (H & _). discriminate H.
Qed.

(* ------------------------------------------------------------------ *)
(** ** The capture fallback for browser 1 *)

Lemma first_match_index active_idx a b i :
  first_match (mic_browser_names active_idx) a b = Some i ->
  i = 1 \/ i = 2 \/ i = 3.
Proof.
  unfold mic_browser_names.
  destruct (active_idx =? 1); cbn [first_match];
    repeat match goal with
           | |- context [if ?c then _ else _] => destruct c
           end; intros H; inversion H; auto.
Qed.

Lemma mic_append_returns i sid st :
  i = 1 \/ i = 2 \/ i = 3 ->
  exists st', mic_append i sid st = ([], Ok st') /\
              chromium_streams st' = chromium_streams st.
Proof.
  intros [-> | [-> | ->]]; unfold mic_append; cbn [Z.eqb Pos.eqb];
    eexists; (split; [reflexivity | reflexivity]).
Qed.







(* ------------------------------------------------------------------ *)
(** ** The dump parsers *)

Lemma property_line_id media line d : s_id (property_line media line d) = s_id d.
Proof.
  unfold property_line, store.
  repeat match goal with
         | |- context [if ?c then _ else _] => destruct c
         | |- context [match ?x with _ => _ end] => destruct x
         end; reflexivity.
Qed.

Lemma read_properties_id media body : forall d,
  s_id (read_properties media body d) = s_id d.
Proof.
  unfold read_properties. induction body as [| l r IH]; intros d; cbn; [reflexivity |].
  rewrite IH. apply property_line_id.
Qed.

Lemma flush_with_id streams d i : s_id d = Some i -> flush streams d = streams ++ [d].
Proof. unfold flush. intros ->. reflexivity. Qed.

(** The loop over the lines, from any state, against the block structure. *)
Lemma parse_lines_blocks header media lines : forall streams current,
  flush (fst (fold_left (parse_line header media) lines (streams, current)))
        (snd (fold_left (parse_line header media) lines (streams, current)))
  = flush streams
      (read_properties media (fst (blocks header (map strip lines))) current)
    ++ map (record_of_block media) (snd (blocks header (map strip lines))).
Proof.
  induction lines as [| l r IH]; intros streams current.
  - cbn. now rewrite app_nil_r.
  - cbn [fold_left map blocks]. unfold parse_line at 2 4.
    destruct (blocks header (map strip r)) as [pre bs] eqn:Hb.
    destruct (startswith header (strip l)) eqn:Hh.
    + rewrite IH, ?Hb. cbn [fst snd map].
      rewrite (flush_with_id _ (read_properties media pre _) (i := header_id (strip l)))
        by (rewrite read_properties_id; reflexivity).
      unfold record_of_block. cbn [fst snd read_properties fold_left].
      rewrite <- app_assoc. reflexivity.
    + rewrite IH, ?Hb. reflexivity.
Qed.

Lemma parse_dump_blocks header media txt :
  parse_dump header media txt
  = map (record_of_block media) (snd (blocks header (stripped_lines txt))).
Proof.
  unfold parse_dump, stripped_lines.
  pose proof (parse_lines_blocks header media (splitlines txt) [] empty_stream) as H.
  destruct (fold_left _ _ _) as [streams current]. cbn [fst snd] in H.
  rewrite H. unfold flush. rewrite read_properties_id. reflexivity.
Qed.

Lemma blocks_headers header lines :
  map fst (snd (blocks header lines)) = filter (startswith header) lines.
Proof.
  induction lines as [| l r IH]; [reflexivity |].
  cbn [blocks filter]. destruct (blocks header r) as [pre bs].
  destruct (startswith header l); cbn in *; now rewrite ?IH.
Qed.

Lemma record_of_block_id media blk :
  s_id (record_of_block media blk) = Some (header_id (fst blk)).
Proof. unfold record_of_block. rewrite read_properties_id. reflexivity. Qed.


Lemma split_on_first sep cur s d :
  nth 0 (split_on sep cur s) d
  = (cur ++ fst (span (fun c => negb (Ascii.eqb c sep)) s))%string.
Proof.
  revert cur. induction s as [| c r IH]; intros cur; cbn [split_on span].
  - cbn. induction cur as [| x cur IHc]; cbn; congruence.
  - destruct (Ascii.eqb c sep) eqn:Hc; cbn [negb].
    + cbn. induction cur as [| x cur IHc]; cbn; congruence.
    + rewrite IH. destruct (span _ r) as [a b]. cbn [fst].
      clear. induction cur as [| x cur IHc]; cbn; congruence.
Qed.




Ltac split_property line media :=
  unfold property_line, store;
  destruct (contains "application.name" line && contains "=" line),
           (contains "application.process.binary" line),
           (media && contains "media.name" line),
           (contains "application.process.id" line),
           (PAT_APP_NAME line), (PAT_APP_PROCESS line),
           (PAT_MEDIA_NAME line), (PAT_APP_PID line).

Section Field.

(** A field of the record, read by [f]; what a line stores in it does not
    depend on the record it is stored in. *)
Variable media : bool.
Variable f : stream -> option string.
Hypothesis f_line : forall line d,
  f (property_line media line d)
  = match f (property_line media line empty_stream) with
    | Some v => Some v
    | None => f d
    end.

Lemma field_origin body : forall d v,
  f (read_properties media body d) = Some v ->
  f d = Some v \/
  exists line, In line body /\ f (property_line media line empty_stream) = Some v.
Proof.
  unfold read_properties. induction body as [| l r IH]; intros d v; cbn [fold_left].
  - auto.
  - intros H. apply IH in H. destruct H as [H | (line & Hin & H)].
    + rewrite f_line in H.
      destruct (f (property_line media l empty_stream)) as [u |] eqn:Hl.
      * right. exists l. split; [now left | congruence].
      * now left.
    + right. exists line. split; [now right | exact H].
Qed.



End Field.

Lemma app_name_line media line d :
  s_app_name (property_line media line d)
  = match s_app_name (property_line media line empty_stream) with
    | Some v => Some v
    | None => s_app_name d
    end.
Proof. split_property line media; reflexivity. Qed.

Lemma binary_line media line d :
  s_binary (property_line media line d)
  = match s_binary (property_line media line empty_stream) with
    | Some v => Some v
    | None => s_binary d
    end.
Proof. split_property line media; reflexivity. Qed.

Lemma pid_line media line d :
  s_pid (property_line media line d)
  = match s_pid (property_line media line empty_stream) with
    | Some v => Some v
    | None => s_pid d
    end.
Proof. split_property line media; reflexivity. Qed.

Lemma app_name_stored media line v :
  s_app_name (property_line media line empty_stream) = Some v ->
  contains "application.name" line = true /\ PAT_APP_NAME line = Some v.
Proof.
  unfold property_line, store.
  destruct (contains "application.name" line); cbn [andb].
  - destruct (contains "=" line).
    + destruct (PAT_APP_NAME line); cbn; [intros H; inversion H; auto | discriminate].
    + repeat match goal with
             | |- context [if ?c then _ else _] => destruct c
             | |- context [match ?x with _ => _ end] => destruct x
             end; cbn; discriminate.
  - repeat match goal with
           | |- context [if ?c then _ else _] => destruct c
           | |- context [match ?x with _ => _ end] => destruct x
           end; cbn; discriminate.
Qed.

Lemma binary_stored media line v :
  s_binary (property_line media line empty_stream) = Some v ->
  contains "application.process.binary" line = true /\ PAT_APP_PROCESS line = Some v.
Proof.
  unfold property_line, store.
  destruct (contains "application.name" line && contains "=" line).
  { destruct (PAT_APP_NAME line); cbn; discriminate. }
  destruct (contains "application.process.binary" line).
  { destruct (PAT_APP_PROCESS line); cbn; [intros H; inversion H; auto | discriminate]. }
  repeat match goal with
         | |- context [if ?c then _ else _] => destruct c
         | |- context [match ?x with _ => _ end] => destruct x
         end; cbn; discriminate.
Qed.

Lemma pid_stored media line v :
  s_pid (property_line media line empty_stream) = Some v ->
  contains "application.process.id" line = true /\ PAT_APP_PID line = Some v.
Proof.
  unfold property_line, store.
  destruct (contains "application.name" line && contains "=" line).
  { destruct (PAT_APP_NAME line); cbn; discriminate. }
  destruct (contains "application.process.binary" line).
  { destruct (PAT_APP_PROCESS line); cbn; discriminate. }
  destruct (media && contains "media.name" line).
  { destruct (PAT_MEDIA_NAME line); cbn; discriminate. }
  destruct (contains "application.process.id" line); [| cbn; discriminate].
  destruct (PAT_APP_PID line); cbn; [intros H; inversion H; auto | discriminate].
Qed.

Lemma fields_from_lines_holds media : fields_from_lines media.
Proof.
  intros h body. cbv zeta. unfold record_of_block. cbn [fst snd].
  split; [| split]; intros v H.
  - apply (@field_origin media s_app_name (app_name_line media)) in H.
    destruct H as [H | (line & Hin & H)]; [discriminate H |].
    exists line. split; [exact Hin | exact (app_name_stored _ _ H)].
  - apply (@field_origin media s_binary (binary_line media)) in H.
    destruct H as [H | (line & Hin & H)]; [discriminate H |].
    exists line. split; [exact Hin | exact (binary_stored _ _ H)].
  - apply (@field_origin media s_pid (pid_line media)) in H.
    destruct H as [H | (line & Hin & H)]; [discriminate H |].
    exists line. split; [exact Hin | exact (pid_stored _ _ H)].
Qed.




Lemma parse_empty header media : parse_dump header media "" = [].
Proof. reflexivity. Qed.


(* ------------------------------------------------------------------ *)
(** ** [Switcher.activate]: what it returns when the attribution returns *)

Ltac playback_body :=
  repeat (match goal with
          | |- context [match s_id ?s with _ => _ end] => destruct (s_id s)
          | |- context [if ?c then _ else _] => destruct c
          | |- context [read_local _ ?v] => destruct v
          end; cbn);
  cbn; intros ? ?;
  repeat match goal with
         | H : _ \/ _ |- _ => destruct H
         | H : False |- _ => destruct H
         | H : _ = ?x |- not_capture ?x => rewrite <- H
         end; exact I.

Lemma loop_not_capture (St : Type) (body : St -> stream -> W St) streams st :
  (forall st s e, In e (trace_of (body st s)) -> not_capture e) ->
  forall e, In e (trace_of (for_each body streams st)) -> not_capture e.
Proof.
  intros Hb. apply (for_each_inv (fun _ => True) not_capture); [| exact I].
  intros st' s _ _. split; [apply Hb | auto].
Qed.

Lemma first_pass_body_not_capture E active_idx active_pid st s e :
  In e (trace_of (first_pass_body E active_idx active_pid st s)) -> not_capture e.
Proof.
  revert e. unfold first_pass_body.
  destruct (s_id s); [| intros e []].
  destruct (attribute _ _ _ _ _ _ _) as [[b |] st1]; cbn; intros e He;
    repeat match goal with
           | H : _ \/ _ |- _ => destruct H
           | H : False |- _ => destruct H
           | H : _ = ?x |- not_capture ?x => rewrite <- H
           end; exact I.
Qed.

Lemma adjust_stream_volumes_not_capture E bw active_idx streams e :
  In e (trace_of (adjust_stream_volumes E bw active_idx streams)) -> not_capture e.
Proof.
  unfold adjust_stream_volumes. intros H.
  apply trace_bind in H. destruct H as [H | ([[success active_pid] o] & _ & H)].
  - unfold first_attempt in H.
    destruct (active_idx <=? _); [| destruct H].
    destruct (py_getitem bw (active_idx - 1)) as [w |]; [| destruct H].
    destruct (truthy w); [| destruct H].
    apply trace_bind in H. destruct H as [[<- | []] | (ap & _ & H)]; [exact I |].
    apply trace_bind in H. destruct H as [H | (st & _ & H)].
    { revert H. apply loop_not_capture. intros ? ? ?.
      apply first_pass_body_not_capture. }
    apply trace_bind in H. destruct H as [H | (b & _ & [])].
    unfold vivaldi_sweep in H. destruct (_ && _); [| destruct H].
    revert H. apply loop_not_capture. intros st' s. unfold vivaldi_sweep_body.
    playback_body.
  - apply trace_bind in H. destruct H as [H | (success' & _ & H)].
    { unfold aggressive in H. destruct (_ && _); [| destruct H].
      revert H. apply loop_not_capture. intros st' s. unfold aggressive_body.
      playback_body. }
    apply trace_bind in H. destruct H as [H | (x & _ & H)].
    { unfold last_resort in H. destruct (_ && _); [| destruct H].
      apply trace_bind in H. destruct H as [H | (vf & _ & H)].
      { revert H. apply loop_not_capture. intros st' s.
        unfold definite_vivaldi_body. playback_body. }
      apply trace_bind in H. destruct H as [H | (vf' & _ & H)].
      - destruct (negb vf); [| destruct H].
        apply trace_bind in H. destruct H as [H | (p & _ & H)].
        + destruct active_pid; destruct H.
        + destruct (truthy p); [| destruct H].
          revert H. apply loop_not_capture. intros st' s.
          unfold pid_vivaldi_body. playback_body.
      - destruct (negb vf'); [| destruct H].
        apply trace_bind in H. destruct H as [H | (y & _ & [])].
        revert H. apply loop_not_capture. intros st' s.
        unfold first_chromium_body. playback_body. }
    apply trace_bind in H. destruct H as [H | (y & _ & [])].
    unfold browser2_special in H. destruct (_ && _); [| destruct H].
    apply trace_bind in H. destruct H as [H | (z & _ & H)].
    + revert H. apply loop_not_capture. intros st' s.
      unfold chromium_down_body. playback_body.
    + revert H. apply loop_not_capture. intros st' s.
      unfold chrome_up_body. playback_body.
Qed.

Lemma list_audio_streams_run E :
  list_audio_streams E
  = ([DumpPlayback], Ok (parse_dump "Sink Input #" true (playback_dump E))).
Proof. reflexivity. Qed.

Lemma list_microphone_streams_run E :
  list_microphone_streams E
  = ([DumpCapture], Ok (parse_dump "Source Output #" false (capture_dump E))).
Proof. unfold list_microphone_streams. destruct (capture_dump E); reflexivity. Qed.

(** When the audio part of [activate] returns, it returns whether the
    playback inventory holds a stream. *)
Lemma switch_audio_result E bw num r :
  result_of (switch_audio E bw num) = Ok r ->
  r = nonempty (parse_dump "Sink Input #" true (playback_dump E)).
Proof.
  unfold switch_audio. rewrite list_audio_streams_run. intros H.
  apply result_bind in H. destruct H as (streams & Hs & H).
  cbn in Hs. inversion Hs; subst streams. clear Hs.
  apply result_bind in H. destruct H as (u & _ & H).
  destruct (nonempty _); cbn in H; congruence.
Qed.

(** With an empty capture inventory the audio part of [activate] makes no
    call on a capture stream. *)
Lemma switch_audio_skips_capture E bw num e :
  parse_dump "Source Output #" false (capture_dump E) = [] ->
  In e (trace_of (switch_audio E bw num)) -> not_capture e.
Proof.
  intros Hempty. unfold switch_audio.
  rewrite list_audio_streams_run, list_microphone_streams_run, Hempty.
  intros H. apply trace_bind in H. destruct H as [[<- | []] | (streams & _ & H)];
    [exact I |].
  apply trace_bind in H. destruct H as [H | (u & _ & H)].
  - destruct (nonempty streams); [| destruct H].
    apply trace_bind in H. destruct H as [H | (b & _ & H)].
    + exact (adjust_stream_volumes_not_capture _ _ _ _ _ H).
    + cbn in H. destruct H as [<- | []]. exact I.
  - destruct (nonempty streams); destruct H.
Qed.

(** What holds of [activate] on a valid index whatever the focus does: if
    it returns, it returns whether the playback inventory holds a stream;
    and with an empty capture inventory it makes no call on a capture
    stream. *)
Lemma activate_result E num reg :
  wf_registry reg -> 1 <= num <= 3 ->
  (forall r, outcome_of (activate E num reg) = Ok r ->
             r = nonempty (parse_dump "Sink Input #" true (playback_dump E))) /\
  (parse_dump "Source Output #" false (capture_dump E) = [] ->
   forall i m, ~ In (SetMute i m) (calls_of (activate E num reg))).
Proof.
  intros Hwf Hnum.
  destruct (activate_run E Hwf Hnum) as (b & t & _ & _ & Hq & Hrun).
  rewrite Hrun. unfold outcome_of, calls_of, after_focus. cbn [fst snd]. split.
  - intros r. destruct (focus_raises E _); [discriminate |].
    apply switch_audio_result.
  - intros Hempty i m Hin. apply in_app_or in Hin. destruct Hin as [Hin | Hin].
    + assert (Ha : In (SetMute i m) (applied t)).
      { unfold applied. apply filter_In. split; [exact Hin | reflexivity]. }
      rewrite Hq in Ha. destruct Ha.
    + destruct (focus_raises E _); [destruct Hin |].
      exact (switch_audio_skips_capture _ _ _ _ Hempty Hin).
Qed.

(* ------------------------------------------------------------------ *)
(** ** The playback routine: what it records *)

Ltac own_volume_call s i Hin Hi :=
  cbn; intros ? ?;
  repeat match goal with
         | H : _ \/ _ |- _ => destruct H
         | H : False |- _ => destruct H
         | H : _ = ?x |- playback_call _ ?x =>
           rewrite <- H; right; exists s, i; eexists;
           (split; [exact Hin | split; [exact Hi | split; [reflexivity |]]]);
           auto
         end.

Ltac playback_loop streams :=
  apply (for_each_inv (fun _ => True) (playback_call streams)); [| exact I];
  let st := fresh "st" in let s := fresh "s" in
  let Hin := fresh "Hin" in
  intros st s Hin _; split; [| auto].

Lemma first_pass_calls E active_idx active_pid streams success e :
  In e (trace_of (first_pass E active_idx active_pid streams success)) ->
  playback_call streams e.
Proof.
  revert e. unfold first_pass. playback_loop streams.
  unfold first_pass_body. destruct (s_id s) as [i |] eqn:Hi; [| intros ? []].
  destruct (attribute _ _ _ _ _ _ _) as [[b |] st1]; [| intros ? []].
  destruct (b =? active_idx); own_volume_call s i Hin Hi.
Qed.

Ltac split_body s i Hin Hi :=
  repeat (match goal with
          | |- context [if ?c then _ else _] => destruct c
          | |- context [read_local _ ?v] => destruct v
          end; cbn [read_local bind ret raise]);
  own_volume_call s i Hin Hi.

Lemma playback_calls_listed E bw active_idx streams e :
  In e (trace_of (adjust_stream_volumes E bw active_idx streams)) ->
  playback_call streams e.
Proof.
  unfold adjust_stream_volumes. intros H.
  apply trace_bind in H. destruct H as [H | ([[success active_pid] o] & _ & H)].
  - unfold first_attempt in H.
    destruct (active_idx <=? _); [| destruct H].
    destruct (py_getitem bw (active_idx - 1)) as [w |]; [| destruct H].
    destruct (truthy w); [| destruct H].
    apply trace_bind in H. destruct H as [[<- | []] | (ap & _ & H)];
      [left; eexists; reflexivity |].
    apply trace_bind in H. destruct H as [H | (st & _ & H)].
    { exact (first_pass_calls _ _ _ _ _ _ H). }
    apply trace_bind in H. destruct H as [H | (b & _ & [])].
    unfold vivaldi_sweep in H. destruct (_ && _); [| destruct H].
    revert e H. playback_loop streams. unfold vivaldi_sweep_body.
    destruct (s_id s) as [i |] eqn:Hi; [| intros ? []]. split_body s i Hin Hi.
  - apply trace_bind in H. destruct H as [H | (success' & _ & H)].
    { unfold aggressive in H. destruct (_ && _); [| destruct H].
      revert e H. playback_loop streams. unfold aggressive_body.
      destruct (s_id s) as [i |] eqn:Hi; [| intros ? []]. split_body s i Hin Hi. }
    apply trace_bind in H. destruct H as [H | (x & _ & H)].
    { unfold last_resort in H. destruct (_ && _); [| destruct H].
      apply trace_bind in H. destruct H as [H | (vf & _ & H)].
      { revert e H. playback_loop streams. unfold definite_vivaldi_body.
        destruct (s_id s) as [i |] eqn:Hi; [| intros ? []]. split_body s i Hin Hi. }
      apply trace_bind in H. destruct H as [H | (vf' & _ & H)].
      - destruct (negb vf); [| destruct H].
        apply trace_bind in H. destruct H as [H | (p & _ & H)].
        + destruct active_pid; destruct H.
        + destruct (truthy p); [| destruct H].
          revert e H. playback_loop streams. unfold pid_vivaldi_body.
          destruct (s_id s) as [i |] eqn:Hi; [| intros ? []]. split_body s i Hin Hi.
      - destruct (negb vf'); [| destruct H].
        apply trace_bind in H. destruct H as [H | (y & _ & [])].
        revert e H. playback_loop streams. unfold first_chromium_body.
        destruct (s_id s) as [i |] eqn:Hi; [| intros ? []]. split_body s i Hin Hi. }
    apply trace_bind in H. destruct H as [H | (y & _ & [])].
    unfold browser2_special in H. destruct (_ && _); [| destruct H].
    apply trace_bind in H. destruct H as [H | (z & _ & H)].
    + revert e H. playback_loop streams. unfold chromium_down_body.
      destruct (s_id s) as [i |] eqn:Hi; [| intros ? []]. split_body s i Hin Hi.
    + revert e H. playback_loop streams. unfold chrome_up_body.
      destruct (s_id s) as [i |] eqn:Hi; [| intros ? []]. split_body s i Hin Hi.
Qed.

(** X1.  Every call of the playback routine is the pid query or a volume
    call, at 100 or 30, on the id of a stream of the inventory. *)
Theorem playback_calls_on_inventory E bw active_idx streams e :
  In e (trace_of (adjust_stream_volumes E bw active_idx streams)) ->
  playback_call streams e.
Proof. apply playback_calls_listed. Qed.

Lemma playback_calls_on_inventory_witness :
  playback_call [named "5" "Firefox"] (SetVol "5" 30).
Proof.
  apply (@playback_calls_on_inventory quiet_env [None; None; Some "0x3"] 3
           [named "5" "Firefox"] (SetVol "5" 30)).
  vm_compute. auto.
Defined.

(* ------------------------------------------------------------------ *)
(** ** The playback routine: what it returns *)

Lemma bind_inv (A B : Type) (m : W A) (f : A -> W B) t b :
  bind m f = (t, Ok b) ->
  exists t1 a t2, m = (t1, Ok a) /\ f a = (t2, Ok b) /\ t = t1 ++ t2.
Proof.
  destruct m as [t1 [a | x]]; unfold bind; [| discriminate].
  destruct (f a) as [t2 r] eqn:Hf. intros H. inversion H; subst.
  now exists t1, a, t2.
Qed.

Lemma sets_a_volume_app_l t t' : sets_a_volume t -> sets_a_volume (t ++ t').
Proof. intros (i & p & H). exists i, p. apply in_or_app. now left. Qed.

Lemma sets_a_volume_app_r t t' : sets_a_volume t' -> sets_a_volume (t ++ t').
Proof. intros (i & p & H). exists i, p. apply in_or_app. now right. Qed.

(** The loop of lines 351-389, for a valid index: it sets the volume of
    every stream that has an id, and [success] with it. *)
Lemma aggressive_loop_result E active_idx streams :
  1 <= active_idx <= 3 ->
  forall success, exists t,
    for_each (aggressive_body E active_idx) streams success
    = (t, Ok (success || existsb has_id streams)) /\
    (existsb has_id streams = true -> sets_a_volume t).
Proof.
  intros Ha. induction streams as [| s l IH]; intros success.
  - exists []. cbn. rewrite orb_false_r. split; [reflexivity | discriminate].
  - cbn [for_each existsb].
    assert (Hb : exists t0,
              aggressive_body E active_idx success s = (t0, Ok (success || has_id s)) /\
              (has_id s = true -> sets_a_volume t0)).
    { unfold aggressive_body, has_id. destruct (s_id s) as [i |].
      - assert (Hc : active_idx = 1 \/ active_idx = 2 \/ active_idx = 3) by lia.
        destruct Hc as [-> | [-> | ->]]; cbn [Z.eqb Pos.eqb];
          match goal with
          | |- context [if ?c then _ else _] => destruct c
          end; cbn; rewrite orb_true_r; eexists; (split; [reflexivity |]);
          intros _; eexists _, _; left; reflexivity.
      - exists []. cbn. rewrite orb_false_r. split; [reflexivity | discriminate]. }
    destruct Hb as (t0 & Hb & Hv0).
    destruct (IH (success || has_id s)) as (t1 & Hl & Hv1).
    exists (t0 ++ t1). rewrite (bind_ok _ Hb), Hl. cbn [fst snd].
    rewrite orb_assoc. split; [reflexivity |].
    intros H. apply orb_true_iff in H. destruct H as [H | H].
    + apply sets_a_volume_app_l. auto.
    + apply sets_a_volume_app_r. auto.
Qed.

(** When the first loop or the sweep sets [success], a stream has an id and
    a volume call was recorded. *)
Lemma first_pass_loop_sets E active_idx active_pid streams :
  forall st t st',
    for_each (first_pass_body E active_idx active_pid) streams st = (t, Ok st') ->
    success1 st' = true ->
    success1 st = true \/ (existsb has_id streams = true /\ sets_a_volume t).
Proof.
  induction streams as [| s l IH]; intros st t st'.
  - cbn. intros H. inversion H; subst. auto.
  - cbn [for_each existsb]. intros H Hs.
    apply bind_inv in H. destruct H as (t0 & st1 & t1 & Hb & Hl & ->).
    destruct (IH _ _ _ Hl Hs) as [H1 | [Hid Hv]].
    + revert Hb. unfold first_pass_body, has_id.
      destruct (s_id s) as [i |].
      * destruct (attribute _ _ _ _ _ _ _) as [[b |] st2] eqn:Ha.
        -- cbn. intros Hb. inversion Hb; subst. right. split; [reflexivity |].
           eexists _, _. left. reflexivity.
        -- cbn. intros Hb. inversion Hb; subst. left.
           revert Ha H1. unfold attribute.
           repeat match goal with
                  | |- context [if ?c then _ else _] => destruct c
                  end; intros Ha; inversion Ha; subst; auto.
      * cbn. intros Hb. inversion Hb; subst. auto.
    + right. split; [rewrite Hid; apply orb_true_r | now apply sets_a_volume_app_r].
Qed.

Lemma vivaldi_sweep_loop_sets E assigned streams :
  forall success t b,
    for_each (vivaldi_sweep_body E assigned) streams success = (t, Ok b) ->
    b = true ->
    success = true \/ (existsb has_id streams = true /\ sets_a_volume t).
Proof.
  induction streams as [| s l IH]; intros success t b.
  - cbn. intros H. inversion H; subst. auto.
  - cbn [for_each existsb]. intros H Hs.
    apply bind_inv in H. destruct H as (t0 & b1 & t1 & Hb & Hl & ->).
    destruct (IH _ _ _ Hl Hs) as [H1 | [Hid Hv]].
    + revert Hb. unfold vivaldi_sweep_body, has_id.
      destruct (s_id s) as [i |].
      * destruct (negb _); cbn; intros Hb; inversion Hb; subst.
        -- right. split; [reflexivity |]. eexists _, _. left. reflexivity.
        -- now left.
      * cbn. intros Hb. inversion Hb; subst. now left.
    + right. split; [rewrite Hid; apply orb_true_r | now apply sets_a_volume_app_r].
Qed.

Lemma first_attempt_sets E bw active_idx streams t0 s0 active_pid o :
  first_attempt E bw active_idx streams false = (t0, Ok (s0, active_pid, o)) ->
  s0 = true ->
  existsb has_id streams = true /\ sets_a_volume t0.
Proof.
  unfold first_attempt.
  destruct (active_idx <=? _); [| intros H; inversion H; discriminate].
  destruct (py_getitem bw (active_idx - 1)) as [w |]; [| discriminate].
  destruct (truthy w); [| intros H; inversion H; discriminate].
  intros H Hs.
  apply bind_inv in H. destruct H as (ta & ap & tb & _ & H & ->).
  apply bind_inv in H. destruct H as (t1 & st & tc & Hfp & H & ->).
  apply bind_inv in H. destruct H as (t2 & b & td & Hsw & H & ->).
  cbn in H. inversion H; subst. clear H.
  assert (Hfirst : success1 st = true ->
                   existsb has_id streams = true /\ sets_a_volume t1).
  { intros H1. destruct (first_pass_loop_sets _ _ _ _ _ Hfp H1) as [H | H];
      [discriminate H | exact H]. }
  unfold vivaldi_sweep in Hsw. destruct (_ && _).
  - destruct (vivaldi_sweep_loop_sets _ _ _ _ Hsw eq_refl) as [H | [Hid Hv]].
    + destruct (Hfirst H) as [Hid Hv]. split; [exact Hid |].
      apply sets_a_volume_app_r, sets_a_volume_app_l. exact Hv.
    + split; [exact Hid |].
      apply sets_a_volume_app_r, sets_a_volume_app_r, sets_a_volume_app_l. exact Hv.
  - unfold ret in Hsw.
    assert (Hst : success1 st = true) by congruence.
    assert (t2 = []) by congruence. subst t2.
    destruct (Hfirst Hst) as [Hid Hv]. split; [exact Hid |].
    apply sets_a_volume_app_r, sets_a_volume_app_l. exact Hv.
Qed.

Lemma has_id_of_call streams e i p :
  playback_call streams e -> e = SetVol i p -> existsb has_id streams = true.
Proof.
  intros [(w & ->) | (s & j & v & Hin & Hj & -> & _)] H; [discriminate H |].
  apply existsb_exists. exists s. split; [exact Hin |].
  unfold has_id. rewrite Hj. reflexivity.
Qed.

(** X2.  For a valid index, when the playback routine returns, it returns
    whether some stream of the inventory has an id, and that is whether it
    made a volume call. *)
Theorem playback_result E bw active_idx streams t b :
  1 <= active_idx <= 3 ->
  adjust_stream_volumes E bw active_idx streams = (t, Ok b) ->
  b = existsb has_id streams /\ (b = true <-> sets_a_volume t).
Proof.
  intros Ha Hrun.
  assert (Hcalls : sets_a_volume t -> existsb has_id streams = true).
  { intros (i & p & Hin).
    apply (@has_id_of_call streams (SetVol i p) i p); [| reflexivity].
    apply (@playback_calls_listed E bw active_idx). rewrite Hrun. exact Hin. }
  unfold adjust_stream_volumes in Hrun.
  apply bind_inv in Hrun. destruct Hrun as (t0 & [[s0 ap] o] & t' & Hfa & Hrun & ->).
  apply bind_inv in Hrun. destruct Hrun as (t1 & b1 & t2 & Hag & Hrun & ->).
  apply bind_inv in Hrun. destruct Hrun as (t3 & u & t4 & _ & Hrun & ->).
  apply bind_inv in Hrun. destruct Hrun as (t5 & v & t6 & _ & Hrun & ->).
  cbn in Hrun. inversion Hrun; subst. clear Hrun.
  assert (Hb : b = existsb has_id streams /\ (b = true -> sets_a_volume (t0 ++ t1))).
  { unfold aggressive in Hag. destruct s0.
    - cbn in Hag. inversion Hag; subst.
      destruct (first_attempt_sets _ _ _ _ Hfa eq_refl) as [Hid Hv].
      split; [now rewrite Hid | intros _; now apply sets_a_volume_app_l].
    - cbn [negb andb] in Hag. destruct streams as [| s l].
      + cbn in Hag. inversion Hag; subst. split; [reflexivity | discriminate].
      + cbn [nonempty] in Hag.
        destruct (aggressive_loop_result E (s :: l) Ha false) as (tl & Hl & Hv).
        rewrite Hl in Hag. inversion Hag; subst. cbn [orb].
        split; [reflexivity |]. intros H. apply sets_a_volume_app_r. auto. }
  destruct Hb as [Hb Hv]. split; [exact Hb |]. split.
  - intros H. rewrite app_assoc. apply sets_a_volume_app_l. exact (Hv H).
  - intros H. rewrite Hb. apply Hcalls. exact H.
Qed.

Lemma playback_result_witness :
  true = existsb has_id [named "5" "Firefox"] /\
  (true = true <-> sets_a_volume [GetWindowPid "0x3"; SetVol "5" 30]).
Proof.
  apply (@playback_result quiet_env [None; None; Some "0x3"] 3 [named "5" "Firefox"]).
  - lia.
  - reflexivity.
Defined.

(* ------------------------------------------------------------------ *)
(** ** The playback routine without a window id: when it raises *)

Lemma result_bind_eq (A B : Type) (m : W A) (f : A -> W B) :
  result_of (bind m f)
  = match result_of m with
    | Ok a => result_of (f a)
    | Raise e => Raise e
    end.
Proof.
  destruct m as [t [a | x]]; unfold bind, result_of; cbn; [| reflexivity].
  destruct (f a); reflexivity.
Qed.

Lemma returns_result (A : Type) (m : W A) :
  returns m -> exists a, result_of m = Ok a.
Proof. intros (t & a & ->). now exists a. Qed.

Lemma definite_vivaldi_loop_result E streams :
  forall found,
    result_of (for_each (definite_vivaldi_body E) streams found)
    = Ok (found || existsb definite_vivaldi streams).
Proof.
  induction streams as [| s l IH]; intros found.
  - cbn. now rewrite orb_false_r.
  - cbn [for_each existsb]. rewrite result_bind_eq.
    assert (Hb : result_of (definite_vivaldi_body E found s)
                 = Ok (found || definite_vivaldi s)).
    { unfold definite_vivaldi_body, definite_vivaldi, has_id.
      destruct (s_id s); cbn [andb]; [| cbn; now rewrite orb_false_r].
      destruct (_ || _); cbn; [now rewrite orb_true_r | now rewrite orb_false_r]. }
    rewrite Hb, IH, orb_assoc. reflexivity.
Qed.

Lemma chromium_down_unbound E streams :
  result_of (for_each (chromium_down_body E None) streams tt)
  = if existsb chromium_not_chrome streams
    then Raise (UnboundLocalError "active_pid") else Ok tt.
Proof.
  induction streams as [| s l IH]; [reflexivity |].
  cbn [for_each existsb]. rewrite result_bind_eq.
  unfold chromium_down_body at 1. unfold chromium_not_chrome at 1. unfold has_id.
  destruct (s_id s); cbn [andb orb].
  - destruct (contains "chromium" _ && negb _); cbn; [reflexivity | exact IH].
  - cbn. exact IH.
Qed.

Lemma chrome_up_loop_returns E streams :
  result_of (for_each (chrome_up_body E) streams tt) = Ok tt.
Proof.
  induction streams as [| s l IH]; [reflexivity |].
  cbn [for_each]. rewrite result_bind_eq.
  assert (Hb : result_of (chrome_up_body E tt s) = Ok tt).
  { unfold chrome_up_body. destruct (s_id s); [| reflexivity].
    destruct (contains _ _); reflexivity. }
  rewrite Hb. exact IH.
Qed.

Lemma first_attempt_empty_slot E bw active_idx streams :
  empty_slot bw active_idx ->
  first_attempt E bw active_idx streams false = ([], Ok (false, None, None)).
Proof.
  intros (w & Hw & Ht). unfold first_attempt.
  destruct (active_idx <=? _); [| reflexivity]. rewrite Hw, Ht. reflexivity.
Qed.

(** X3.  With a valid index and no window id in the slot of the active
    browser, the playback routine raises UnboundLocalError exactly in two
    cases: browser 1 is active, the inventory is not empty and no stream
    with an id names Vivaldi; or browser 2 is active and some stream with an
    id is a Chromium stream that is not Google Chrome.  In every other case
    it returns whether a stream has an id. *)
Theorem playback_outcome_without_window E bw active_idx streams :
  1 <= active_idx <= 3 ->
  empty_slot bw active_idx ->
  result_of (adjust_stream_volumes E bw active_idx streams)
  = if (active_idx =? 1) && nonempty streams
       && negb (existsb definite_vivaldi streams)
    then Raise (UnboundLocalError "active_pid")
    else if (active_idx =? 2) && existsb chromium_not_chrome streams
    then Raise (UnboundLocalError "active_pid")
    else Ok (existsb has_id streams).
Proof.
  intros Ha Hslot. unfold adjust_stream_volumes.
  rewrite result_bind_eq, (first_attempt_empty_slot E streams Hslot).
  unfold result_of at 1. cbn [snd].
  assert (Hag : result_of (aggressive E active_idx streams false)
                = Ok (existsb has_id streams)).
  { unfold aggressive. cbn [negb andb]. destruct streams as [| s l].
    - reflexivity.
    - destruct (aggressive_loop_result E (s :: l) Ha false) as (t & Hl & _).
      cbn [nonempty]. rewrite Hl. reflexivity. }
  rewrite result_bind_eq, Hag, result_bind_eq.
  unfold last_resort.
  destruct (active_idx =? 1) eqn:H1; cbn [andb].
  - apply Z.eqb_eq in H1. subst active_idx. cbn [Z.eqb Pos.eqb andb].
    destruct (nonempty streams) eqn:Hn; cbn [andb].
    + rewrite result_bind_eq, definite_vivaldi_loop_result. cbn [orb].
      destruct (existsb definite_vivaldi streams); cbn [negb].
      * cbn. reflexivity.
      * cbn. reflexivity.
    + cbn. reflexivity.
  - unfold result_of at 1. cbn [ret snd]. rewrite result_bind_eq.
    unfold browser2_special.
    destruct (active_idx =? 2) eqn:H2; cbn [andb].
    + destruct (nonempty streams) eqn:Hn.
      * rewrite result_bind_eq, chromium_down_unbound.
        destruct (existsb chromium_not_chrome streams); [reflexivity |].
        rewrite chrome_up_loop_returns. reflexivity.
      * destruct streams; [reflexivity | discriminate Hn].
    + reflexivity.
Qed.

Lemma playback_outcome_without_window_witness :
  result_of (adjust_stream_volumes quiet_env [None; None; None] 1
               [named "5" "Vivaldi"; named "6" "Firefox"])
  = if (1 =? 1) && nonempty [named "5" "Vivaldi"; named "6" "Firefox"]
       && negb (existsb definite_vivaldi [named "5" "Vivaldi"; named "6" "Firefox"])
    then Raise (UnboundLocalError "active_pid")
    else if (1 =? 2)
            && existsb chromium_not_chrome [named "5" "Vivaldi"; named "6" "Firefox"]
    then Raise (UnboundLocalError "active_pid")
    else Ok (existsb has_id [named "5" "Vivaldi"; named "6" "Firefox"]).
Proof.
  apply playback_outcome_without_window.
  - lia.
  - exists None. split; reflexivity.
Defined.

(** X4.  With a window id in the slot of the active browser, the playback
    routine returns, whatever the inventory and the desktop are: no local is
    read before it is bound. *)
Theorem playback_returns_with_window E bw active_idx streams w :
  1 <= active_idx ->
  py_getitem bw (active_idx - 1) = Some w ->
  truthy w = true ->
  returns (adjust_stream_volumes E bw active_idx streams).
Proof. apply adjust_stream_volumes_returns. Qed.

Lemma playback_returns_with_window_witness :
  returns (adjust_stream_volumes quiet_env [Some "0x1"; None; None] 1
             [named "5" "Firefox"]).
Proof.
  apply (@playback_returns_with_window quiet_env [Some "0x1"; None; None] 1
           [named "5" "Firefox"] (Some "0x1")).
  - lia.
  - reflexivity.
  - reflexivity.
Defined.

(* ------------------------------------------------------------------ *)
(** ** The capture routine: what it records and returns *)

Lemma py_int_silent s t z : py_int s = (t, Ok z) -> t = [].
Proof.
  unfold py_int. destruct (int_sign _) as [negative body].
  destruct (int_digits 0 0 false body) as [[v n] |]; [| discriminate].
  destruct (_ <? _); [discriminate |]. intros H. now inversion H.
Qed.

Lemma mic_append_marks i sid st t st' :
  mic_append i sid st = (t, Ok st') -> t = [] /\ same_marks st st'.
Proof.
  unfold mic_append, same_marks.
  destruct (i =? 1); [intros H; inversion H; subst; cbn; auto |].
  destruct (i =? 2); [intros H; inversion H; subst; cbn; auto |].
  destruct (i =? 3); [intros H; inversion H; subst; cbn; auto | discriminate].
Qed.

Lemma vivaldi_by_distance_marks active_idx vp cp sid app_name pid st t st' :
  vivaldi_by_distance active_idx vp cp sid app_name pid st = (t, Ok st') ->
  t = [] /\ same_marks st st'.
Proof.
  unfold vivaldi_by_distance, same_marks.
  destruct (_ && _); [| intros H; inversion H; subst; auto].
  destruct (negb (truthy cp)); [intros H; inversion H; subst; cbn; auto |].
  intros H.
  apply bind_inv in H. destruct H as (t1 & p & ? & H1 & H & ->).
  apply bind_inv in H. destruct H as (t2 & v & ? & H2 & H & ->).
  apply bind_inv in H. destruct H as (t3 & p' & ? & H3 & H & ->).
  apply bind_inv in H. destruct H as (t4 & c & ? & H4 & H & ->).
  apply py_int_silent in H1, H2, H3, H4. subst.
  destruct (_ <? _); inversion H; subst; cbn; auto.
Qed.

Lemma same_marks_trans st1 st2 st3 :
  same_marks st1 st2 -> same_marks st2 st3 -> same_marks st1 st3.
Proof. unfold same_marks. intros [A B] [C D]. split; congruence. Qed.

Lemma same_marks_refl st : same_marks st st.
Proof. split; reflexivity. Qed.

(** One iteration of the capture loop: it records nothing and leaves
    [success], or records one mute call on the id of its stream and sets
    [success]; the list of unmatched Chromium streams grows by that id at
    most. *)
Lemma mic_body_shape E active_idx active_pid vp cp st s t st' :
  mic_body E active_idx active_pid vp cp st s = (t, Ok st') ->
  ((t = [] /\ mic_success st' = mic_success st) \/
   (exists m, t = [SetMute (get (s_id s) "") m] /\ truthy (s_id s) = true /\
              mic_success st' = true)) /\
  (chromium_streams st' = chromium_streams st \/
   (chromium_streams st' = chromium_streams st ++ [get (s_id s) ""] /\
    truthy (s_id s) = true)).
Proof.
  unfold mic_body. destruct (truthy (s_id s)) eqn:Hid; cbn [negb];
    [| intros H; inversion H; subst; auto].
  intros H.
  apply bind_inv in H. destruct H as (t1 & st1 & ? & H1 & H & ->).
  apply vivaldi_by_distance_marks in H1. destruct H1 as [-> M1].
  apply bind_inv in H. destruct H as (t2 & st2 & ? & H2 & H & ->).
  assert (M2 : t2 = [] /\ same_marks st1 st2).
  { destruct (first_match _ _ _).
    - exact (mic_append_marks _ _ _ H2).
    - inversion H2; subst. split; [reflexivity | apply same_marks_refl]. }
  destruct M2 as [-> M2]. clear H2.
  pose proof (same_marks_trans M1 M2) as M12. clear M1 M2.
  set (st3 := match first_match (mic_browser_names active_idx)
                      (lower (get (s_app_name s) "")) (lower (get (s_binary s) "")) with
              | Some _ => st2
              | None => if contains "chromium" (lower (get (s_app_name s) ""))
                        then add_chromium (get (s_id s) "") st2 else st2
              end) in *.
  assert (M3 : mic_success st3 = mic_success st /\
               (chromium_streams st3 = chromium_streams st \/
                chromium_streams st3 = chromium_streams st ++ [get (s_id s) ""])).
  { destruct M12 as [C S]. unfold st3.
    destruct (first_match _ _ _); [rewrite C, S; auto |].
    destruct (contains _ _); cbn; rewrite ?C, ?S; auto. }
  clearbody st3. clear M12.
  apply bind_inv in H. destruct H as (t4 & [m4 st4] & ? & H4 & H & ->).
  assert (M4 : t4 = [] /\ same_marks st3 st4).
  { destruct (_ && _).
    - apply bind_inv in H4. destruct H4 as (ta & sta & tb & Ha & Hb & ->).
      apply mic_append_marks in Ha. destruct Ha as [-> Ma].
      inversion Hb; subst. split; [reflexivity | exact Ma].
    - inversion H4; subst. split; [reflexivity | apply same_marks_refl]. }
  destruct M4 as [-> M4]. clear H4.
  apply bind_inv in H. destruct H as (t5 & [m5 st5] & ? & H5 & H & ->).
  assert (M5 : t5 = [] /\ same_marks st4 st5).
  { destruct m4 as [k |].
    - inversion H5; subst. split; [reflexivity | apply same_marks_refl].
    - destruct (_ && _).
      + apply bind_inv in H5. destruct H5 as (ta & sta & tb & Ha & Hb & ->).
        apply mic_append_marks in Ha. destruct Ha as [-> Ma].
        inversion Hb; subst. split; [reflexivity | exact Ma].
      + inversion H5; subst. split; [reflexivity | apply same_marks_refl]. }
  destruct M5 as [-> M5]. clear H5.
  destruct (same_marks_trans M4 M5) as [C45 S45]. destruct M3 as [S3 C3].
  assert (Hc : chromium_streams st5 = chromium_streams st \/
               (chromium_streams st5 = chromium_streams st ++ [get (s_id s) ""] /\
                true = true)).
  { rewrite C45. destruct C3; auto. }
  cbn [app].
  destruct m5 as [m |].
  - destruct (m =? active_idx).
    + cbn in H. inversion H; subst. cbn. split; [right; eauto | exact Hc].
    + destruct (_ || _).
      * cbn in H. inversion H; subst. cbn. split; [right; eauto | exact Hc].
      * inversion H; subst. split; [left; split; [reflexivity | congruence] | exact Hc].
  - inversion H; subst. split; [left; split; [reflexivity | congruence] | exact Hc].
Qed.

Lemma silent_bind (A B : Type) (m : W A) (f : A -> W B) :
  trace_of m = [] -> (forall a, trace_of (f a) = []) -> trace_of (bind m f) = [].
Proof.
  destruct m as [t [a | x]]; unfold bind, trace_of; cbn; intros -> Hf; [| reflexivity].
  specialize (Hf a). destruct (f a). cbn in *. exact Hf.
Qed.

Lemma py_int_trace s : trace_of (py_int s) = [].
Proof.
  unfold py_int. destruct (int_sign _) as [negative body].
  destruct (int_digits 0 0 false body) as [[v n] |]; [| reflexivity].
  destruct (_ <? _); reflexivity.
Qed.

Lemma mic_append_trace i sid st : trace_of (mic_append i sid st) = [].
Proof. unfold mic_append. destruct (i =? 1), (i =? 2), (i =? 3); reflexivity. Qed.

Lemma vivaldi_by_distance_trace active_idx vp cp sid app_name pid st :
  trace_of (vivaldi_by_distance active_idx vp cp sid app_name pid st) = [].
Proof.
  unfold vivaldi_by_distance.
  destruct (_ && _); [| reflexivity].
  destruct (negb _); [reflexivity |].
  repeat (apply silent_bind; [apply py_int_trace | intros ?]).
  destruct (_ <? _); reflexivity.
Qed.

Lemma truthy_id s :
  truthy (s_id s) = true ->
  exists sid, s_id s = Some sid /\ sid <> "" /\ get (s_id s) "" = sid.
Proof.
  destruct (s_id s) as [[| c r] |]; cbn; try discriminate.
  intros _. eexists. split; [reflexivity | split; [discriminate | reflexivity]].
Qed.

(** Whatever its outcome, an iteration of the capture loop records only
    mute calls on the non-empty id of its stream. *)
Lemma mic_body_calls E active_idx active_pid vp cp st s e :
  In e (trace_of (mic_body E active_idx active_pid vp cp st s)) ->
  exists sid m, s_id s = Some sid /\ sid <> "" /\ e = SetMute sid m.
Proof.
  unfold mic_body. destruct (truthy (s_id s)) eqn:Hid; cbn [negb]; [| intros []].
  destruct (truthy_id _ Hid) as (sid & Hs & Hne & Hget). rewrite Hget.
  intros H.
  apply trace_bind in H. destruct H as [H | (st1 & _ & H)].
  { rewrite vivaldi_by_distance_trace in H. destruct H. }
  apply trace_bind in H. destruct H as [H | (st2 & _ & H)].
  { destruct (first_match _ _ _); [rewrite mic_append_trace in H |]; destruct H. }
  apply trace_bind in H. destruct H as [H | ([m4 st4] & _ & H)].
  { destruct (_ && _); [| destruct H].
    rewrite silent_bind in H; [destruct H | apply mic_append_trace | reflexivity]. }
  apply trace_bind in H. destruct H as [H | ([m5 st5] & _ & H)].
  { destruct m4; [destruct H |]. destruct (_ && _); [| destruct H].
    rewrite silent_bind in H; [destruct H | apply mic_append_trace | reflexivity]. }
  destruct m5 as [m |]; [| destruct H].
  destruct (m =? active_idx).
  - cbn in H. destruct H as [<- | []]. now exists sid, false.
  - destruct (_ || _); [| destruct H].
    cbn in H. destruct H as [<- | []]. now exists sid, true.
Qed.

Lemma slot_pid_calls E bw k e :
  In e (trace_of (slot_pid E bw k)) -> exists w, e = GetWindowPid w.
Proof.
  unfold slot_pid. destruct (nth_error bw k) as [w |]; [| intros []].
  destruct (truthy w); [| intros []].
  cbn. intros [<- | []]. eexists. reflexivity.
Qed.

Lemma mic_pids_calls E bw active_idx e :
  In e (trace_of (mic_pids E bw active_idx)) -> exists w, e = GetWindowPid w.
Proof.
  unfold mic_pids. intros H.
  apply trace_bind in H. destruct H as [H | (ap & _ & H)].
  - destruct (active_idx <=? _); [| destruct H].
    destruct (py_getitem bw (active_idx - 1)) as [w |]; [| destruct H].
    destruct (truthy w); [| destruct H].
    cbn in H. destruct H as [<- | []]. eexists. reflexivity.
  - destruct (active_idx =? 2); [| destruct H].
    apply trace_bind in H. destruct H as [H | (vp & _ & H)];
      [exact (slot_pid_calls _ _ _ _ H) |].
    apply trace_bind in H. destruct H as [H | (cp & _ & [])].
    exact (slot_pid_calls _ _ _ _ H).
Qed.

(** X5.  Whatever its outcome, every call of the capture routine is a pid
    query or a mute call on the non-empty id of a stream of the inventory. *)
Theorem capture_calls_on_inventory E bw active_idx streams e :
  In e (trace_of (adjust_microphone_streams E bw active_idx streams)) ->
  capture_call streams e.
Proof.
  unfold adjust_microphone_streams. destruct (nonempty streams); cbn [negb];
    [| intros []].
  intros H. apply trace_bind in H. destruct H as [H | (st & Hst & H)].
  - unfold mic_loop in H.
    apply trace_bind in H. destruct H as [H | ([[ap vp] cp] & _ & H)].
    { left. exact (mic_pids_calls _ _ _ _ H). }
    revert e H.
    apply (for_each_inv (fun _ => True) (capture_call streams)); [| exact I].
    intros st s Hin _. split; [| auto]. intros e He.
    destruct (mic_body_calls _ _ _ _ _ _ _ _ He) as (sid & m & Hs & Hne & ->).
    right. now exists s, sid, m.
  - assert (Hall : forall ap vp cp st',
              result_of (for_each (mic_body E active_idx ap vp cp) streams mic_init)
              = Ok st' -> candidates_in streams st').
    { intros ap vp cp.
      apply (for_each_inv (candidates_in streams) (fun _ => True)).
      - intros st0 s Hin P0. split; [auto |]. intros st1 H1 sid Hsid.
        destruct (mic_body E active_idx ap vp cp st0 s) as [t1 r1] eqn:Hb.
        cbn in H1. subst r1.
        destruct (mic_body_shape _ _ _ _ _ _ _ Hb) as [_ [Hc | [Hc Hid]]].
        + rewrite Hc in Hsid. exact (P0 sid Hsid).
        + rewrite Hc in Hsid. apply in_app_or in Hsid.
          destruct Hsid as [Hsid | [<- | []]]; [exact (P0 sid Hsid) |].
          destruct (truthy_id _ Hid) as (sid & Hs & Hne & ->). now exists s.
      - intros sid []. }
    assert (Hc : candidates_in streams st).
    { unfold mic_loop in Hst.
      apply result_bind in Hst. destruct Hst as ([[ap vp] cp] & _ & Hst).
      exact (Hall _ _ _ _ Hst). }
    unfold mic_fallback in H. destruct (_ && _); [| destruct H].
    destruct (chromium_streams st) as [| sid rest] eqn:Hcs; [destruct H |].
    cbn in H. destruct H as [<- | []].
    destruct (Hc sid) as (s & Hin & Hs & Hne); [rewrite Hcs; now left |].
    right. now exists s, sid, false.
Qed.

Lemma capture_calls_on_inventory_witness :
  capture_call [named "7" "Brave"] (SetMute "7" false).
Proof.
  apply (@capture_calls_on_inventory quiet_env [None; None; None] 3
           [named "7" "Brave"] (SetMute "7" false)).
  vm_compute. auto.
Defined.

Lemma sets_a_mute_app t t' :
  sets_a_mute (t ++ t') <-> sets_a_mute t \/ sets_a_mute t'.
Proof.
  unfold sets_a_mute. split.
  - intros (sid & m & H). apply in_app_or in H. destruct H; eauto.
  - intros [(sid & m & H) | (sid & m & H)]; exists sid, m; apply in_or_app; auto.
Qed.

Lemma mic_loop_success E active_idx active_pid vp cp streams :
  forall st t st',
    for_each (mic_body E active_idx active_pid vp cp) streams st = (t, Ok st') ->
    (mic_success st' = true <-> mic_success st = true \/ sets_a_mute t).
Proof.
  induction streams as [| s l IH]; intros st t st'.
  - cbn. intros H. inversion H; subst. split; [auto |].
    intros [H1 | (sid & m & [])]. exact H1.
  - cbn [for_each]. intros H.
    apply bind_inv in H. destruct H as (t0 & st1 & t1 & Hb & Hl & ->).
    rewrite (IH _ _ _ Hl), sets_a_mute_app.
    destruct (mic_body_shape _ _ _ _ _ _ _ Hb) as [[[-> Hs] | (m & -> & _ & Hs)] _].
    + rewrite Hs. split; [intros [H | H]; auto |].
      intros [H | [(sid & m & []) | H]]; auto.
    + rewrite Hs. split; [intros _ | auto].
      right. left. eexists _, _. left. reflexivity.
Qed.

(** X6.  When the capture routine returns, it returns whether it made a mute
    call. *)
Theorem capture_result E bw active_idx streams t b :
  adjust_microphone_streams E bw active_idx streams = (t, Ok b) ->
  (b = true <-> sets_a_mute t).
Proof.
  unfold adjust_microphone_streams. destruct (nonempty streams); cbn [negb].
  2: { intros H. inversion H; subst. split; [discriminate | intros (sid & m & [])]. }
  intros H. apply bind_inv in H. destruct H as (t1 & st & t2 & Hloop & Hfb & ->).
  unfold mic_loop in Hloop.
  apply bind_inv in Hloop. destruct Hloop as (tp & [[ap vp] cp] & tl & Hp & Hl & ->).
  assert (Hpids : ~ sets_a_mute tp).
  { intros (sid & m & Hin).
    assert (Hin' : In (SetMute sid m) (trace_of (mic_pids E bw active_idx)))
      by (rewrite Hp; exact Hin).
    destruct (mic_pids_calls _ _ _ _ Hin') as (w & Hw). discriminate Hw. }
  pose proof (mic_loop_success _ _ _ _ _ _ _ Hl) as Hs. cbn [mic_init mic_success] in Hs.
  rewrite !sets_a_mute_app.
  unfold mic_fallback in Hfb. destruct (_ && _).
  - destruct (chromium_streams st) as [| sid rest].
    + inversion Hfb; subst. rewrite Hs. split; [intros [H | H]; [discriminate | auto] |].
      intros [[H | H] | (sid & m & [])]; [tauto | auto].
    + cbn in Hfb. inversion Hfb; subst. split; [intros _ | auto].
      right. eexists _, _. left. reflexivity.
  - inversion Hfb; subst. rewrite Hs. split; [intros [H | H]; [discriminate | auto] |].
    intros [[H | H] | (sid & m & [])]; [tauto | auto].
Qed.

Lemma capture_result_witness :
  true = true <-> sets_a_mute [SetMute "7" false].
Proof.
  apply (@capture_result quiet_env [None; None; None] 3 [named "7" "Brave"]).
  reflexivity.
Defined.

(* ------------------------------------------------------------------ *)
(** ** The capture routine on decimal pids: it returns *)

Lemma digit_plain c :
  is_digit c = true ->
  int_space c = false /\ Ascii.eqb c "-" = false /\ Ascii.eqb c "+" = false /\
  exists d, digit_value c = Some d.
Proof.
  destruct c as [[] [] [] [] [] [] [] []]; try discriminate; intros _;
    repeat split; eexists; reflexivity.
Qed.

Lemma int_digits_all s : forall acc n prev,
  all_digits s = true -> s <> "" \/ prev = true ->
  exists v, int_digits acc n prev s = Some (v, n + Z.of_nat (String.length s)).
Proof.
  induction s as [| c r IH]; intros acc n prev Hd Hne; cbn [int_digits String.length].
  - destruct Hne as [Hne | ->]; [congruence |]. exists acc. f_equal. f_equal. lia.
  - cbn [all_digits] in Hd. apply andb_prop in Hd as [Hc Hr].
    destruct (digit_plain _ Hc) as (_ & _ & _ & d & ->).
    destruct (IH (10 * acc + d) (n + 1) true Hr (or_intror eq_refl)) as (v & ->).
    exists v. f_equal. f_equal. lia.
Qed.

(** [int] converts a decimal string of no more than 4300 digits. *)
Lemma py_int_converts s : converts s -> returns (py_int s).
Proof.
  intros [Hd Hl]. unfold decimal in Hd. destruct s as [| c r]; [discriminate |].
  pose proof Hd as Hc. cbn [all_digits] in Hc. apply andb_prop in Hc as [Hc _].
  destruct (digit_plain _ Hc) as (Hsp & Hm & Hp & _).
  unfold py_int. cbn [skip_int_space]. rewrite Hsp. cbn [int_sign]. rewrite Hm, Hp.
  destruct (@int_digits_all _ 0 0 false Hd) as (v & ->); [left; discriminate |].
  assert (Hlim : (int_max_str_digits <? 0 + Z.of_nat (String.length (String c r))) = false)
    by (apply Z.ltb_ge; lia).
  rewrite Hlim. apply returns_ret.
Qed.

Lemma truthy_converts o : converting_pid o -> truthy o = true -> converts (get o "").
Proof.
  intros Hd. destruct o as [p |]; [| discriminate]. intros _. cbn. now apply Hd.
Qed.

Lemma mic_append_ok i sid st :
  i = 1 \/ i = 2 \/ i = 3 -> returns (mic_append i sid st).
Proof.
  intros Hi. destruct (mic_append_returns sid st Hi) as (st' & H & _).
  rewrite H. now eexists _, _.
Qed.

Lemma truthy_default o : truthy (Some (get o "")) = true -> truthy o = true.
Proof. destruct o as [[| c r] |]; cbn; auto. Qed.

Lemma vivaldi_by_distance_returns active_idx vp cp sid app_name o st :
  converting_pid vp -> converting_pid cp -> converting_pid o ->
  returns (vivaldi_by_distance active_idx vp cp sid app_name (get o "") st).
Proof.
  intros Hv Hc Hp. unfold vivaldi_by_distance.
  destruct ((active_idx =? 2) && contains "chromium" app_name) eqn:H0;
    cbn [andb]; [| apply returns_ret].
  destruct (truthy vp) eqn:Htv; cbn [andb]; [| apply returns_ret].
  destruct (truthy (Some (get o ""))) eqn:Htp; [| apply returns_ret].
  destruct (truthy cp) eqn:Htc; cbn [negb]; [| apply returns_ret].
  pose proof (truthy_converts Hp (truthy_default _ Htp)) as Dp.
  pose proof (truthy_converts Hv Htv) as Dv.
  pose proof (truthy_converts Hc Htc) as Dc.
  apply returns_bind; [now apply py_int_converts | intros p].
  apply returns_bind; [now apply py_int_converts | intros v].
  apply returns_bind; [now apply py_int_converts | intros p'].
  apply returns_bind; [now apply py_int_converts | intros c].
  destruct (_ <? _); apply returns_ret.
Qed.

Lemma returns_set_mute E sid m : returns (set_mute E sid m).
Proof. now eexists _, _. Qed.

Lemma mic_body_returns E active_idx active_pid vp cp st s :
  1 <= active_idx <= 3 ->
  converting_pid vp -> converting_pid cp -> converting_pid (s_pid s) ->
  returns (mic_body E active_idx active_pid vp cp st s).
Proof.
  intros Ha Hv Hc Hp. unfold mic_body.
  assert (Hidx : active_idx = 1 \/ active_idx = 2 \/ active_idx = 3) by lia.
  destruct (negb (truthy (s_id s))); [apply returns_ret |].
  apply returns_bind; [now apply vivaldi_by_distance_returns | intros st1].
  apply returns_bind.
  { destruct (first_match _ _ _) as [i |] eqn:Hm; [| apply returns_ret].
    apply mic_append_ok. exact (first_match_index _ _ _ Hm). }
  intros st2.
  apply returns_bind.
  { destruct (_ && _); [| apply returns_ret].
    apply returns_bind; [apply mic_append_ok; auto | intros ?; apply returns_ret]. }
  intros [m4 st4].
  apply returns_bind.
  { destruct m4; [apply returns_ret |].
    destruct (_ && _); [| apply returns_ret].
    apply returns_bind; [apply mic_append_ok; exact Hidx | intros ?; apply returns_ret]. }
  intros [m5 st5].
  destruct m5 as [m |]; [| apply returns_ret].
  destruct (m =? active_idx).
  - apply returns_bind; [apply returns_set_mute | intros ?; apply returns_ret].
  - destruct (_ || _); [| apply returns_ret].
    apply returns_bind; [apply returns_set_mute | intros ?; apply returns_ret].
Qed.

Lemma slot_pid_result E bw k :
  converting_window_pids E ->
  exists t o, slot_pid E bw k = (t, Ok o) /\ converting_pid o.
Proof.
  intros HE. unfold slot_pid.
  destruct (nth_error bw k) as [w |]; [| exists [], None; split; [reflexivity | discriminate]].
  destruct (truthy w); [| exists [], None; split; [reflexivity | discriminate]].
  eexists _, _. split; [reflexivity | apply HE].
Qed.

Lemma mic_pids_result E bw active_idx :
  1 <= active_idx -> converting_window_pids E ->
  exists t ap vp cp,
    mic_pids E bw active_idx = (t, Ok (ap, vp, cp)) /\
    converting_pid vp /\ converting_pid cp.
Proof.
  intros Ha HE. unfold mic_pids.
  assert (Hap : returns
            (if active_idx <=? Z.of_nat (List.length bw)
             then match py_getitem bw (active_idx - 1) with
                  | Some w => if truthy w then get_window_pid E (get w "") else ret None
                  | None => raise IndexError
                  end
             else ret None)).
  { destruct (active_idx <=? _) eqn:Hlen; [| apply returns_ret].
    apply Z.leb_le in Hlen. rewrite py_getitem_in_range by lia.
    destruct (nth_error bw (Z.to_nat (active_idx - 1))) as [w |] eqn:Hn.
    - destruct (truthy w); [now eexists _, _ | apply returns_ret].
    - apply nth_error_None in Hn. lia. }
  destruct Hap as (t0 & ap & Hap). rewrite (bind_ok _ Hap).
  destruct (active_idx =? 2).
  - destruct (slot_pid_result bw 0 HE) as (t1 & vp & H1 & D1).
    destruct (slot_pid_result bw 1 HE) as (t2 & cp & H2 & D2).
    rewrite (bind_ok _ H1). cbn [fst snd]. rewrite (bind_ok _ H2). cbn.
    eexists _, ap, vp, cp. split; [reflexivity | auto].
  - cbn. eexists _, ap, None, None. split; [reflexivity |]. split; discriminate.
Qed.

Lemma capture_returns_decimal E bw active_idx streams :
  1 <= active_idx <= 3 ->
  converting_window_pids E ->
  converting_stream_pids streams ->
  returns (adjust_microphone_streams E bw active_idx streams).
Proof.
  intros Ha HE Hs. unfold adjust_microphone_streams.
  destruct (negb (nonempty streams)); [apply returns_ret |].
  apply returns_bind.
  - unfold mic_loop.
    destruct (mic_pids_result bw (proj1 Ha) HE) as (t & ap & vp & cp & Hp & Dv & Dc).
    apply (returns_bind_ok _ Hp). cbn.
    apply for_each_returns. intros st s Hin.
    apply mic_body_returns; auto.
  - intros st. unfold mic_fallback. destruct (_ && _); [| apply returns_ret].
    destruct (chromium_streams st); [apply returns_ret |].
    apply returns_bind; [apply returns_set_mute | intros ?; apply returns_ret].
Qed.

(** X7.  For a valid index, when every pid the desktop answers and every
    pid carried by a stream is decimal (which is all the patterns capture)
    and has no more than 4300 digits, the capture routine returns: its
    conversions of pids to integers and its list lookups never fail. *)
Theorem capture_returns E bw active_idx streams :
  1 <= active_idx <= 3 ->
  converting_window_pids E ->
  converting_stream_pids streams ->
  returns (adjust_microphone_streams E bw active_idx streams).
Proof. apply capture_returns_decimal. Qed.

Lemma capture_returns_witness :
  returns (adjust_microphone_streams chromium_env [Some "0x1"; Some "0x2"; None] 2
             [mkStream (Some "7") (Some "Chromium input") None None (Some "4242")]).
Proof.
  apply capture_returns.
  - lia.
  - intros w p H. cbn in H.
    destruct (String.eqb w "0x1");
      [| destruct (String.eqb w "0x2"); [| discriminate H]];
      inversion H; subst; (split; [reflexivity | unfold int_max_str_digits; cbn; lia]).
  - intros s [<- | []] p H. inversion H.
    split; [reflexivity | unfold int_max_str_digits; cbn; lia].
Defined.

(** The run of the witness: the pids of the windows of browsers 1 and 2 are
    asked for, the pid of the stream and theirs are converted, and the
    stream, nearer to the window of browser 1, is muted. *)
Example capture_chromium_run :
  adjust_microphone_streams chromium_env [Some "0x1"; Some "0x2"; None] 2
    [mkStream (Some "7") (Some "Chromium input") None None (Some "4242")]
  = ([GetWindowPid "0x2"; GetWindowPid "0x1"; GetWindowPid "0x2"; SetMute "7" true],
     Ok true).
Proof. vm_compute. reflexivity. Qed.

(** A pid of more digits than [int] accepts: the conversion raises. *)
Example py_int_long :
  result_of (py_int (String.concat "" (repeat "1" 4301))) = Raise ValueError /\
  returns (py_int (String.concat "" (repeat "1" 4300))).
Proof. split; [vm_compute; reflexivity | vm_compute; now eexists _, _]. Qed.

(* ------------------------------------------------------------------ *)
(** ** The shape of parsed fields *)

Lemma span_every f s : every f (fst (span f s)) = true.
Proof.
  induction s as [| c r IH]; [reflexivity |].
  cbn. destruct (f c) eqn:Hc; [| reflexivity].
  destruct (span f r) as [a b]. cbn in *. now rewrite Hc, IH.
Qed.

Lemma run_then_quote_shape f s g :
  run_then_quote f s = Some g -> g <> "" /\ every f g = true.
Proof.
  unfold run_then_quote. pose proof (span_every f s) as He.
  destruct (span f s) as [[| c a] r]; [discriminate |].
  destruct (expect quote r); [| discriminate].
  intros H. inversion H; subst. split; [discriminate | exact He].
Qed.

Lemma search_found at_front line g :
  search at_front line = Some g -> exists suffix, at_front suffix = Some g.
Proof.
  induction line as [| c r IH]; cbn.
  - destruct (at_front "") eqn:H0; [| discriminate].
    intros H. inversion H; subst. now exists "".
  - destruct (at_front (String c r)) eqn:H0.
    + intros H. inversion H; subst. now exists (String c r).
    + exact IH.
Qed.

Lemma anchored_found key value s g :
  anchored key value s = Some g -> exists r, value r = Some g.
Proof.
  unfold anchored. destruct (key_equals_quote key s) as [r |]; [| discriminate].
  intros H. now exists r.
Qed.

Lemma every_digits s : every is_digit s = all_digits s.
Proof. induction s as [| c r IH]; cbn; [reflexivity | now rewrite IH]. Qed.

Lemma pid_group_decimal line g : PAT_APP_PID line = Some g -> decimal g = true.
Proof.
  unfold PAT_APP_PID. intros H.
  apply search_found in H. destruct H as (suffix & H).
  apply anchored_found in H. destruct H as (r & H).
  apply run_then_quote_shape in H. destruct H as [Hne Hall].
  rewrite every_digits in Hall. unfold decimal. destruct g; [now elim Hne | exact Hall].
Qed.

Lemma name_group_shape line g :
  PAT_APP_NAME line = Some g -> g <> "" /\ every not_quote g = true.
Proof.
  unfold PAT_APP_NAME. intros H.
  apply search_found in H. destruct H as (suffix & H).
  apply anchored_found in H. destruct H as (r & H).
  exact (run_then_quote_shape _ _ H).
Qed.

Lemma upto_last_quote_every f run g :
  every f run = true -> upto_last_quote run = Some g -> every f g = true.
Proof.
  revert g. induction run as [| c r IH]; intros g; cbn [upto_last_quote every];
    [intros _ H; discriminate H |].
  intros H. apply andb_true_iff in H. destruct H as [Hc Hr].
  destruct (upto_last_quote r) as [g' |].
  - intros H. inversion H; subst. cbn [every]. rewrite Hc. now apply IH.
  - destruct (Ascii.eqb c quote); [| intros H; discriminate H].
    intros H. inversion H; subst. reflexivity.
Qed.

Lemma lazy_slash_basename_shape s g :
  lazy_slash_basename s = Some g -> g <> "" /\ every not_slash g = true.
Proof.
  induction s as [| c r IH]; cbn [lazy_slash_basename]; [intros H; discriminate H |].
  destruct (Ascii.eqb c "/").
  - destruct (basename_then_quote r) as [g' |] eqn:Hb.
    + intros H. inversion H; subst. clear H.
      unfold basename_then_quote in Hb.
      destruct (upto_last_quote (fst (span not_slash r))) as [[| x y] |] eqn:Hu;
        try discriminate Hb.
      inversion Hb; subst. split; [discriminate |].
      exact (upto_last_quote_every _ _ (span_every not_slash r) Hu).
    + destruct (Ascii.eqb c LF); [intros H; discriminate H | exact IH].
  - destruct (Ascii.eqb c LF); [intros H; discriminate H | exact IH].
Qed.

Lemma binary_group_shape line g :
  PAT_APP_PROCESS line = Some g -> g <> "" /\ every not_slash g = true.
Proof.
  unfold PAT_APP_PROCESS. intros H.
  apply search_found in H. destruct H as (suffix & H).
  apply anchored_found in H. destruct H as (r & H).
  exact (lazy_slash_basename_shape _ H).
Qed.

Lemma record_of_block_shaped media blk : well_shaped (record_of_block media blk).
Proof.
  destruct blk as [h body].
  destruct (fields_from_lines_holds media h body) as (Hn & Hb & Hp).
  split; [| split].
  - intros p H. destruct (Hp p H) as (line & _ & _ & Hl). exact (pid_group_decimal _ Hl).
  - intros b H. destruct (Hb b H) as (line & _ & _ & Hl). exact (binary_group_shape _ Hl).
  - intros n H. destruct (Hn n H) as (line & _ & _ & Hl). exact (name_group_shape _ Hl).
Qed.

Lemma parsed_record_shape header media txt r :
  In r (parse_dump header media txt) ->
  has_id r = true /\ well_shaped r.
Proof.
  rewrite parse_dump_blocks. intros H.
  apply in_map_iff in H. destruct H as (blk & <- & _). split.
  - unfold has_id. rewrite record_of_block_id. reflexivity.
  - apply record_of_block_shaped.
Qed.

(** X8.  Every record a parser returns has an id, a decimal pid if it has a
    pid, a non-empty binary name without a slash if it has one (the last
    component of the path), and a non-empty application name without a
    double quote if it has one. *)
Theorem parsed_records_shaped header media txt r :
  In r (parse_dump header media txt) ->
  has_id r = true /\ well_shaped r.
Proof. apply parsed_record_shape. Qed.

Lemma parsed_records_shaped_witness :
  has_id (mkStream (Some "13") (Some "Chromium") None None None) = true /\
  well_shaped (mkStream (Some "13") (Some "Chromium") None None None).
Proof.
  apply (@parsed_records_shaped "Sink Input #" true sample_dump).
  vm_compute. auto.
Defined.

(* ------------------------------------------------------------------ *)
(** ** From the dumps to the routines *)

Lemma NET_WM_PID_decimal output p : NET_WM_PID output = Some p -> decimal p = true.
Proof.
  unfold NET_WM_PID. intros H.
  apply search_found in H. destruct H as (suffix & H).
  destruct (strip_prefix _ suffix) as [r |]; [| discriminate].
  unfold digits1 in H. pose proof (span_every is_digit r) as He.
  destruct (span is_digit r) as [[| c g] rest]; [discriminate |].
  inversion H; subst. rewrite every_digits in He. exact He.
Qed.

Lemma with_xprop_decimal E xprop : decimal_window_pids (with_xprop E xprop).
Proof. intros w p H. exact (NET_WM_PID_decimal _ H). Qed.

Lemma parsed_pids_decimal header media txt :
  decimal_stream_pids (parse_dump header media txt).
Proof.
  intros s Hin. destruct (parsed_record_shape _ _ _ _ Hin) as [_ [Hp _]]. exact Hp.
Qed.

Lemma converting_short o : decimal_pid o -> short_pid o -> converting_pid o.
Proof. intros Hd Hs p Hp. split; [exact (Hd p Hp) | exact (Hs p Hp)]. Qed.

Lemma capture_returns_short E bw active_idx streams :
  1 <= active_idx <= 3 ->
  decimal_window_pids E -> (forall w, short_pid (window_pid E w)) ->
  decimal_stream_pids streams -> (forall s, In s streams -> short_pid (s_pid s)) ->
  returns (adjust_microphone_streams E bw active_idx streams).
Proof.
  intros Ha Hd Hs Hd' Hs'. apply capture_returns_decimal; [exact Ha | |].
  - intros w. apply converting_short; [apply Hd | apply Hs].
  - intros s Hin. apply converting_short; [exact (Hd' s Hin) | exact (Hs' s Hin)].
Qed.

(** X9.  On the inventory that [list_microphone_streams] parses from a
    dump, with the window pids read from the outputs of [xprop], the capture
    routine returns for every valid index and every registry, provided no
    pid of the dump or of the outputs has more than 4300 digits: what the
    patterns capture is decimal, which is what [int] asks for. *)
Theorem capture_returns_on_parsed E xprop bw active_idx txt :
  1 <= active_idx <= 3 ->
  (forall w, short_pid (NET_WM_PID (xprop w))) ->
  (forall s, In s (parse_dump "Source Output #" false txt) -> short_pid (s_pid s)) ->
  returns (adjust_microphone_streams (with_xprop E xprop) bw active_idx
             (parse_dump "Source Output #" false txt)).
Proof.
  intros Ha Hx Hs. apply capture_returns_short.
  - exact Ha.
  - apply with_xprop_decimal.
  - exact Hx.
  - apply parsed_pids_decimal.
  - exact Hs.
Qed.

Lemma capture_returns_on_parsed_witness :
  returns (adjust_microphone_streams
             (with_xprop quiet_env (fun _ => "_NET_WM_PID(CARDINAL) = 100"))
             [Some "0x1"; Some "0x2"; None] 2
             (parse_dump "Source Output #" false chromium_capture_dump)).
Proof.
  apply capture_returns_on_parsed.
  - lia.
  - intros w p H. vm_compute in H. inversion H. unfold int_max_str_digits. cbn. lia.
  - intros s Hin p Hp. vm_compute in Hin. destruct Hin as [<- | []].
    inversion Hp. unfold int_max_str_digits. cbn. lia.
Defined.

(** The run of the witness: the three pid queries, then the stream is
    given to browser 1 by the distance of the pids and muted. *)
Example capture_on_parsed_run :
  adjust_microphone_streams
    (with_xprop quiet_env (fun _ => "_NET_WM_PID(CARDINAL) = 100"))
    [Some "0x1"; Some "0x2"; None] 2
    (parse_dump "Source Output #" false chromium_capture_dump)
  = ([GetWindowPid "0x2"; GetWindowPid "0x1"; GetWindowPid "0x2"; SetMute "7" true],
     Ok true).
Proof. vm_compute. reflexivity. Qed.

(* ------------------------------------------------------------------ *)
(** ** [Switcher.activate] with a window id in the registry *)

Lemma settled_cases_truthy E st :
  settled E st = st \/
  exists w, truthy (Some w) = true /\ settled E st = recorded st w.
Proof.
  unfold settled. cbv zeta.
  destruct (focused_early E (fst st)); [now left |].
  destruct (pid_search E (fst st)) as [by_pid | e]; [| now left].
  destruct (truthy by_pid) eqn:Hf.
  - apply truthy_get in Hf.
    destruct (true && focus_ok E _); [right; eauto |].
    destruct (mem _ _ && truthy (window_by_class E "Brave")) eqn:HB; [| right; eauto].
    apply andb_true_iff in HB. destruct HB as [_ Hc]. apply truthy_get in Hc.
    right; eauto.
  - cbn [andb].
    destruct (mem _ _ && truthy (window_by_class E "Brave")) eqn:HB; [| now left].
    apply andb_true_iff in HB. destruct HB as [_ Hc]. apply truthy_get in Hc.
    right; eauto.
Qed.

Lemma py_getitem_set_nth_same (A : Type) (l : list A) i v :
  0 <= i < Z.of_nat (List.length l) ->
  py_getitem (set_nth l (Z.to_nat i) v) i = Some v.
Proof.
  intros Hr. rewrite py_getitem_in_range by (rewrite length_set_nth; exact Hr).
  destruct (nth_error l (Z.to_nat i)) as [x |] eqn:Hx.
  - exact (nth_error_set_nth_same _ _ v Hx).
  - apply nth_error_None in Hx. lia.
Qed.

(** A window id in the slot of the browser stays one through [focus]. *)
Lemma settled_slot E st w :
  in_range st ->
  py_getitem (snd st) (idx (fst st) - 1) = Some w -> truthy w = true ->
  exists w', py_getitem (snd (settled E st)) (idx (fst st) - 1) = Some w' /\
             truthy w' = true.
Proof.
  intros Hr Hw Ht.
  destruct (settled_cases_truthy E st) as [-> | (w' & Ht' & ->)]; [eauto |].
  exists (Some w'). split; [| exact Ht'].
  unfold recorded. cbn [fst snd]. apply py_getitem_set_nth_same. exact Hr.
Qed.

Lemma switch_audio_returns E bw num w :
  1 <= num <= 3 -> converting_window_pids E ->
  (forall s, In s (parse_dump "Source Output #" false (capture_dump E)) ->
             short_pid (s_pid s)) ->
  py_getitem bw (num - 1) = Some w -> truthy w = true ->
  returns (switch_audio E bw num).
Proof.
  intros Hn HE Hshort Hw Ht. unfold switch_audio.
  apply (returns_bind_ok _ (list_audio_streams_run E)).
  apply returns_bind.
  - destruct (nonempty _); [| apply returns_ret].
    apply returns_bind;
      [exact (adjust_stream_volumes_returns E bw _ (proj1 Hn) Hw Ht) | intros ?].
    apply (returns_bind_ok _ (list_microphone_streams_run E)).
    destruct (nonempty _); [| apply returns_ret].
    apply returns_bind; [| intros ?; apply returns_ret].
    apply capture_returns_decimal; [exact Hn | exact HE |].
    intros s Hin. apply converting_short; [exact (parsed_pids_decimal _ _ _ s Hin) |].
    exact (Hshort s Hin).
  - intros ?. destruct (nonempty _); apply returns_ret.
Qed.

Lemma focus_returns E st : pid_search_answers E -> focus_raises E st = None.
Proof.
  intros HE. unfold focus_raises, pid_search.
  destruct (focused_early E (fst st)); [reflexivity |].
  destruct (truthy (pid (fst st))); [| reflexivity].
  destruct (HE (get (pid (fst st)) "")) as (o & ->). reflexivity.
Qed.

(** X10.  With the registry [Switcher.__init__] builds, a valid index, a
    window id in the slot of that browser, a search by pid that raises
    nothing, and decimal pids of no more than 4300 digits for the windows
    and in the capture dump, [activate] returns, and it returns whether the
    playback inventory holds a stream, whatever the focus step does. *)
Theorem activate_returns E num reg w :
  wf_registry reg -> 1 <= num <= 3 ->
  pid_search_answers E ->
  converting_window_pids E ->
  (forall s, In s (parse_dump "Source Output #" false (capture_dump E)) ->
             short_pid (s_pid s)) ->
  py_getitem (browser_windows reg) (num - 1) = Some w -> truthy w = true ->
  outcome_of (activate E num reg)
  = Ok (nonempty (parse_dump "Sink Input #" true (playback_dump E))).
Proof.
  intros Hwf Hn Hsearch HE Hshort Hw Ht.
  destruct (activate_run E Hwf Hn) as (b & t & Hget & Hr & _ & Hrun).
  assert (Hidx : idx b = num).
  { destruct (wf_registry_inv Hwf) as (b1 & b2 & b3 & w1 & w2 & w3 & -> & I1 & I2 & I3).
    cbn [browsers] in Hget.
    destruct (valid_index Hn) as [-> | [-> | ->]]; vm_compute in Hget; congruence. }
  assert (Hslot : exists w',
            py_getitem (snd (settled E (b, browser_windows reg))) (num - 1) = Some w' /\
            truthy w' = true).
  { rewrite <- Hidx.
    apply (@settled_slot E (b, browser_windows reg) w Hr); cbn [fst snd];
      [rewrite Hidx; exact Hw | exact Ht]. }
  destruct Hslot as (w' & Hw' & Ht').
  destruct (@switch_audio_returns E _ num w' Hn HE Hshort Hw' Ht') as (ts & r & Hs).
  rewrite Hrun. unfold outcome_of, after_focus. cbn [snd].
  rewrite (focus_returns (b, browser_windows reg) Hsearch).
  rewrite Hs. cbn [result_of snd].
  f_equal. apply (@switch_audio_result E (snd (settled E (b, browser_windows reg))) num).
  rewrite Hs. reflexivity.
Qed.

Lemma activate_returns_witness :
  outcome_of (activate chromium_env 2 launched)
  = Ok (nonempty (parse_dump "Sink Input #" true (playback_dump chromium_env))).
Proof.
  apply (@activate_returns chromium_env 2 launched (Some "0x2")).
  - split; reflexivity.
  - lia.
  - intros p. now exists None.
  - intros w p H. cbn in H.
    destruct (String.eqb w "0x1");
      [| destruct (String.eqb w "0x2"); [| discriminate H]];
      inversion H; subst; (split; [reflexivity | unfold int_max_str_digits; cbn; lia]).
  - intros s Hin p Hp. vm_compute in Hin. destruct Hin as [<- | []].
    inversion Hp. unfold int_max_str_digits. cbn. lia.
  - reflexivity.
  - reflexivity.
Defined.

(** The run of the witness: the recorded window takes the focus, the two
    playback streams are set, and the capture stream is muted after the
    pids of the windows and of the stream were converted. *)
Example activate_chromium_run :
  snd (activate chromium_env 2 launched)
  = ([ListWindows; FocusById "0x2"; DumpPlayback;
      GetWindowPid "0x2"; SetVol "12" 30; SetVol "13" 100; SetVol "13" 30;
      DumpCapture;
      GetWindowPid "0x2"; GetWindowPid "0x1"; GetWindowPid "0x2"; SetMute "7" true],
     Ok true).
Proof. vm_compute. reflexivity. Qed.

(* ------------------------------------------------------------------ *)
(** ** The registry between calls *)

Lemma recorded_synced (b : Browser) bs bw k w :
  nth_error bs k = Some b -> Z.to_nat (idx b - 1) = k ->
  map window_id bs = bw ->
  map window_id (set_nth bs k (fst (recorded (b, bw) w)))
  = snd (recorded (b, bw) w).
Proof.
  intros Hb Hk Hs. unfold recorded. cbn [fst snd].
  rewrite map_set_nth, Hk, Hs. reflexivity.
Qed.

Lemma recorded_fields (st : fstate) w :
  idx (fst (recorded st w)) = idx (fst st) /\
  title (fst (recorded st w)) = title (fst st) /\
  exe_name (fst (recorded st w)) = exe_name (fst st).
Proof. unfold recorded. cbn. auto. Qed.

Lemma activate_keeps_shape E num reg :
  wf_registry reg -> synced reg ->
  let reg' := state_of (activate E num reg) in
  wf_registry reg' /\ synced reg' /\
  map title (browsers reg') = map title (browsers reg) /\
  map exe_name (browsers reg') = map exe_name (browsers reg).
Proof.
  intros Hwf Hs. cbv zeta.
  destruct (Z_le_dec 1 num) as [H1 | H1]; [destruct (Z_le_dec num 3) as [H3 | H3] |];
    try (unfold activate; rewrite index_test_fails by lia; cbn; auto).
  assert (Hn : 1 <= num <= 3) by lia.
  destruct (activate_run E Hwf Hn) as (b & t & Hget & Hr & _ & Hrun).
  assert (Hnth : nth_error (browsers reg) (Z.to_nat (num - 1)) = Some b)
    by (apply py_getitem_some; [lia | exact Hget]).
  assert (Hidx : idx b = num).
  { destruct (wf_registry_inv Hwf) as (b1 & b2 & b3 & w1 & w2 & w3 & -> & I1 & I2 & I3).
    cbn [browsers] in Hnth.
    destruct (valid_index Hn) as [-> | [-> | ->]]; vm_compute in Hnth; congruence. }
  rewrite Hrun. unfold state_of, wf_registry, synced.
  cbn [fst browsers browser_windows].
  destruct Hwf as [Hm Hl].
  destruct (settled_cases E (b, browser_windows reg)) as [-> | (w & ->)].
  - cbn [fst snd]. rewrite (set_nth_same _ _ Hnth). auto.
  - destruct (recorded_fields (b, browser_windows reg) w) as (Fi & Ft & Fe).
    cbn [fst] in Fi, Ft, Fe.
    repeat split.
    + erewrite map_set_nth_same; [exact Hm | exact Hnth | exact Fi].
    + unfold recorded. cbn [snd]. rewrite length_set_nth. exact Hl.
    + apply recorded_synced; [exact Hnth | now rewrite Hidx | exact Hs].
    + erewrite map_set_nth_same; [reflexivity | exact Hnth | exact Ft].
    + erewrite map_set_nth_same; [reflexivity | exact Hnth | exact Fe].
Qed.

(** X11.  The shape of the registry is an invariant of [activate], whatever
    the index and the desktop: three browsers numbered 1, 2, 3 and three
    slots, each browser's window id equal to its slot of the global list,
    titles and executable names as they were. *)
Theorem activate_keeps_registry E num reg :
  wf_registry reg -> synced reg ->
  let reg' := state_of (activate E num reg) in
  wf_registry reg' /\ synced reg' /\
  map title (browsers reg') = map title (browsers reg) /\
  map exe_name (browsers reg') = map exe_name (browsers reg).
Proof. apply activate_keeps_shape. Qed.

Lemma activate_keeps_registry_witness :
  let reg' := state_of (activate moved_env 1 launched) in
  wf_registry reg' /\ synced reg' /\
  map title (browsers reg') = map title (browsers launched) /\
  map exe_name (browsers reg') = map exe_name (browsers launched).
Proof.
  apply (@activate_keeps_registry moved_env 1 launched).
  - split; reflexivity.
  - reflexivity.
Defined.

(* ------------------------------------------------------------------ *)
(** ** The window directory, on the text the commands print *)

Lemma every_app f a b : every f (a ++ b)%string = every f a && every f b.
Proof.
  induction a as [| c a IH]; cbn; [reflexivity |].
  rewrite IH. now rewrite andb_assoc.
Qed.

Lemma is_space_lower c : is_space (lower_ascii c) = is_space c.
Proof. destruct c as [[] [] [] [] [] [] [] []]; reflexivity. Qed.

Lemma every_is_space_lower s : every is_space (lower s) = every is_space s.
Proof.
  induction s as [| c s IH]; cbn; [reflexivity |].
  now rewrite is_space_lower, IH.
Qed.

Lemma startswith_every f n h :
  startswith n h = true -> every f h = true -> every f n = true.
Proof.
  revert h. induction n as [| a n IH]; intros [| b h]; cbn; try discriminate; auto.
  intros H1 H2.
  apply andb_prop in H1 as [Ha Hn], H2 as [Hb Hh].
  apply Ascii.eqb_eq in Ha. subst b. rewrite Hb. cbn. eauto.
Qed.

Lemma contains_every f n h :
  contains n h = true -> every f h = true -> every f n = true.
Proof.
  induction h as [| b h IH].
  - cbn. rewrite orb_false_r. intros H _. destruct n; [reflexivity | discriminate H].
  - cbn [contains]. intros H1 H2. apply orb_prop in H1 as [H1 | H1].
    + exact (startswith_every f _ _ H1 H2).
    + cbn in H2. apply andb_prop in H2 as [_ H2]. auto.
Qed.

Lemma split_from_tokens cur s :
  every not_blank cur = true -> Forall token (Text.split_from cur s).
Proof.
  revert cur. induction s as [| c s IH]; intros cur Hc; cbn [Text.split_from].
  - destruct cur; [constructor |].
    constructor; [| constructor]. split; [discriminate | exact Hc].
  - destruct (is_space c) eqn:Hs.
    + destruct cur.
      * apply IH. reflexivity.
      * constructor; [split; [discriminate | exact Hc] | apply IH; reflexivity].
    + apply IH. rewrite every_app, Hc. cbn. unfold not_blank. now rewrite Hs.
Qed.

Lemma split_tokens line : Forall token (Text.split line).
Proof. apply split_from_tokens. reflexivity. Qed.

Lemma split_from_nil cur s :
  Text.split_from cur s = [] -> cur = "" /\ every is_space s = true.
Proof.
  revert cur. induction s as [| c s IH]; intros cur; cbn [Text.split_from every].
  - destruct cur; [auto | discriminate].
  - destruct (is_space c) eqn:Hs.
    + destruct cur; [| discriminate]. intros H. destruct (IH _ H). auto.
    + intros H. destruct (IH _ H) as [H1 _]. destruct cur; discriminate H1.
Qed.

Lemma split_blank_line line :
  every is_space line = true -> Text.split line = [].
Proof.
  unfold Text.split. induction line as [| c s IH]; cbn; [reflexivity |].
  intros H. apply andb_prop in H as [Hc Hs]. rewrite Hc. auto.
Qed.

Lemma pid_lines_spec lines pid :
  match Text.pid_lines lines pid with
  | Some w =>
    token w /\
    exists before line rest x more,
      lines = before ++ line :: rest /\
      Text.split line = w :: x :: pid :: more /\
      forall l, In l before -> ~ third_field pid l
  | None => forall l, In l lines -> ~ third_field pid l
  end.
Proof.
  induction lines as [| line rest IH]; cbn [Text.pid_lines]; [intros l [] |].
  assert (Hskip : ~ third_field pid line ->
    match Text.pid_lines rest pid with
    | Some w =>
      token w /\
      exists before line0 rest0 x more,
        line :: rest = before ++ line0 :: rest0 /\
        Text.split line0 = w :: x :: pid :: more /\
        forall l, In l before -> ~ third_field pid l
    | None => forall l, In l (line :: rest) -> ~ third_field pid l
    end).
  { intros Hno. destruct (Text.pid_lines rest pid) as [w |].
    - destruct IH as (Ht & before & l0 & r0 & x & more & -> & Hs & Hb).
      split; [exact Ht |].
      exists (line :: before), l0, r0, x, more. repeat split; auto.
      intros l [<- | Hl]; auto.
    - intros l [<- | Hl]; auto. }
  destruct (Text.split line) as [| w [| x [| p more]]] eqn:Hsp;
    try (apply Hskip; intros (? & ? & ? & H); rewrite Hsp in H; discriminate H).
  destruct (String.eqb p pid) eqn:Hp.
  - apply String.eqb_eq in Hp. subst p. split.
    + pose proof (split_tokens line) as Hf. rewrite Hsp in Hf.
      now inversion Hf.
    + exists [], line, rest, x, more. repeat split; auto; intros ? [].
  - apply Hskip. intros (? & ? & ? & H). rewrite Hsp in H.
    inversion H. subst. now rewrite String.eqb_refl in Hp.
Qed.

(** X12.  [find_window_by_pid] answers the first field of the first line of
    the listing whose third field is the pid, and [None] when no line has
    that third field; an answer is never empty and holds no blank, so that
    the callers' test [if window_id] only tells an answer from [None]. *)
Theorem find_window_by_pid_first output pid :
  match Text.find_window_by_pid output pid with
  | Some w =>
    token w /\
    exists before line rest x more,
      splitlines output = before ++ line :: rest /\
      Text.split line = w :: x :: pid :: more /\
      forall l, In l before -> ~ third_field pid l
  | None => forall l, In l (splitlines output) -> ~ third_field pid l
  end.
Proof. apply pid_lines_spec. Qed.

Lemma title_lines_returns lines title_part exclude :
  every is_space title_part = false ->
  exists r, Text.title_lines lines title_part exclude = Ok r /\
            forall w, r = Some w -> token w.
Proof.
  intros Ht. induction lines as [| line rest IH]; cbn [Text.title_lines].
  - exists None. split; [reflexivity | discriminate].
  - destruct (contains (lower title_part) (lower line)) eqn:Hc; [| exact IH].
    destruct (truthy exclude && contains (get exclude "") line); [exact IH |].
    destruct (Text.split line) as [| w ws] eqn:Hsp.
    + exfalso. destruct (split_from_nil _ _ Hsp) as [_ Hb].
      rewrite <- every_is_space_lower in Hb.
      pose proof (contains_every is_space _ _ Hc Hb) as Hn.
      rewrite every_is_space_lower in Hn. congruence.
    + exists (Some w). split; [reflexivity |].
      intros w' H. inversion H. subst w'.
      pose proof (split_tokens line) as Hf. rewrite Hsp in Hf. now inversion Hf.
Qed.

(** X13.  [find_window_by_title_part] with a title part that holds a
    character other than a blank never raises: a line that holds it has a
    first field; and the answer, when there is one, is not empty and holds
    no blank. *)
Theorem find_window_by_title_part_returns output title_part exclude :
  every is_space title_part = false ->
  exists r, Text.find_window_by_title_part output title_part exclude = Ok r /\
            forall w, r = Some w -> token w.
Proof. apply title_lines_returns. Qed.

Lemma find_window_by_title_part_returns_witness :
  exists r,
    Text.find_window_by_title_part
      ("0x03e00003  0 host Browser1_1700000000 - Vivaldi" ++ NL) "Browser1_1700000000" None
    = Ok r /\ forall w, r = Some w -> token w.
Proof.
  apply (@find_window_by_title_part_returns _ "Browser1_1700000000" None).
  reflexivity.
Defined.

(** X14.  [find_window_by_title_part] without [exclude] raises IndexError
    when the first line that holds the title part is blank, which takes a
    title part that is empty or blank: [line.split()[0]] of line 136 has no
    element to give. *)
Theorem find_window_by_title_part_blank output title_part before line rest :
  splitlines output = before ++ line :: rest ->
  (forall l, In l before -> holds_title title_part l = false) ->
  holds_title title_part line = true ->
  every is_space line = true ->
  Text.find_window_by_title_part output title_part None = Raise IndexError.
Proof.
  unfold Text.find_window_by_title_part, holds_title. intros -> Hb Hl Hs.
  induction before as [| l before IH]; cbn [app Text.title_lines].
  - rewrite Hl. cbn [truthy andb]. now rewrite (split_blank_line _ Hs).
  - rewrite (Hb l (or_introl eq_refl)). apply IH.
    intros l' Hl'. apply Hb. now right.
Qed.

Lemma find_window_by_title_part_blank_witness :
  Text.find_window_by_title_part
    ("Desktop" ++ NL ++ " " ++ NL ++ "0x2 0 host Browser 1" ++ NL) " " None
  = Raise IndexError.
Proof.
  apply (@find_window_by_title_part_blank _ " " ["Desktop"] " " ["0x2 0 host Browser 1"]).
  - reflexivity.
  - intros l [<- | []]. reflexivity.
  - reflexivity.
  - reflexivity.
Defined.

(* ------------------------------------------------------------------ *)
(** ** [get_browser_executable_name] *)

Lemma contains_char_every c s :
  contains (String c "") s = false <->
  every (fun x => negb (Ascii.eqb x c)) s = true.
Proof.
  induction s as [| b s IH]; cbn [contains startswith every]; [tauto |].
  rewrite andb_true_r, (Ascii.eqb_sym c b).
  destruct (Ascii.eqb b c); cbn [negb orb andb]; [split; discriminate | exact IH].
Qed.

Lemma contains_char_app c a b :
  contains (String c "") (a ++ String c b) = true.
Proof.
  induction a as [| x a IH]; cbn [contains startswith append].
  - now rewrite Ascii.eqb_refl.
  - rewrite IH. apply orb_true_r.
Qed.

Lemma basename_join dir name :
  every not_slash name = true -> basename (dir ++ "/" ++ name) = name.
Proof.
  intros Hn. induction dir as [| c d IH]; cbn [append basename].
  - apply contains_char_every in Hn. rewrite Hn. reflexivity.
  - cbn [append] in IH. rewrite (contains_char_app "/" d name). exact IH.
Qed.

Lemma basename_no_slash p : every not_slash (basename p) = true.
Proof.
  induction p as [| c r IH]; cbn [basename]; [reflexivity |].
  destruct (contains "/" r) eqn:Hr; [exact IH |].
  apply contains_char_every in Hr.
  destruct (Ascii.eqb c "/") eqn:Hc; [exact Hr |].
  cbn [every]. unfold not_slash at 1. rewrite Hc. exact Hr.
Qed.

Lemma basename_plain p : every not_slash p = true -> basename p = p.
Proof.
  destruct p as [| c r]; cbn [basename every]; [reflexivity |].
  intros H. apply andb_prop in H as [Hc Hr].
  apply contains_char_every in Hr. rewrite Hr.
  unfold not_slash in Hc. apply negb_true_iff in Hc. now rewrite Hc.
Qed.

Lemma span_prefix f a b :
  every f a = true -> b = "" \/ (exists c r, b = String c r /\ f c = false) ->
  fst (span f (a ++ b)) = a.
Proof.
  intros Ha Hb. induction a as [| x a IH]; cbn [append span].
  - destruct Hb as [-> | (c & r & -> & Hc)]; cbn [span]; [reflexivity |].
    now rewrite Hc.
  - cbn in Ha. apply andb_prop in Ha as [Hx Ha]. rewrite Hx.
    specialize (IH Ha). destruct (span f (a ++ b)) as [u v]. cbn [fst] in *.
    now rewrite IH.
Qed.

Lemma every_span f g s :
  every f s = true -> every f (fst (span g s)) = true.
Proof.
  induction s as [| c r IH]; cbn [span every]; [reflexivity |].
  intros H. apply andb_prop in H as [Hc Hr].
  destruct (g c); [| reflexivity].
  specialize (IH Hr). destruct (span g r) as [u v]. cbn [fst every] in *.
  now rewrite Hc, IH.
Qed.

(** X15.  The executable name of a path [dir/name] or [dir/name.rest] is
    [name], when [name] holds neither a slash nor a dot and what follows it
    holds no slash: the directory and the first dot with all that follows
    are dropped. *)
Theorem executable_name_of_path dir name rest :
  every not_slash name = true -> every not_dot name = true ->
  every not_slash rest = true ->
  rest = "" \/ startswith "." rest = true ->
  get_browser_executable_name (dir ++ "/" ++ name ++ rest) = name.
Proof.
  intros Hs Hd Hr Hrest. unfold get_browser_executable_name. cbv zeta.
  assert (Hb : basename (dir ++ "/" ++ (name ++ rest)) = (name ++ rest)%string).
  { apply basename_join. now rewrite every_app, Hs, Hr. }
  rewrite Hb.
  assert (Hfirst : fst (span not_dot (name ++ rest)) = name).
  { apply span_prefix; [exact Hd |].
    destruct Hrest as [-> | H]; [now left | right].
    destruct rest as [| c r]; [discriminate H |].
    cbn [startswith] in H. rewrite andb_true_r in H. apply Ascii.eqb_eq in H. subst c.
    now exists "."%char, r. }
  destruct (contains "." (name ++ rest)) eqn:Hc.
  - rewrite split_on_first. exact Hfirst.
  - apply contains_char_every in Hc.
    destruct Hrest as [-> | H].
    + clear. induction name as [| x n IH]; cbn; congruence.
    + destruct rest as [| c r]; [discriminate H |].
      cbn [startswith] in H. rewrite andb_true_r in H. apply Ascii.eqb_eq in H. subst c.
      rewrite every_app in Hc. cbn in Hc. now rewrite andb_false_r in Hc.
Qed.

Lemma executable_name_of_path_witness :
  get_browser_executable_name ("/snap/bin" ++ "/" ++ "brave" ++ ".launcher.sh")
  = "brave".
Proof.
  apply (@executable_name_of_path "/snap/bin" "brave" ".launcher.sh").
  - reflexivity.
  - reflexivity.
  - reflexivity.
  - right. reflexivity.
Defined.

(** X16.  Whatever the path, the executable name holds neither a slash nor
    a dot, and is left as it is when it is taken for a path in turn. *)
Theorem executable_name_plain p :
  let r := get_browser_executable_name p in
  every not_slash r = true /\ every not_dot r = true /\
  get_browser_executable_name r = r.
Proof.
  cbv zeta.
  assert (H : every not_slash (get_browser_executable_name p) = true /\
              every not_dot (get_browser_executable_name p) = true).
  { unfold get_browser_executable_name. cbv zeta.
    pose proof (basename_no_slash p) as Hb.
    destruct (contains "." (basename p)) eqn:Hc.
    - rewrite split_on_first. cbn [append]. split.
      + now apply every_span.
      + apply (span_every not_dot).
    - split; [exact Hb | now apply contains_char_every in Hc]. }
  destruct H as [Hs Hd]. repeat split; auto.
  unfold get_browser_executable_name at 1. cbv zeta.
  rewrite (basename_plain _ Hs).
  apply contains_char_every in Hd. now rewrite Hd.
Qed.

(* ------------------------------------------------------------------ *)
(** ** [Browser.launch] and [Switcher.__init__] *)

Lemma found_run D n st w :
  in_range st ->
  found D n st w
  = (recorded st w,
     (if renamed D n w then [Rename w (title (fst st))] else [],
      Returned (renamed D n w))).
Proof.
  intros Hr. unfold found. cbv zeta. cbn [idx with_window title].
  rewrite (py_setitem_in_range _ _ Hr). unfold recorded.
  destruct (renamed D n w); reflexivity.
Qed.

Lemma truthy_nonempty o : truthy o = true -> get o "" <> "".
Proof. destruct o as [[| c s] |]; cbn; congruence. Qed.

(** What one attempt leaves: nothing and the loop goes on, nothing and the
    method returns [False] (a search raised), or a window was found. *)
Lemma attempt_cases D ct n st :
  attempt D ct n st = None \/
  attempt D ct n st = Some (st, ([], Returned false)) \/
  exists w, w <> "" /\ attempt D ct n st = Some (found D n st w).
Proof.
  unfold attempt, look. cbv zeta.
  repeat match goal with
         | |- context [match ?a with Some _ => _ | None => _ end] =>
           destruct a as [? |]; [| now auto]
         | |- context [if truthy ?o then _ else _] =>
           destruct (truthy o) eqn:?;
             [right; right; eexists; split; [| reflexivity];
              now apply truthy_nonempty |]
         | |- context [if mem ?x ?l then _ else _] => destruct (mem x l)
         end; auto.
Qed.

Lemma attempts_cases D ct ns st :
  attempts D ct ns st = (st, ([], Returned false)) \/
  exists n w, In n ns /\ w <> "" /\ attempts D ct ns st = found D n st w.
Proof.
  induction ns as [| n ns IH]; cbn [attempts]; [now left |].
  destruct (attempt_cases D ct n st) as [-> | [-> | (w & Hw & ->)]].
  - destruct IH as [IH | (m & w & Hm & Hw & IH)]; [now left | right].
    exists m, w. cbn. auto.
  - now left.
  - right. exists n, w. cbn. auto.
Qed.

Lemma in_range_with_pid (st : fstate) p :
  in_range st -> in_range (with_pid (fst st) p, snd st).
Proof. unfold in_range. cbn. auto. Qed.

Lemma launch_cases D exe st :
  in_range st -> launch_case D exe st (launch D exe st).
Proof.
  intros Hr. unfold launch.
  destruct (exe_exists D) eqn:He; cbn [negb]; [| constructor; auto].
  destruct (profile_ready D) eqn:Hp; cbn [negb]; [| now constructor].
  cbv zeta. destruct (popen D) as [p |] eqn:Hpo; [| constructor; auto].
  destruct (attempts_cases D ("Browser" ++ str (idx (fst st)) ++ "_" ++ str (clock D))
              (seq 0 20) (with_pid (fst st) (str p), snd st))
    as [-> | (n & w & _ & Hw & ->)].
  - now apply no_window.
  - rewrite (found_run D n w (in_range_with_pid (str p) Hr)).
    cbn [fst title with_pid]. now apply window.
Qed.

Lemma slot_recorded (st : fstate) w :
  in_range st -> slot (recorded st w) = Some (Some w).
Proof.
  intros Hr. unfold slot, recorded. cbn [fst snd idx with_window].
  destruct (nth_error (snd st) (Z.to_nat (idx (fst st) - 1))) as [x |] eqn:Hx.
  - exact (nth_error_set_nth_same _ _ _ Hx).
  - apply nth_error_None in Hx. unfold in_range in Hr. lia.
Qed.

(** X17.  [launch] returns [True] only after it has started the process,
    recorded the pid, recorded one window id, which is not empty, both in
    the object and in its slot of the global list, and given that window the
    browser's title; it starts nothing else. *)
Theorem launch_true D exe st st' t :
  in_range st ->
  launch D exe st = (st', (t, Returned true)) ->
  exists p w ct,
    popen D = Some p /\ w <> "" /\
    pid (fst st') = Some (str p) /\
    window_id (fst st') = Some w /\ slot st' = Some (Some w) /\
    t = [Popen exe ct; Rename w (title (fst st))].
Proof.
  intros Hr Hl. pose proof (launch_cases D exe Hr) as Hc. rewrite Hl in Hc.
  inversion Hc as [| | | p ct n w Hp Hw]; subst.
  exists p, w, ct.
  match goal with H : renamed _ _ _ = true |- _ => rewrite H end.
  repeat split; auto.
  apply slot_recorded. now apply in_range_with_pid.
Qed.

Lemma launch_true_witness :
  let D := ready_desk 4242 "0x03e00003" in
  let exe := "/usr/bin/vivaldi-stable" in
  let st := (Browser_init 1 exe, [None; None; None]) in
  let st' := fst (launch D exe st) in
  exists p w ct,
    popen D = Some p /\ w <> "" /\
    pid (fst st') = Some (str p) /\
    window_id (fst st') = Some w /\ slot st' = Some (Some w) /\
    fst (snd (launch D exe st)) = [Popen exe ct; Rename w (title (fst st))].
Proof.
  cbv zeta.
  apply (@launch_true (ready_desk 4242 "0x03e00003") "/usr/bin/vivaldi-stable"
           (Browser_init 1 "/usr/bin/vivaldi-stable", [None; None; None])).
  - unfold in_range. cbn. lia.
  - reflexivity.
Defined.

(** X18.  Whatever the desktop answers, a call of [launch] on a browser
    whose slot exists leaves the index, the title and the executable name
    of the browser and the length of the global list as they were, writes
    no slot of another browser, keeps the window id of the object equal to
    its slot when it was, and when an exception leaves the method nothing
    was written and no process was started. *)
Theorem launch_keeps D exe st :
  in_range st ->
  let st' := fst (launch D exe st) in
  idx (fst st') = idx (fst st) /\
  title (fst st') = title (fst st) /\
  exe_name (fst st') = exe_name (fst st) /\
  List.length (snd st') = List.length (snd st) /\
  (forall k, k <> Z.to_nat (idx (fst st) - 1) ->
     nth_error (snd st') k = nth_error (snd st) k) /\
  (slot st = Some (window_id (fst st)) -> slot st' = Some (window_id (fst st'))) /\
  (snd (snd (launch D exe st)) = Escaped -> launch D exe st = (st, ([], Escaped))).
Proof.
  intros Hr. cbv zeta.
  destruct (launch_cases D exe Hr) as [H | He Hp | p ct Hp | p ct n w Hp Hw];
    cbn [fst snd idx title exe_name with_pid window_id].
  - repeat split; auto. discriminate.
  - repeat split; auto.
  - repeat split; auto. discriminate.
  - unfold recorded at 1 2 3 4 5. cbn [fst snd idx title exe_name with_pid with_window].
    rewrite length_set_nth. repeat split; auto.
    + intros k Hk. apply nth_error_set_nth_other. congruence.
    + intros _. rewrite (slot_recorded w (in_range_with_pid (str p) Hr)).
      reflexivity.
    + discriminate.
Qed.

Lemma launch_keeps_witness :
  let D := ready_desk 4242 "0x03e00003" in
  let exe := "/usr/bin/google-chrome" in
  let st := (Browser_init 2 exe, [Some "0x1"; None; None]) in
  let st' := fst (launch D exe st) in
  idx (fst st') = idx (fst st) /\
  title (fst st') = title (fst st) /\
  exe_name (fst st') = exe_name (fst st) /\
  List.length (snd st') = List.length (snd st) /\
  (forall k, k <> Z.to_nat (idx (fst st) - 1) ->
     nth_error (snd st') k = nth_error (snd st) k) /\
  (slot st = Some (window_id (fst st)) -> slot st' = Some (window_id (fst st'))) /\
  (snd (snd (launch D exe st)) = Escaped -> launch D exe st = (st, ([], Escaped))).
Proof.
  cbv zeta.
  apply (@launch_keeps (ready_desk 4242 "0x03e00003") "/usr/bin/google-chrome"
           (Browser_init 2 "/usr/bin/google-chrome", [Some "0x1"; None; None])).
  unfold in_range. cbn. lia.
Defined.

Ltac launch_step :=
  match goal with
  | |- context [launch ?D ?exe ?st] =>
    let Hr := fresh "Hr" in
    assert (Hr : in_range st) by (unfold in_range; cbn; lia);
    destruct (launch_cases D exe Hr); clear Hr;
    unfold recorded; cbn [fst snd idx with_pid with_window];
    repeat match goal with
           | |- context [Z.to_nat ?z] =>
             let v := eval vm_compute in (Z.to_nat z) in
             change (Z.to_nat z) with v
           end;
    cbn [fst snd idx title exe_name pid window_id with_pid with_window
         set_nth map app browsers browser_windows]
  end.

Lemma Switcher_objects :
  map (fun '(i, (exe, url)) => (Browser_init (Z.of_nat i + 1) exe, exe))
      (enumerate (combine BROWSERS BROWSER_URLS))
  = [ (mkBrowser 1 "Browser 1" "vivaldi-stable" None None, "/usr/bin/vivaldi-stable");
      (mkBrowser 2 "Browser 2" "google-chrome" None None, "/usr/bin/google-chrome");
      (mkBrowser 3 "Browser 3" "brave-browser" None None, "/usr/bin/brave-browser") ].
Proof. reflexivity. Qed.

Lemma Switcher_init_shape D :
  let reg := fst (Switcher_init D) in
  wf_registry reg /\ synced reg /\
  map title (browsers reg) = ["Browser 1"; "Browser 2"; "Browser 3"] /\
  map exe_name (browsers reg) = ["vivaldi-stable"; "google-chrome"; "brave-browser"].
Proof.
  cbv zeta. unfold Switcher_init. cbv zeta. rewrite Switcher_objects.
  cbn [launch_each].
  unfold wf_registry, synced.
  repeat launch_step; repeat split; reflexivity.
Qed.

(** X19.  Whatever the desktop answers during the three launches, and
    whether or not they find their windows, [Switcher.__init__] leaves the
    registry the other theorems start from: three browsers numbered 1, 2, 3
    with the titles Browser 1, Browser 2, Browser 3 and the executable names
    of the three paths, three window slots, and every browser's window id
    equal to its slot. *)
Theorem Switcher_init_registry D :
  let reg := fst (Switcher_init D) in
  wf_registry reg /\ synced reg /\
  map title (browsers reg) = ["Browser 1"; "Browser 2"; "Browser 3"] /\
  map exe_name (browsers reg) = ["vivaldi-stable"; "google-chrome"; "brave-browser"].
Proof. apply Switcher_init_shape. Qed.

(** X20.  When none of the three executables exists, [Switcher.__init__]
    starts no process and leaves every browser without pid and without
    window id, and the three slots empty. *)
Theorem Switcher_init_nothing_installed D :
  (forall k, exe_exists (D k) = false) ->
  Switcher_init D = (not_launched, ([], true)).
Proof.
  intros H. unfold Switcher_init. cbv zeta. rewrite Switcher_objects.
  cbn [launch_each]. unfold launch. rewrite !H. reflexivity.
Qed.

Lemma Switcher_init_nothing_installed_witness :
  Switcher_init (fun _ => bare_desk) = (not_launched, ([], true)).
Proof.
  apply (@Switcher_init_nothing_installed (fun _ => bare_desk)).
  intros k. reflexivity.
Defined.

(* ------------------------------------------------------------------ *)
(** ** What [Browser.focus] answers *)

Ltac leaf :=
  cbn -[truthy]; eexists _, _, _; split; [reflexivity |]; cbn -[truthy];
  repeat match goal with
         | H : truthy _ = true |- _ => rewrite H
         | H : focus_ok _ _ = _ |- _ => rewrite H
         end;
  cbn; try reflexivity.

Lemma focus_answer E st :
  in_range st -> focus_raises E st = None ->
  exists s' t r,
    focus E st = (s', (t, Ok r)) /\
    r = title_ok E (title (fst st))
        || truthy (window_id (fst s'))
           && (focus_ok E (get (window_id (fst s')) "")
               || xdotool_ok E (get (window_id (fst s')) "")).
Proof.
  intros Hr Hno. unfold focus_raises, focused_early, pid_search in Hno. unfold focus.
  unfold bindS at 1. unfold lift at 1. cbn [emit ret].
  unfold bindS at 1. unfold getS at 1. cbn [ret].
  unfold bindS at 1. unfold lift at 1. rewrite focus_window_by_id_run.
  destruct (truthy (window_id (fst st)) && focus_ok E _) eqn:HA.
  { apply andb_prop in HA as [HA HA']. leaf. now rewrite orb_true_r. }
  assert (Hwid : truthy (window_id (fst st))
                 && (focus_ok E (get (window_id (fst st)) "")
                     || xdotool_ok E (get (window_id (fst st)) ""))
                 = truthy (window_id (fst st))
                   && xdotool_ok E (get (window_id (fst st)) "")).
  { destruct (truthy (window_id (fst st))); [| reflexivity].
    cbn [andb] in *. now rewrite HA. }
  unfold bindS at 1. unfold lift at 1. unfold focus_by_title. cbn [bind emit ret].
  destruct (title_ok E (title (fst st))) eqn:HT.
  { leaf. }
  cbn [orb] in Hno |- *.
  unfold bindS at 1. rewrite (strategy_pid_run E Hr). cbv zeta.
  destruct (truthy (pid (fst st))) eqn:Hp.
  - destruct (window_by_pid E _) as [by_pid | e] eqn:Hsearch; [| discriminate Hno].
    destruct (truthy by_pid) eqn:Hf1.
    + pose proof (truthy_get _ Hf1) as Hw1.
      destruct (focus_ok E (get by_pid "")) eqn:Hok1.
      { leaf. }
      unfold bindS at 1.
      rewrite (strategy_brave_run E (in_range_recorded _ Hr)). cbv zeta.
      cbn [recorded fst snd exe_name with_window].
      destruct (mem _ _) eqn:Hb.
      * destruct (truthy (window_by_class E _)) eqn:Hf2.
        -- pose proof (truthy_get _ Hf2) as Hw2.
           fold (recorded st (get by_pid "")).
           rewrite recorded_twice.
           destruct (focus_ok E (get (window_by_class E _) "")) eqn:Hok2.
           ++ leaf.
           ++ rewrite strategy_xdotool_run. leaf.
        -- rewrite strategy_xdotool_run. leaf.
      * rewrite strategy_xdotool_run. leaf.
    + unfold bindS at 1. rewrite (strategy_brave_run E Hr). cbv zeta.
      destruct (mem _ _) eqn:Hb.
      * destruct (truthy (window_by_class E _)) eqn:Hf2.
        -- pose proof (truthy_get _ Hf2) as Hw2.
           destruct (focus_ok E (get (window_by_class E _) "")) eqn:Hok2.
           ++ leaf.
           ++ rewrite strategy_xdotool_run. leaf.
        -- rewrite strategy_xdotool_run. leaf. now rewrite Hwid.
      * rewrite strategy_xdotool_run. leaf. now rewrite Hwid.
  - unfold bindS at 1. rewrite (strategy_brave_run E Hr). cbv zeta.
    destruct (mem _ _) eqn:Hb.
    + destruct (truthy (window_by_class E _)) eqn:Hf2.
      * pose proof (truthy_get _ Hf2) as Hw2.
        destruct (focus_ok E (get (window_by_class E _) "")) eqn:Hok2.
        -- leaf.
        -- rewrite strategy_xdotool_run. leaf.
      * rewrite strategy_xdotool_run. leaf. now rewrite Hwid.
    + rewrite strategy_xdotool_run. leaf. now rewrite Hwid.
Qed.

(** X21.  [focus] on a browser whose slot exists, when the search by pid
    raises nothing, returns, and it returns [True] exactly when the title
    took the focus, or a window id is on record in the object when the
    method ends and either [wmctrl] focused that window or [xdotool] could
    be started on it: the answer of [xdotool] is not read, so [True] does
    not tell that the window came forward; and with a window id on record
    the method returns [False] only when [xdotool] cannot be started. *)
Theorem focus_true_when_recorded E st :
  in_range st -> focus_raises E st = None ->
  let wid := window_id (fst (state_of (focus E st))) in
  outcome_of (focus E st)
  = Ok (title_ok E (title (fst st))
        || truthy wid && (focus_ok E (get wid "") || xdotool_ok E (get wid ""))).
Proof.
  intros Hr Hno. destruct (focus_answer E Hr Hno) as (s' & t & r & -> & ->).
  reflexivity.
Qed.

Lemma focus_true_when_recorded_witness :
  let st := (mkBrowser 1 "Browser 1" "vivaldi-stable" (Some "100") (Some "0x1"),
             [Some "0x1"; None; None]) in
  let wid := window_id (fst (state_of (focus bare_env st))) in
  outcome_of (focus bare_env st)
  = Ok (title_ok bare_env (title (fst st))
        || truthy wid
           && (focus_ok bare_env (get wid "") || xdotool_ok bare_env (get wid ""))).
Proof.
  cbv zeta.
  apply (@focus_true_when_recorded bare_env
           (mkBrowser 1 "Browser 1" "vivaldi-stable" (Some "100") (Some "0x1"),
            [Some "0x1"; None; None])).
  - unfold in_range. cbn. lia.
  - reflexivity.
Defined.

(** The two runs on a browser with a window on record that [wmctrl] cannot
    focus: with [xdotool] the method returns [True], without it
    [False]. *)
Example focus_with_and_without_xdotool :
  let st := (mkBrowser 1 "Browser 1" "vivaldi-stable" (Some "100") (Some "0x1"),
             [Some "0x1"; None; None]) in
  snd (focus quiet_env st)
  = ([ListWindows; FocusById "0x1"; FocusByTitle "Browser 1"; FindByPid "100";
      Xdotool "0x1"], Ok true) /\
  snd (focus bare_env st)
  = ([ListWindows; FocusById "0x1"; FocusByTitle "Browser 1"; FindByPid "100";
      Xdotool "0x1"], Ok false).
Proof. vm_compute. split; reflexivity. Qed.

(* ------------------------------------------------------------------ *)
(** ** [find_window_by_class] on the text *)

Lemma find_first (A : Type) (f : A -> bool) (l : list A) :
  match find f l with
  | Some x =>
    exists before rest,
      l = before ++ x :: rest /\ f x = true /\
      forall y, In y before -> f y = false
  | None => forall y, In y l -> f y = false
  end.
Proof.
  induction l as [| a l IH]; cbn [find]; [intros y [] |].
  destruct (f a) eqn:Ha.
  - exists [], l. repeat split; auto. intros y [].
  - destruct (find f l) as [x |].
    + destruct IH as (before & rest & -> & Hx & Hb).
      exists (a :: before), rest. repeat split; auto.
      intros y [<- | Hy]; auto.
    + intros y [<- | Hy]; auto.
Qed.

(** X22.  [find_window_by_class] answers the first window id of the client
    list, as [', '] separates them, whose class text holds the hint whatever
    the case of the letters, and [None] when the output of [xprop] has no
    client list or no listed window has such a class text. *)
Theorem find_window_by_class_first output wm_class class_hint :
  match Text.find_window_by_class output wm_class class_hint with
  | Some wid =>
    exists ids before rest,
      Text.NET_CLIENT_LIST output = Some ids /\
      Text.split_comma "" ids = before ++ wid :: rest /\
      holds_title class_hint (wm_class wid) = true /\
      forall w, In w before -> holds_title class_hint (wm_class w) = false
  | None =>
    forall ids, Text.NET_CLIENT_LIST output = Some ids ->
    forall w, In w (Text.split_comma "" ids) ->
      holds_title class_hint (wm_class w) = false
  end.
Proof.
  unfold Text.find_window_by_class.
  destruct output as [| c output'] eqn:Ho.
  - intros ids H. discriminate H.
  - rewrite <- Ho. clear Ho.
    destruct (Text.NET_CLIENT_LIST output) as [ids |] eqn:Hids.
    + pose proof (find_first
                    (fun wid => contains (lower class_hint) (lower (wm_class wid)))
                    (Text.split_comma "" ids)) as Hf.
      destruct (find _ (Text.split_comma "" ids)) as [wid |].
      * destruct Hf as (before & rest & Hs & Hw & Hb).
        exists ids, before, rest. auto.
      * intros ids' H. inversion H. subst ids'. exact Hf.
    + intros ids H. discriminate H.
Qed.

(* ------------------------------------------------------------------ *)
(** ** The registry over a whole run *)

(** X23.  The registry keeps its shape over a whole run: after
    [Switcher.__init__] and any activations, with any indices and whatever
    the desktop answers each time, there are three browsers numbered 1, 2, 3
    with their titles and executable names, three window slots, and every
    browser's window id is equal to its slot of the global list. *)
Theorem session_registry D calls :
  let reg := session D calls in
  wf_registry reg /\ synced reg /\
  map title (browsers reg) = ["Browser 1"; "Browser 2"; "Browser 3"] /\
  map exe_name (browsers reg) = ["vivaldi-stable"; "google-chrome"; "brave-browser"].
Proof.
  cbv zeta. unfold session.
  generalize (Switcher_init_shape D). cbv zeta.
  generalize (fst (Switcher_init D)). intros reg H.
  revert reg H. induction calls as [| [E num] calls IH]; intros reg H; cbn [fold_left].
  - exact H.
  - apply IH. destruct H as (Hwf & Hs & Ht & He).
    destruct (activate_keeps_shape E num Hwf Hs) as (Hwf' & Hs' & Ht' & He').
    repeat split; try apply Hwf'; try exact Hs'; congruence.
Qed.
